(** * Resume parser (Streamlit): a shallow embedding of [app.py] and [app2.py]

    The two entry points share the text extraction, the model call and the
    normalisation of the model's answer; [app.py] persists to a JSON archive
    file, [app2.py] to a ChromaDB collection.  Python values are embedded as
    they are at run time: a [str] is a sequence of code points, the result of
    [json.loads] is a tree of Python values, a script run is a computation
    over the files it touches, the collection it writes and the Streamlit
    calls it makes. *)

From Stdlib Require Import List NArith ZArith Bool Lia String Ascii.
Import ListNotations.
Local Open Scope N_scope.
Set Warnings "-register-all".

(** ** Python [str] *)

(** A [str] is a sequence of Unicode code points. *)
Definition text := list N.

(** An ASCII literal, one code point per character. *)
Definition lit (s : string) : text :=
  List.map N_of_ascii (list_ascii_of_string s).

(** A literal of JSON text, written with an apostrophe where the text has a
    double quote (U+0022). *)
Definition json_lit (s : string) : text :=
  List.map (fun c => if c =? 39 then 34 else c) (lit s).

Definition nl : text := [10].

Fixpoint text_eqb (a b : text) : bool :=
  match a, b with
  | [], [] => true
  | x :: a', y :: b' => (x =? y) && text_eqb a' b'
  | _, _ => false
  end.

(** [s.startswith(p)] *)
Fixpoint startswith (p s : text) : bool :=
  match p, s with
  | [], _ => true
  | x :: p', y :: s' => (x =? y) && startswith p' s'
  | _ :: _, [] => false
  end.

(** [x in xs] for a list of strings. *)
Definition str_in (x : text) (xs : list text) : bool :=
  existsb (text_eqb x) xs.

(** [str.isspace] on one code point: the code points CPython classifies as
    whitespace (bidirectional type WS, B or S, or category Zs). *)
Definition is_space (c : N) : bool :=
  ((9 <=? c) && (c <=? 13)) || ((28 <=? c) && (c <=? 32))
  || (c =? 133) || (c =? 160) || (c =? 5760)
  || ((8192 <=? c) && (c <=? 8202))
  || (c =? 8232) || (c =? 8233) || (c =? 8239) || (c =? 8287) || (c =? 12288).

Fixpoint lstrip (s : text) : text :=
  match s with
  | c :: s' => if is_space c then lstrip s' else s
  | [] => []
  end.

Definition rstrip (s : text) : text := rev (lstrip (rev s)).

(** [s.strip()] *)
Definition strip (s : text) : text := rstrip (lstrip s).

(** [s.replace(' ', '_')] *)
Definition replace_space_underscore (s : text) : text :=
  List.map (fun c => if c =? 32 then 95 else c) s.

(** The lower-case mapping of a code point up to U+00FF: A-Z and the
    Latin-1 capitals (U+00C0..U+00DE without the multiplication sign U+00D7)
    move up by 32, the others stay. *)
Definition lower_cp (c : N) : N :=
  if ((65 <=? c) && (c <=? 90))
     || ((192 <=? c) && (c <=? 222) && negb (c =? 215))
  then c + 32 else c.

(** A text of code points up to U+00FF. *)
Definition latin1 (s : text) : bool := forallb (fun c => c <=? 255) s.

(** [s.lower()].  On a text of code points up to U+00FF the mapping is
    character by character and written out here.  On any other text the
    result comes from the case tables of the interpreter's Unicode database
    (with mappings to several code points and the context rule of the final
    sigma); it is an input of the development, [unicode_lower]. *)
Definition lower (unicode_lower : text -> text) (s : text) : text :=
  if latin1 s then List.map lower_cp s else unicode_lower s.

(** ** [re.sub(r"```(json)?", "", s)] *)

Definition fence : text := [96; 96; 96].
Definition fence_json : text := fence ++ lit "json".

(** The substitution scans from the left; at a position where three
    backticks start, the match is taken (with the tag [json] when it follows
    at once, the group being greedy) and erased, and the scan resumes after
    it; any other character is kept.  [skip] counts the characters of a match
    still to be dropped. *)
Fixpoint sub_fences (skip : nat) (s : text) : text :=
  match s with
  | [] => []
  | c :: rest =>
      match skip with
      | S k => sub_fences k rest
      | O =>
          if startswith fence_json s then sub_fences 6 rest
          else if startswith fence s then sub_fences 2 rest
          else c :: sub_fences 0 rest
      end
  end.

Definition remove_fences (s : text) : text := sub_fences 0 s.

(** ** Values of [json.loads] *)

(** A float keeps the literal it was read from: [integer], [frac] and [exp]
    are the three groups of the decoder's number pattern, which [float()]
    receives concatenated.  Binary floating point itself is not modelled. *)
Inductive pyfloat : Type :=
  | FNaN
  | FInfinity (negative : bool)
  | FDecimal (integer frac exp : text).

Inductive json : Type :=
  | JNull
  | JBool (b : bool)
  | JInt (n : Z)
  | JFloat (f : pyfloat)
  | JStr (s : text)
  | JArr (items : list json)
  | JObj (members : list (text * json)).

(** A [dict] is kept as its items in insertion order, keys without repeats. *)
Definition pydict := list (text * json).

(** [d[k] = v] *)
Fixpoint dict_set (k : text) (v : json) (d : pydict) : pydict :=
  match d with
  | [] => [(k, v)]
  | (k', v') :: d' =>
      if text_eqb k k' then (k, v) :: d' else (k', v') :: dict_set k v d'
  end.

(** [dict(pairs)]: a repeated key keeps its first place and its last value. *)
Definition dict (pairs : list (text * json)) : pydict :=
  fold_left (fun d kv => dict_set (fst kv) (snd kv) d) pairs [].

(** [d.get(k)], [None] when the key is missing. *)
Fixpoint dict_get (k : text) (d : pydict) : option json :=
  match d with
  | [] => None
  | (k', v) :: d' => if text_eqb k k' then Some v else dict_get k d'
  end.

(** ** [json.loads]: the decoder of the standard library *)

(** The diagnostics of [JSONDecodeError], by kind (the position is left out). *)
Inductive decode_error : Type :=
  | UnexpectedBOM
  | ExpectingValue
  | ExtraData
  | UnterminatedString
  | InvalidControlCharacter
  | InvalidEscape
  | InvalidUnicodeEscape
  | ExpectingPropertyName
  | ExpectingColonDelimiter
  | ExpectingCommaDelimiter.

(** What a scanner returns: the value and the text after it, a decode error,
    or [OutOfFuel] when the recursion bound was too small (shown below never
    to happen with the bound [json_loads] uses). *)
Inductive scan (A : Type) : Type :=
  | Scanned (a : A) (rest : text)
  | Malformed (e : decode_error)
  | OutOfFuel.
Arguments Scanned {A} a rest.
Arguments Malformed {A} e.
Arguments OutOfFuel {A}.

Definition scan_map {A B : Type} (f : A -> B) (r : scan A) : scan B :=
  match r with
  | Scanned a rest => Scanned (f a) rest
  | Malformed e => Malformed e
  | OutOfFuel => OutOfFuel
  end.

(** The decoder's whitespace: space, tab, line feed, carriage return. *)
Definition is_json_ws (c : N) : bool :=
  (c =? 32) || (c =? 9) || (c =? 10) || (c =? 13).

Fixpoint skip_ws (s : text) : text :=
  match s with
  | c :: s' => if is_json_ws c then skip_ws s' else s
  | [] => []
  end.

Definition hex_value (c : N) : option N :=
  if (48 <=? c) && (c <=? 57) then Some (c - 48)
  else if (97 <=? c) && (c <=? 102) then Some (c - 87)
  else if (65 <=? c) && (c <=? 70) then Some (c - 55)
  else None.

(** The four hexadecimal digits of a [\uXXXX] escape. *)
Definition hex4 (a b c d : N) : option N :=
  match hex_value a, hex_value b, hex_value c, hex_value d with
  | Some x, Some y, Some z, Some w =>
      Some (N.lor (N.shiftl (N.lor (N.shiftl (N.lor (N.shiftl x 4) y) 4) z) 4) w)
  | _, _, _, _ => None
  end.

Definition is_high_surrogate (c : N) : bool := (55296 <=? c) && (c <=? 56319).
Definition is_low_surrogate (c : N) : bool := (56320 <=? c) && (c <=? 57343).

Definition join_surrogates (hi lo : N) : N :=
  65536 + N.lor (N.shiftl (hi - 55296) 10) (lo - 56320).

(** The one-letter escapes: quote, backslash, slash, b, f, n, r, t. *)
Definition unescape (c : N) : option N :=
  if c =? 34 then Some 34
  else if c =? 92 then Some 92
  else if c =? 47 then Some 47
  else if c =? 98 then Some 8
  else if c =? 102 then Some 12
  else if c =? 110 then Some 10
  else if c =? 114 then Some 13
  else if c =? 116 then Some 9
  else None.

Definition scan_push (c : N) (r : scan text) : scan text :=
  scan_map (cons c) r.

(** [scanstring], entered after the opening quote (strict mode: a raw
    control character is refused).  As in the scanner the decoder runs by
    default, the four digits of a [\uXXXX] escape must be followed by at
    least one more character, or the escape is reported as invalid; and the
    escape after a high surrogate is looked at only when it, too, is
    followed by at least one character. *)
Fixpoint scanstring (s : text) : scan text :=
  match s with
  | [] => Malformed UnterminatedString
  | c :: rest =>
      if c =? 34 then Scanned [] rest
      else if c =? 92 then
        match rest with
        | [] => Malformed UnterminatedString
        | e :: rest1 =>
            if e =? 117 then
              match rest1 with
              | h1 :: h2 :: h3 :: h4 :: ((_ :: _) as rest5) =>
                  match hex4 h1 h2 h3 h4 with
                  | None => Malformed InvalidUnicodeEscape
                  | Some uni =>
                      if is_high_surrogate uni then
                        match rest5 with
                        | b :: u :: l1 :: l2 :: l3 :: l4
                          :: ((_ :: _) as rest11) =>
                            if (b =? 92) && (u =? 117) then
                              match hex4 l1 l2 l3 l4 with
                              | None => Malformed InvalidUnicodeEscape
                              | Some uni2 =>
                                  if is_low_surrogate uni2
                                  then scan_push (join_surrogates uni uni2)
                                                 (scanstring rest11)
                                  else scan_push uni (scanstring rest5)
                              end
                            else scan_push uni (scanstring rest5)
                        | _ => scan_push uni (scanstring rest5)
                        end
                      else scan_push uni (scanstring rest5)
                  end
              | _ => Malformed InvalidUnicodeEscape
              end
            else
              match unescape e with
              | Some ch => scan_push ch (scanstring rest1)
              | None => Malformed InvalidEscape
              end
        end
      else if c <? 32 then Malformed InvalidControlCharacter
      else scan_push c (scanstring rest)
  end.

Definition is_digit (c : N) : bool := (48 <=? c) && (c <=? 57).

Fixpoint span_digits (s : text) : text * text :=
  match s with
  | c :: r =>
      if is_digit c then let (d, r') := span_digits r in (c :: d, r')
      else ([], s)
  | [] => ([], [])
  end.

(** The integer group of the number pattern: an optional minus sign, then a
    zero or a digit run that starts with 1-9. *)
Definition match_integer (s : text) : option (text * text) :=
  let (sign, s1) :=
    match s with
    | c :: r => if c =? 45 then ([45], r) else ([], s)
    | [] => ([], [])
    end in
  match s1 with
  | c :: r =>
      if c =? 48 then Some (sign ++ [48], r)
      else if is_digit c
           then let (d, r') := span_digits r in Some (sign ++ c :: d, r')
           else None
  | [] => None
  end.

(** The optional fraction group: a dot and at least one digit. *)
Definition match_frac (s : text) : text * text :=
  match s with
  | c :: r =>
      if c =? 46 then
        match span_digits r with
        | ([], _) => ([], s)
        | (d, r') => (46 :: d, r')
        end
      else ([], s)
  | [] => ([], [])
  end.

(** The optional exponent group: e or E, an optional sign, at least one digit. *)
Definition match_exp (s : text) : text * text :=
  match s with
  | c :: r =>
      if (c =? 101) || (c =? 69) then
        let (sg, r1) :=
          match r with
          | x :: r' => if (x =? 45) || (x =? 43) then ([x], r') else ([], r)
          | [] => ([], [])
          end in
        match span_digits r1 with
        | ([], _) => ([], s)
        | (d, r') => (c :: sg ++ d, r')
        end
      else ([], s)
  | [] => ([], [])
  end.

(** The value of a run of decimal digits. *)
Definition digits_value (d : text) : Z :=
  fold_left (fun acc c => (10 * acc + (Z.of_N c - 48))%Z) d 0%Z.

(** [int(integer)] on the integer group. *)
Definition int_of_literal (l : text) : Z :=
  match l with
  | c :: d => if c =? 45 then (- digits_value d)%Z else digits_value l
  | [] => 0%Z
  end.

(** A number: an [int] when neither fraction nor exponent is there, a
    [float] otherwise. *)
Definition match_number (s : text) : option (json * text) :=
  match match_integer s with
  | None => None
  | Some (integer, r1) =>
      let (frac, r2) := match_frac r1 in
      let (exp, r3) := match_exp r2 in
      match frac, exp with
      | [], [] => Some (JInt (int_of_literal integer), r3)
      | _, _ => Some (JFloat (FDecimal integer frac exp), r3)
      end
  end.

(** [scan_once] with the object and array scanners it dispatches to.
    [object_members] is entered after the opening quote of a key,
    [array_items] at the start of an item. *)
Fixpoint scan_once (fuel : nat) (s : text) : scan json :=
  match fuel with
  | O => OutOfFuel
  | S fuel' =>
      match s with
      | [] => Malformed ExpectingValue
      | c :: rest =>
          if c =? 34 then scan_map JStr (scanstring rest)
          else if c =? 123 then
            match skip_ws rest with
            | q :: rest1 =>
                if q =? 125 then Scanned (JObj []) rest1
                else if q =? 34
                     then scan_map (fun pairs => JObj (dict pairs))
                                   (object_members fuel' rest1)
                     else Malformed ExpectingPropertyName
            | [] => Malformed ExpectingPropertyName
            end
          else if c =? 91 then
            match skip_ws rest with
            | q :: rest1 =>
                if q =? 93 then Scanned (JArr []) rest1
                else scan_map JArr (array_items fuel' (q :: rest1))
            | [] => Malformed ExpectingValue
            end
          else if startswith (lit "null") s then Scanned JNull (skipn 4 s)
          else if startswith (lit "true") s then Scanned (JBool true) (skipn 4 s)
          else if startswith (lit "false") s then Scanned (JBool false) (skipn 5 s)
          else
            match match_number s with
            | Some (v, rest') => Scanned v rest'
            | None =>
                if startswith (lit "NaN") s
                then Scanned (JFloat FNaN) (skipn 3 s)
                else if startswith (lit "Infinity") s
                then Scanned (JFloat (FInfinity false)) (skipn 8 s)
                else if startswith (lit "-Infinity") s
                then Scanned (JFloat (FInfinity true)) (skipn 9 s)
                else Malformed ExpectingValue
            end
      end
  end
with object_members (fuel : nat) (s : text) : scan (list (text * json)) :=
  match fuel with
  | O => OutOfFuel
  | S fuel' =>
      match scanstring s with
      | Scanned key rest =>
          match skip_ws rest with
          | c :: rest1 =>
              if c =? 58 then
                match scan_once fuel' (skip_ws rest1) with
                | Scanned value rest2 =>
                    match skip_ws rest2 with
                    | d :: rest3 =>
                        if d =? 125 then Scanned [(key, value)] rest3
                        else if d =? 44 then
                          match skip_ws rest3 with
                          | q :: rest4 =>
                              if q =? 34
                              then scan_map (cons (key, value))
                                            (object_members fuel' rest4)
                              else Malformed ExpectingPropertyName
                          | [] => Malformed ExpectingPropertyName
                          end
                        else Malformed ExpectingCommaDelimiter
                    | [] => Malformed ExpectingCommaDelimiter
                    end
                | Malformed e => Malformed e
                | OutOfFuel => OutOfFuel
                end
              else Malformed ExpectingColonDelimiter
          | [] => Malformed ExpectingColonDelimiter
          end
      | Malformed e => Malformed e
      | OutOfFuel => OutOfFuel
      end
  end
with array_items (fuel : nat) (s : text) : scan (list json) :=
  match fuel with
  | O => OutOfFuel
  | S fuel' =>
      match scan_once fuel' s with
      | Scanned value rest =>
          match skip_ws rest with
          | d :: rest1 =>
              if d =? 93 then Scanned [value] rest1
              else if d =? 44
                   then scan_map (cons value) (array_items fuel' (skip_ws rest1))
                   else Malformed ExpectingCommaDelimiter
          | [] => Malformed ExpectingCommaDelimiter
          end
      | Malformed e => Malformed e
      | OutOfFuel => OutOfFuel
      end
  end.

(** [json.loads(s)] for a [str]: a leading byte order mark is refused, one
    value is scanned between optional whitespace, anything after it is
    extra data.  The interpreter's limits on nesting and on the digits of an
    integer are left out; they are described after the definition. *)
Definition json_loads (s : text) : scan json :=
  if startswith [65279] s then Malformed UnexpectedBOM
  else
    match scan_once (3 * List.length s + 1) (skip_ws s) with
    | Scanned v rest =>
        match skip_ws rest with
        | [] => Scanned v []
        | _ :: _ => Malformed ExtraData
        end
    | Malformed e => Malformed e
    | OutOfFuel => OutOfFuel
    end.

(** ** The interpreter's limits

    [json.loads] of the interpreter stops with [RecursionError] when the
    values of a text nest deeper than the stack allows, and with
    [ValueError] on an integer literal of more digits than
    [sys.get_int_max_str_digits()]: 4300 by default, and never less than
    640, the threshold below which no configuration can set it.  Neither is
    a decode error, and [json_loads] above has neither limit: it is the
    decoder as far as the limits are not reached.
    The two agree on the texts that can reach neither limit:
    [within_limits] holds of a text with at most [safe_nesting] opening
    brackets and braces, and no run of more than [str_digits_check_threshold]
    digits.  One hundred levels are far inside the thousand frames of the
    default recursion limit. *)
Definition str_digits_check_threshold : N := 640.
Definition safe_nesting : N := 100.

Fixpoint digit_runs_within (limit run : N) (s : text) : bool :=
  match s with
  | [] => true
  | c :: s' =>
      if is_digit c
      then (run + 1 <=? limit) && digit_runs_within limit (run + 1) s'
      else digit_runs_within limit 0 s'
  end.

Fixpoint count_open (s : text) : N :=
  match s with
  | [] => 0
  | c :: s' => (if (c =? 91) || (c =? 123) then 1 else 0) + count_open s'
  end.

Definition within_limits (s : text) : bool :=
  digit_runs_within str_digits_check_threshold 0 s
  && (count_open s <=? safe_nesting).

(** ** [json.dumps]: the encoder of the standard library *)

Definition hex_digit (d : N) : N := if d <? 10 then 48 + d else 87 + d.

(** [\uXXXX] with four lower-case hexadecimal digits. *)
Definition escape_u (n : N) : text :=
  [92; 117;
   hex_digit (N.land (N.shiftr n 12) 15); hex_digit (N.land (N.shiftr n 8) 15);
   hex_digit (N.land (N.shiftr n 4) 15); hex_digit (N.land n 15)].

(** The two units of the surrogate pair of a code point above U+FFFF. *)
Definition high_unit (c : N) : N :=
  N.lor 55296 (N.land (N.shiftr (c - 65536) 10) 1023).
Definition low_unit (c : N) : N := N.lor 56320 (N.land (c - 65536) 1023).

(** One code point under [ensure_ascii]: quote, backslash and the five short
    control escapes; printable ASCII as it is; anything else as [\uXXXX], a
    surrogate pair above U+FFFF. *)
Definition escape_cp (c : N) : text :=
  if c =? 34 then [92; 34]
  else if c =? 92 then [92; 92]
  else if c =? 10 then [92; 110]
  else if c =? 13 then [92; 114]
  else if c =? 9 then [92; 116]
  else if c =? 8 then [92; 98]
  else if c =? 12 then [92; 102]
  else if (32 <=? c) && (c <=? 126) then [c]
  else if c <? 65536 then escape_u c
  else escape_u (high_unit c) ++ escape_u (low_unit c).

Definition encode_string (s : text) : text :=
  34 :: flat_map escape_cp s ++ [34].

(** The decimal digits of a natural number, most significant first. *)
Fixpoint digits_of (fuel : nat) (n : N) : text :=
  match fuel with
  | O => []
  | S fuel' =>
      if n <? 10 then [48 + n]
      else digits_of fuel' (n / 10) ++ [48 + n mod 10]
  end.

(** [int.__repr__] *)
Definition int_repr (z : Z) : text :=
  let n := Z.abs_N z in
  let d := digits_of (S (N.to_nat (N.log2 n))) n in
  if (z <? 0)%Z then 45 :: d else d.

(** How a float prints.  [float.__repr__] of the double nearest to a decimal
    literal is an input of the development ([float_repr], a function of the
    literal); the three special values print as the encoder spells them. *)
Definition encode_float (float_repr : text -> text) (f : pyfloat) : text :=
  match f with
  | FNaN => lit "NaN"
  | FInfinity false => lit "Infinity"
  | FInfinity true => lit "-Infinity"
  | FDecimal integer frac exp => float_repr (integer ++ frac ++ exp)
  end.

(** A line feed and [indent * level] spaces when [indent] is given, nothing
    otherwise. *)
Definition newline_indent (indent : option nat) (level : nat) : text :=
  match indent with
  | Some n => 10 :: repeat 32 (n * level)
  | None => []
  end.

(** The item separator: [", "] by default, a comma and the new line's
    indentation when [indent] is given. *)
Definition item_separator (indent : option nat) (level : nat) : text :=
  match indent with
  | Some _ => 44 :: newline_indent indent level
  | None => [44; 32]
  end.

Fixpoint join (sep : text) (parts : list text) : text :=
  match parts with
  | [] => []
  | [p] => p
  | p :: ps => p ++ sep ++ join sep ps
  end.

(** The encoder at nesting depth [level]. *)
Fixpoint encode (float_repr : text -> text) (indent : option nat)
  (level : nat) (v : json) {struct v} : text :=
  match v with
  | JNull => lit "null"
  | JBool true => lit "true"
  | JBool false => lit "false"
  | JInt z => int_repr z
  | JFloat f => encode_float float_repr f
  | JStr s => encode_string s
  | JArr [] => lit "[]"
  | JArr items =>
      91 :: newline_indent indent (S level)
      ++ join (item_separator indent (S level))
              (List.map (encode float_repr indent (S level)) items)
      ++ newline_indent indent level ++ [93]
  | JObj [] => lit "{}"
  | JObj members =>
      123 :: newline_indent indent (S level)
      ++ join (item_separator indent (S level))
              (List.map (fun kv =>
                           encode_string (fst kv) ++ [58; 32]
                           ++ encode float_repr indent (S level) (snd kv))
                        members)
      ++ newline_indent indent level ++ [125]
  end.

(** [json.dumps(v)] and [json.dumps(v, indent=n)] *)
Definition json_dumps (float_repr : text -> text) (indent : option nat)
  (v : json) : text :=
  encode float_repr indent 0 v.

(** ** Truth values *)

Definition is_nil {A : Type} (l : list A) : bool :=
  match l with [] => true | _ :: _ => false end.

(** Whether a decimal literal denotes a double equal to zero: its digits are
    all zero, or its value is at most 2^-1075 (half the least positive
    double) and rounds to zero. *)
Definition decimal_is_zero (integer frac exp : text) : bool :=
  let int_digits :=
    match integer with c :: d => if c =? 45 then d else integer | [] => [] end in
  let frac_digits := tl frac in
  let m := digits_value (int_digits ++ frac_digits) in
  let e :=
    match exp with
    | _ :: c :: d =>
        if c =? 45 then (- digits_value d)%Z
        else if c =? 43 then digits_value d
        else digits_value (c :: d)
    | _ => 0%Z
    end in
  let k := (e - Z.of_nat (List.length frac_digits))%Z in
  ((m =? 0) || ((k <? 0) && (m * 2 ^ 1075 <=? 10 ^ (- k))))%Z.

(** [bool(v)] *)
Definition truthy (v : json) : bool :=
  match v with
  | JNull => false
  | JBool b => b
  | JInt n => negb (n =? 0)%Z
  | JFloat FNaN => true
  | JFloat (FInfinity _) => true
  | JFloat (FDecimal i f e) => negb (decimal_is_zero i f e)
  | JStr s => negb (is_nil s)
  | JArr l => negb (is_nil l)
  | JObj d => negb (is_nil d)
  end.

(** [bool(v)] for a value that may be [None]. *)
Definition truthy_opt (v : option json) : bool :=
  match v with Some v' => truthy v' | None => false end.

(** [bool(s)] for a string that may be [None]. *)
Definition truthy_str (s : option text) : bool :=
  match s with Some s' => negb (is_nil s') | None => false end.

(** ** A script run: files, collection, Streamlit calls, exceptions *)

Inductive exn : Type :=
  | TypeError
  | AttributeError
  | JSONDecodeError (d : decode_error)
  | RecursionError
  | FileNotFoundError
  | DuplicateIDError
  | LibraryError (code : N).

(** Whether [except json.JSONDecodeError] catches the exception. *)
Definition as_decode_error (e : exn) : option decode_error :=
  match e with JSONDecodeError d => Some d | _ => None end.

Inductive outcome (A : Type) : Type :=
  | Ret (a : A)
  | Raise (e : exn).
Arguments Ret {A} a.
Arguments Raise {A} e.

(** An entry of the collection: its id, its document and the [name] of its
    metadata.  The embedding vector is computed by the store from the
    document and plays no part in what the scripts do. *)
Record entry : Type := {
  entry_id : text;
  entry_document : text;
  entry_name : text }.

(** What a run reads and writes: the staged upload [temp_resume.pdf], the
    archive [extracted_resumes.json] (both [None] when the file is absent)
    and the entries of the collection [resumes2], oldest first. *)
Record world : Type := {
  temp_resume : option (list N);
  archive : option text;
  collection : list entry }.

Inductive message : Type :=
  | FileUploaded
  | PdfplumberFailed (e : exn)
  | FitzFailed (e : exn)
  | TryingFitz
  | NoTextExtracted
  | GroqCallFailed (e : exn)
  | ErrorDecodingJSON (d : decode_error)
  | ExtractedSuccessfully
  | SavedToFile
  | NoData
  | FailedToParseOutput
  | AlreadyExists (candidate_name : text)
  | SavedToChromaDB (candidate_name : text)
  | ErrorSavingToChromaDB (e : exn).

Inductive severity : Type := Info | Warning | Error | Success | Write.

(** What a run does that the outside sees, in order: the Streamlit calls and
    the calls into the PDF libraries and the model. *)
Inductive event : Type :=
  | St (s : severity) (m : message)
  | StJson (v : json)
  | StWriteQuery
  | StDownloadButton (data : text)
  | CallPdfplumber
  | CallFitz
  | CallGroq (user_content : text).

(** The libraries a run calls into, as far as their answers are inputs here:
    the pages either PDF library finds in a file (an open that fails raises;
    a page yields its text, for pdfplumber possibly [None], or raises), the
    content of the model's first choice for a user message (or the error the
    client raised), how floats print, what the store does with an id it
    already holds ([true]: [add] raises [DuplicateIDError]; [false]: the
    record is ignored without an error, as current versions do), what the
    store does with an empty id ([Raise e]: [add] refuses it with [e], as
    the stores that validate ids do; [Ret tt]: it is an id like any other),
    and the lower-casing of a text that has a code point above U+00FF. *)
Record libraries : Type := {
  pdfplumber_open : list N -> outcome (list (outcome (option text)));
  fitz_open : list N -> outcome (list (outcome text));
  groq_create : text -> outcome (option text);
  float_repr : text -> text;
  add_raises_on_duplicate : bool;
  add_empty_id : outcome unit;
  unicode_lower : text -> text }.

(** A computation: from a state to an outcome, the state after it and the
    events emitted. *)
Definition M (A : Type) : Type := world -> outcome A * world * list event.

Definition ret {A : Type} (a : A) : M A := fun w => (Ret a, w, []).

Definition raise {A : Type} (e : exn) : M A := fun w => (Raise e, w, []).

Definition bind {A B : Type} (m : M A) (k : A -> M B) : M B :=
  fun w =>
    match m w with
    | (Ret a, w1, t1) =>
        match k a w1 with
        | (o, w2, t2) => (o, w2, t1 ++ t2)
        end
    | (Raise e, w1, t1) => (Raise e, w1, t1)
    end.

Notation "x <- m ;; k" := (bind m (fun x => k))
  (at level 61, m at next level, right associativity).
Notation "m ;;; k" := (bind m (fun _ => k))
  (at level 61, right associativity).

(** [try: m  except Exception as e: h e] *)
Definition try_except {A : Type} (m : M A) (h : exn -> M A) : M A :=
  fun w =>
    match m w with
    | (Ret a, w1, t1) => (Ret a, w1, t1)
    | (Raise e, w1, t1) =>
        match h e w1 with
        | (o, w2, t2) => (o, w2, t1 ++ t2)
        end
    end.

(** [try: m  except json.JSONDecodeError as e: h e] *)
Definition try_except_decode {A : Type} (m : M A)
  (h : decode_error -> M A) : M A :=
  try_except m (fun e =>
    match as_decode_error e with
    | Some d => h d
    | None => raise e
    end).

Definition emit (e : event) : M unit := fun w => (Ret tt, w, [e]).

Definition st (s : severity) (m : message) : M unit := emit (St s m).

Definition lift {A : Type} (o : outcome A) : M A := fun w => (o, w, []).

Definition get_world : M world := fun w => (Ret w, w, []).

Definition put_world (w' : world) : M unit := fun _ => (Ret tt, w', []).

(** ** The files *)

(** [open(temp_path, "wb").write(data)] *)
Definition write_temp (data : list N) : M unit :=
  w <- get_world ;;
  put_world {| temp_resume := Some data; archive := archive w;
               collection := collection w |}.

(** The bytes a PDF library finds at [temp_path]. *)
Definition read_temp : M (list N) :=
  w <- get_world ;;
  match temp_resume w with
  | Some data => ret data
  | None => raise FileNotFoundError
  end.

(** [os.remove(temp_path)] *)
Definition os_remove_temp : M unit :=
  w <- get_world ;;
  match temp_resume w with
  | Some _ => put_world {| temp_resume := None; archive := archive w;
                           collection := collection w |}
  | None => raise FileNotFoundError
  end.

Definition write_archive (content : text) : M unit :=
  w <- get_world ;;
  put_world {| temp_resume := temp_resume w; archive := Some content;
               collection := collection w |}.

(** ** The collection *)

(** [collection.peek()["ids"]]: [peek] returns the first [limit] entries and
    the script leaves [limit] at its default, 10. *)
Definition peek_limit : nat := 10.

Definition peek_ids (c : list entry) : list text :=
  List.map entry_id (firstn peek_limit c).

(** What the store's validation makes of an id: only the empty id can be
    refused. *)
Definition validate_id (lib : libraries) (id : text) : outcome unit :=
  if is_nil id then add_empty_id lib else Ret tt.

(** [collection.add(documents=[d], metadatas=[{"name": n}], ids=[i])]: the
    id is validated first; then a new id is appended, and an id the
    collection holds is left alone, with or without an error as the store's
    version has it. *)
Definition collection_add (lib : libraries) (e : entry) : M unit :=
  lift (validate_id lib (entry_id e)) ;;;
  w <- get_world ;;
  if str_in (entry_id e) (List.map entry_id (collection w))
  then if add_raises_on_duplicate lib then raise DuplicateIDError else ret tt
  else put_world {| temp_resume := temp_resume w; archive := archive w;
                    collection := collection w ++ [e] |}.

(** ** Text extraction (both scripts) *)

(** [page.extract_text() or ""] *)
Definition text_or_empty (t : option text) : text :=
  match t with
  | Some s => s
  | None => []
  end.

(** ["".join(page.extract_text() or "" for page in pdf.pages)] *)
Fixpoint join_pdfplumber_pages (pages : list (outcome (option text)))
  : outcome text :=
  match pages with
  | [] => Ret []
  | Raise e :: _ => Raise e
  | Ret t :: ps =>
      match join_pdfplumber_pages ps with
      | Ret r => Ret (text_or_empty t ++ r)
      | Raise e => Raise e
      end
  end.

(** ["".join(page.get_text() for page in doc)] *)
Fixpoint join_fitz_pages (pages : list (outcome text)) : outcome text :=
  match pages with
  | [] => Ret []
  | Raise e :: _ => Raise e
  | Ret t :: ps =>
      match join_fitz_pages ps with
      | Ret r => Ret (t ++ r)
      | Raise e => Raise e
      end
  end.

Definition extract_text_with_pdfplumber (lib : libraries) : M (option text) :=
  emit CallPdfplumber ;;;
  try_except
    (data <- read_temp ;;
     pages <- lift (pdfplumber_open lib data) ;;
     text <- lift (join_pdfplumber_pages pages) ;;
     if negb (is_nil (strip text)) then ret (Some text) else ret None)
    (fun e => st Warning (PdfplumberFailed e) ;;; ret None).

Definition extract_text_with_fitz (lib : libraries) : M (option text) :=
  emit CallFitz ;;;
  try_except
    (data <- read_temp ;;
     pages <- lift (fitz_open lib data) ;;
     text <- lift (join_fitz_pages pages) ;;
     if negb (is_nil (strip text)) then ret (Some text) else ret None)
    (fun e => st Warning (FitzFailed e) ;;; ret None).

(** Lines 95-99 of [app.py], 126-130 of [app2.py]: pdfplumber first, fitz
    when its result is falsy. *)
Definition extract_text (lib : libraries) : M (option text) :=
  resume_text <- extract_text_with_pdfplumber lib ;;
  if negb (truthy_str resume_text)
  then st Warning TryingFitz ;;; extract_text_with_fitz lib
  else ret resume_text.

(** ** The model call (both scripts) *)

Definition user_content (resume_text : text) : text :=
  lit "Extract key information (like name, contact, skills, education, projects, certifications, and experience) from the following resume:"
  ++ nl ++ resume_text.

Definition extract_entities_with_groq (lib : libraries) (resume_text : text)
  : M (option text) :=
  try_except
    (emit (CallGroq (user_content resume_text)) ;;;
     lift (groq_create lib (user_content resume_text)))
    (fun e => st Error (GroqCallFailed e) ;;; ret None).

(** ** Normalising the model's answer (both scripts) *)

(** [re.sub] on [None] raises [TypeError]. *)
Definition re_sub_fences (llm_output : option text) : M text :=
  match llm_output with
  | Some s => ret (remove_fences s)
  | None => raise TypeError
  end.

(** [json.loads] inside a run: a decode error is raised as
    [JSONDecodeError].  The run is that of a text within the interpreter's
    limits ([within_limits]): the [RecursionError] and [ValueError] of a
    text beyond them are not part of it, and [RecursionError] here stands
    for the bound of [json_loads], which is never reached. *)
Definition loads (s : text) : M json :=
  match json_loads s with
  | Scanned v _ => ret v
  | Malformed d => raise (JSONDecodeError d)
  | OutOfFuel => raise RecursionError
  end.

Definition convert_llm_output_to_dict (llm_output : option text)
  : M (option json) :=
  try_except_decode
    (cleaned <- re_sub_fences llm_output ;;
     v <- loads (strip cleaned) ;;
     ret (Some v))
    (fun d => st Error (ErrorDecodingJSON d) ;;; ret None).

(** ** [app.py]: the archive file *)

Definition save_to_json (lib : libraries) (data : json) : M unit :=
  w <- get_world ;;
  resumes <-
    match archive w with
    | Some content =>
        try_except_decode (loads content) (fun _ => ret (JArr []))
    | None => ret (JArr [])
    end ;;
  resumes' <-
    match resumes with
    | JArr items => ret (JArr (items ++ [data]))
    | _ => raise AttributeError
    end ;;
  write_archive (json_dumps (float_repr lib) (Some 4%nat) resumes') ;;;
  st Success SavedToFile.

(** Lines 105-121: the model call, the normalisation and, for a truthy
    result, the display, the archive and the download button. *)
Definition app_process (lib : libraries) (resume_text : text) : M unit :=
  extracted_info <- extract_entities_with_groq lib resume_text ;;
  structured_data <- convert_llm_output_to_dict extracted_info ;;
  match structured_data with
  | Some v =>
      if truthy v then
        st Success ExtractedSuccessfully ;;;
        emit (StJson v) ;;;
        save_to_json lib v ;;;
        emit (StDownloadButton (json_dumps (float_repr lib) (Some 4%nat) v))
      else ret tt
  | None => ret tt
  end.

(** The script from the upload on (line 86): the upload is staged, the text
    extracted, a non-empty text processed, the staged file removed. *)
Definition app_script (lib : libraries) (uploaded_file : option (list N))
  : M unit :=
  match uploaded_file with
  | None => ret tt
  | Some data =>
      st Info FileUploaded ;;;
      write_temp data ;;;
      resume_text <- extract_text lib ;;
      match resume_text with
      | Some (c :: t) => app_process lib (c :: t)
      | _ => st Error NoTextExtracted
      end ;;;
      os_remove_temp
  end.

(** ** [app2.py]: the collection *)

Definition unknown : text := lit "Unknown".

(** [resume_dict.get("name", "Unknown")]: only a [dict] has [get]. *)
Definition get_name (resume_dict : json) : M json :=
  match resume_dict with
  | JObj d =>
      match dict_get (lit "name") d with
      | Some v => ret v
      | None => ret (JStr unknown)
      end
  | _ => raise AttributeError
  end.

(** [name.replace(' ', '_').lower()] on a [str]. *)
Definition candidate_key (unicode_lower : text -> text) (name : text)
  : text :=
  lower unicode_lower (replace_space_underscore name).

Definition save_to_chromadb (lib : libraries) (data : text) : M unit :=
  try_except
    (if is_nil data then st Error NoData
     else
       resume_dict <- convert_llm_output_to_dict (Some data) ;;
       match resume_dict with
       | Some v =>
           if truthy v then
             name <- get_name v ;;
             match name with
             | JStr s =>
                 let candidate_name := candidate_key (unicode_lower lib) s in
                 w <- get_world ;;
                 if str_in candidate_name (peek_ids (collection w))
                 then st Warning (AlreadyExists candidate_name)
                 else
                   collection_add lib
                     {| entry_id := candidate_name;
                        entry_document := json_dumps (float_repr lib) None v;
                        entry_name := s |} ;;;
                   st Write (SavedToChromaDB candidate_name)
             | _ => raise AttributeError (* only a [str] has [replace] *)
             end
           else st Error FailedToParseOutput
       | None => st Error FailedToParseOutput
       end)
    (fun e => st Error (ErrorSavingToChromaDB e)).

(** Lines 136-151: the model call and, for a non-empty answer, the sink,
    the query display and the download button. *)
Definition app2_process (lib : libraries) (resume_text : text) : M unit :=
  extracted_info <- extract_entities_with_groq lib resume_text ;;
  match extracted_info with
  | Some (c :: t) =>
      st Success ExtractedSuccessfully ;;;
      save_to_chromadb lib (c :: t) ;;;
      emit StWriteQuery ;;;
      emit (StDownloadButton
              (json_dumps (float_repr lib) (Some 4%nat) (JStr (c :: t))))
  | _ => ret tt
  end.

(** The script from the upload on (line 117). *)
Definition app2_script (lib : libraries) (uploaded_file : option (list N))
  : M unit :=
  match uploaded_file with
  | None => ret tt
  | Some data =>
      st Info FileUploaded ;;;
      write_temp data ;;;
      resume_text <- extract_text lib ;;
      match resume_text with
      | Some (c :: t) => app2_process lib (c :: t)
      | _ => st Error NoTextExtracted
      end ;;;
      os_remove_temp
  end.

(** ** What the properties below are stated with *)

Definition outcome_of {A : Type} (r : outcome A * world * list event)
  : outcome A := fst (fst r).
Definition world_of {A : Type} (r : outcome A * world * list event)
  : world := snd (fst r).
Definition trace_of {A : Type} (r : outcome A * world * list event)
  : list event := snd r.

(** [p] occurs somewhere in [s]. *)
Fixpoint contains (p s : text) : bool :=
  startswith p s
  || match s with
     | [] => false
     | _ :: s' => contains p s'
     end.

(** [erases_fences s t]: [t] is [s] with its fence markers cut out, found
    from the left: where three backticks start they go, together with the
    tag [json] when it follows at once; every other character stays. *)
Inductive erases_fences : text -> text -> Prop :=
  | erases_nil : erases_fences [] []
  | erases_keep c s t :
      startswith fence (c :: s) = false ->
      erases_fences s t -> erases_fences (c :: s) (c :: t)
  | erases_tagged s t :
      erases_fences s t -> erases_fences (fence_json ++ s) t
  | erases_plain s t :
      startswith (lit "json") s = false ->
      erases_fences s t -> erases_fences (fence ++ s) t.

(** What may follow an encoded value: the end of the text, whitespace, a
    comma, or a closing bracket or brace. *)
Definition delimited (rest : text) : bool :=
  match rest with
  | [] => true
  | c :: _ => is_json_ws c || (c =? 44) || (c =? 93) || (c =? 125)
  end.

(** What the first character of an encoded value is: no whitespace of
    either kind, no closing bracket or brace, no byte order mark. *)
Definition value_head (c : N) : Prop :=
  is_json_ws c = false /\ is_space c = false
  /\ c <> 93 /\ c <> 125 /\ c <> 65279.

(** [scans_back enc v]: from the text [enc v] followed by any delimited
    [tail], the scanner returns [v] and leaves [tail], given fuel for twice
    the length of the text. *)
Definition scans_back (enc : json -> text) (v : json) : Prop :=
  forall tail fuel,
    delimited tail = true ->
    (2 * List.length (enc v ++ tail) + 1 <= fuel)%nat ->
    scan_once fuel (enc v ++ tail) = Scanned v tail.

(** The strings that survive the encoder and the decoder: code points up
    to U+10FFFF, and no high surrogate with a low surrogate right after it
    (the encoder writes the two as two escapes, which the decoder joins into
    one code point).  Unicode text, which has no surrogate, is of this
    kind. *)
Fixpoint text_ok (s : text) : bool :=
  match s with
  | [] => true
  | c :: t =>
      (c <=? 1114111)
      && negb (is_high_surrogate c
               && match t with
                  | d :: _ => is_low_surrogate d
                  | [] => false
                  end)
      && text_ok t
  end.

(** [s] does not start with the escape of a low surrogate. *)
Definition no_low_escape (s : text) : Prop :=
  forall l1 l2 l3 l4 r,
    s = 92 :: 117 :: l1 :: l2 :: l3 :: l4 :: r ->
    exists u, hex4 l1 l2 l3 l4 = Some u /\ is_low_surrogate u = false.

Fixpoint keys_distinct (ks : list text) : bool :=
  match ks with
  | [] => true
  | k :: ks' => negb (str_in k ks') && keys_distinct ks'
  end.

(** The values a StructuredRecord is made of: strings, mappings with
    distinct keys, sequences, and the leaves [null], booleans and integers.
    Floats are left out, their printing being an input. *)
Fixpoint well_formed (v : json) : bool :=
  match v with
  | JNull | JBool _ | JInt _ => true
  | JFloat _ => false
  | JStr s => text_ok s
  | JArr items => forallb well_formed items
  | JObj members =>
      keys_distinct (List.map fst members)
      && forallb (fun kv => text_ok (fst kv) && well_formed (snd kv))
                 members
  end.

(** A StructuredRecord: object-like at the top level. *)
Definition structured_record (v : json) : bool :=
  match v with
  | JObj _ => well_formed v
  | _ => false
  end.

(** Strategy A fails: the open or a page raises, or the joined text is empty
    or all whitespace. *)
Definition pdfplumber_fails (lib : libraries) (data : list N) : Prop :=
  match pdfplumber_open lib data with
  | Raise _ => True
  | Ret pages =>
      match join_pdfplumber_pages pages with
      | Raise _ => True
      | Ret t => strip t = []
      end
  end.

(** Strategy B fails, likewise. *)
Definition fitz_fails (lib : libraries) (data : list N) : Prop :=
  match fitz_open lib data with
  | Raise _ => True
  | Ret pages =>
      match join_fitz_pages pages with
      | Raise _ => True
      | Ret t => strip t = []
      end
  end.

(** What a strategy returns, by what the library finds in the file. *)
Definition pdfplumber_text (lib : libraries) (data : list N) : option text :=
  match pdfplumber_open lib data with
  | Raise _ => None
  | Ret pages =>
      match join_pdfplumber_pages pages with
      | Raise _ => None
      | Ret t => if is_nil (strip t) then None else Some t
      end
  end.

Definition fitz_text (lib : libraries) (data : list N) : option text :=
  match fitz_open lib data with
  | Raise _ => None
  | Ret pages =>
      match join_fitz_pages pages with
      | Raise _ => None
      | Ret t => if is_nil (strip t) then None else Some t
      end
  end.

(** The records [save_to_json] finds in the archive: none when the file is
    absent or does not decode; [None] when the file holds JSON that is no
    array, which [append] then fails on. *)
Definition archive_items (w : world) : option (list json) :=
  match archive w with
  | None => Some []
  | Some content =>
      match json_loads content with
      | Scanned (JArr items) _ => Some items
      | Scanned _ _ => None
      | Malformed _ => Some []
      | OutOfFuel => None
      end
  end.

Definition with_archive (w : world) (content : text) : world :=
  {| temp_resume := temp_resume w; archive := Some content;
     collection := collection w |}.

Definition with_collection (w : world) (c : list entry) : world :=
  {| temp_resume := temp_resume w; archive := archive w; collection := c |}.

(** [resume_dict.get("name", "Unknown")] on a [dict]. *)
Definition name_or_unknown (d : pydict) : json :=
  match dict_get (lit "name") d with
  | Some v => v
  | None => JStr unknown
  end.

(** The text either script goes on with. *)
Definition extracted_text (lib : libraries) (data : list N) : option text :=
  match pdfplumber_text lib data with
  | Some t => Some t
  | None => fitz_text lib data
  end.

(** The state with the upload staged, and with the staged file removed. *)
Definition staged (w : world) (data : list N) : world :=
  {| temp_resume := Some data; archive := archive w; collection := collection w |}.

Definition unstaged (w : world) : world :=
  {| temp_resume := None; archive := archive w; collection := collection w |}.

(** The fallback policy on the outcome of a run over the upload [data]:
    the run's first library call is pdfplumber; fitz is called exactly when
    pdfplumber failed; when both fail the run reports that no text was
    extracted and never calls the model. *)
Definition fallback_policy_on (lib : libraries) (data : list N)
  (r : outcome unit * world * list event) : Prop :=
  (exists tr, trace_of r = St Info FileUploaded :: CallPdfplumber :: tr)
  /\ (In CallFitz (trace_of r) <-> pdfplumber_fails lib data)
  /\ (pdfplumber_fails lib data -> fitz_fails lib data ->
      In (St Error NoTextExtracted) (trace_of r)
      /\ forall p, ~ In (CallGroq p) (trace_of r)).

(** [save_to_json] once per record, in order. *)
Fixpoint append_all (lib : libraries) (records : list json) : M unit :=
  match records with
  | [] => ret tt
  | r :: rs => save_to_json lib r ;;; append_all lib rs
  end.

(** [save_to_chromadb] once per model answer, in order. *)
Fixpoint upsert_all (lib : libraries) (answers : list text) : M unit :=
  match answers with
  | [] => ret tt
  | a :: rest => save_to_chromadb lib a ;;; upsert_all lib rest
  end.

(** A model answer in a fence: the opening marker, with the tag [json] or
    without it, a line feed, the body, a line feed, the closing marker. *)
Definition fenced (tagged : bool) (body : text) : text :=
  (if tagged then fence_json else fence) ++ nl ++ body ++ nl ++ fence.

(** The user messages of the model calls of a trace, in order. *)
Definition groq_calls (tr : list event) : list text :=
  flat_map (fun e => match e with CallGroq p => [p] | _ => [] end) tr.

(** Every id of the collection is the key derived from the name in the
    entry's metadata. *)
Definition ids_are_keys (lib : libraries) (c : list entry) : Prop :=
  Forall (fun e => entry_id e
                   = candidate_key (unicode_lower lib) (entry_name e)) c.

(** The spec's derivation of the key, in the spec's order: lower-case, then
    every space replaced by an underscore. *)
Definition spec_key (unicode_lower : text -> text) (name : text) : text :=
  replace_space_underscore (lower unicode_lower name).

(** An extraction that cannot fail: in every state it returns, leaves the
    state as it is, and what it returns is a text that is not blank, or
    nothing. *)
Definition returns_text_or_nothing (m : M (option text)) : Prop :=
  forall w, exists r tr,
    m w = (Ret r, w, tr)
    /\ match r with
       | Some t => strip t <> []
       | None => True
       end.

(** A text of ASCII characters only. *)
Definition ascii_text (s : text) : Prop := Forall (fun c => c < 128) s.

(** ** Inputs of the examples *)

Definition empty_world : world :=
  {| temp_resume := None; archive := None; collection := [] |}.

(** The first bytes of an upload. *)
Definition sample_pdf : list N := [37; 80; 68; 70].

(** Libraries for the examples: pdfplumber finds [pages], fitz finds no
    page, the model gives [answer]; floats print as their literal (no
    example holds one); the store refuses an empty id; no example lowers a
    text with a code point above U+00FF. *)
Definition sample_lib (pages : list (outcome (option text)))
  (answer : outcome (option text)) (raises : bool) : libraries :=
  {| pdfplumber_open := fun _ => Ret pages;
     fitz_open := fun _ => Ret [];
     groq_create := fun _ => answer;
     float_repr := fun l => l;
     add_raises_on_duplicate := raises;
     add_empty_id := Raise (LibraryError 400);
     unicode_lower := fun s => s |}.

(** Libraries in which fitz finds [pages] and pdfplumber cannot open the file. *)
Definition fitz_lib (pages : list (outcome text)) : libraries :=
  {| pdfplumber_open := fun _ => Raise (LibraryError 0);
     fitz_open := fun _ => Ret pages;
     groq_create := fun _ => Ret None;
     float_repr := fun l => l;
     add_raises_on_duplicate := false;
     add_empty_id := Raise (LibraryError 400);
     unicode_lower := fun s => s |}.

Definition one_page : list (outcome (option text)) :=
  [Ret (Some (lit "John Doe"))].

(** The model answer [{"name": "<n>"}]. *)
Definition answer_named (n : text) : text :=
  json_lit "{'name': '" ++ n ++ json_lit "'}".

Definition ten_names : list text :=
  [lit "c0"; lit "c1"; lit "c2"; lit "c3"; lit "c4";
   lit "c5"; lit "c6"; lit "c7"; lit "c8"; lit "c9"].

(** The answer of the spec's fence example. *)
Definition fenced_answer : text :=
  lit "```json" ++ nl ++ json_lit "{'name':'A'}" ++ nl ++ lit "```".

Arguments json_loads : simpl never.
Arguments json_dumps : simpl never.
Arguments strip : simpl never.
Arguments remove_fences : simpl never.
Arguments user_content : simpl never.
Arguments candidate_key : simpl never.
Arguments peek_ids : simpl never.
Arguments extract_text_with_pdfplumber : simpl never.
Arguments extract_text_with_fitz : simpl never.
Arguments extract_text : simpl never.
Arguments extract_entities_with_groq : simpl never.
Arguments convert_llm_output_to_dict : simpl never.
Arguments save_to_json : simpl never.
Arguments save_to_chromadb : simpl never.
Arguments collection_add : simpl never.
Arguments app_process : simpl never.
Arguments app2_process : simpl never.

Create HintDb run.
#[export] Hint Unfold bind ret raise try_except try_except_decode emit st lift
  get_world put_world write_temp read_temp os_remove_temp write_archive
  outcome_of world_of trace_of : run.

(** Unfolds the operations of a run and computes. *)
Ltac run := autounfold with run; cbn.

(** Case analysis on the conditions of a scanner's result. *)
Ltac scan_cases H :=
  repeat match type of H with
         | (if ?b then _ else _) = _ => destruct b eqn:?
         | match ?x with _ => _ end = _ => destruct x eqn:?
         end.

(** Closes a length goal about the text left after a literal. *)
Ltac skipn_done :=
  repeat match goal with
         | |- context [match ?l with [] => _ | _ :: _ => _ end] => destruct l
         end;
  simpl in *; lia.

(** Linear arithmetic with division and remainder by constants. *)
Ltac div_lia := zify; Z.to_euclidean_division_equations; lia.

(** Linear arithmetic over the lengths of appended texts. *)
Ltac len_hyp H :=
  repeat first [rewrite length_app in H | progress cbn [List.length] in H].

Ltac len_lia :=
  repeat match goal with
         | H : context [List.length _] |- _ => progress len_hyp H
         end;
  repeat first [rewrite length_app | progress cbn [List.length]];
  lia.

(** * Strings *)

Lemma text_eqb_eq (a b : text) : text_eqb a b = true <-> a = b.
Proof.
  revert b; induction a as [|x a IH]; intros [|y b]; simpl; split; intro H;
    try discriminate; try reflexivity.
  - apply andb_true_iff in H as [H1 H2]. apply N.eqb_eq in H1.
    apply IH in H2. now subst.
  - injection H as -> ->. rewrite N.eqb_refl. simpl. now apply IH.
Qed.

Lemma text_eqb_refl (a : text) : text_eqb a a = true.
Proof. now apply text_eqb_eq. Qed.

Lemma startswith_app (p s : text) : startswith p (p ++ s) = true.
Proof. induction p as [|x p IH]; simpl; [reflexivity|]. now rewrite N.eqb_refl. Qed.

Lemma startswith_split (p s : text) :
  startswith p s = true -> exists s', s = p ++ s'.
Proof.
  revert s; induction p as [|x p IH]; intros s H.
  - now exists s.
  - destruct s as [|y s]; simpl in H; [discriminate|].
    apply andb_true_iff in H as [H1 H2]. apply N.eqb_eq in H1. subst y.
    destruct (IH _ H2) as [s' ->]. now exists s'.
Qed.

(** * Fence removal *)

Lemma remove_fences_tagged (s : text) :
  remove_fences (fence_json ++ s) = remove_fences s.
Proof. reflexivity. Qed.

Lemma startswith_fence_json (s : text) :
  startswith fence_json s = startswith fence s && startswith (lit "json") (skipn 3 s).
Proof.
  change fence_json with (96 :: 96 :: 96 :: lit "json"). unfold fence.
  destruct s as [|a [|b [|c s]]]; cbn [startswith skipn]; try reflexivity.
  - now rewrite andb_false_r.
  - now rewrite !andb_false_r.
  - now rewrite !andb_assoc, andb_true_r.
Qed.

Lemma remove_fences_plain (s : text) :
  startswith (lit "json") s = false ->
  remove_fences (fence ++ s) = remove_fences s.
Proof.
  intro H. unfold remove_fences. cbn [app fence sub_fences].
  rewrite startswith_fence_json. cbn [skipn].
  rewrite H, andb_false_r.
  change (startswith fence (96 :: 96 :: 96 :: s)) with true. reflexivity.
Qed.

Lemma remove_fences_keep (c : N) (s : text) :
  startswith fence (c :: s) = false ->
  remove_fences (c :: s) = c :: remove_fences s.
Proof.
  intro H. unfold remove_fences. cbn [sub_fences].
  rewrite startswith_fence_json, H. reflexivity.
Qed.

Lemma remove_fences_erases (s : text) : erases_fences s (remove_fences s).
Proof.
  remember (List.length s) as n eqn:Hn.
  revert s Hn. induction n as [n IH] using lt_wf_ind. intros s Hn.
  destruct s as [|c s'] eqn:Es; [constructor|]. rewrite <- Es.
  destruct (startswith fence s) eqn:Hf.
  - destruct (startswith_split _ _ Hf) as [r Hr].
    destruct (startswith (lit "json") r) eqn:Hj.
    + destruct (startswith_split _ _ Hj) as [r' Hr'].
      assert (E : s = fence_json ++ r').
      { rewrite Hr, Hr'. reflexivity. }
      rewrite E, remove_fences_tagged. constructor.
      apply (IH (List.length r')); [|reflexivity].
      subst n. rewrite <- Es, E, length_app. simpl. lia.
    + rewrite Hr, remove_fences_plain by exact Hj. constructor; [exact Hj|].
      apply (IH (List.length r)); [|reflexivity].
      subst n. rewrite <- Es, Hr, length_app. simpl. lia.
  - rewrite Es in *. rewrite remove_fences_keep by exact Hf.
    constructor; [exact Hf|].
    apply (IH (List.length s')); [|reflexivity]. subst n. simpl. lia.
Qed.

Lemma erases_no_pair (s t : text) :
  erases_fences s t ->
  startswith [96; 96] s = false -> startswith [96; 96] t = false.
Proof.
  intros H. destruct H as [|c s t Hc H| |]; intro Hs; try reflexivity.
  - cbn [startswith] in Hs |- *.
    destruct (96 =? c) eqn:Ec; [|reflexivity].
    cbn [andb] in Hs |- *.
    destruct H as [|d s t Hd H| |]; try discriminate Hs; [reflexivity|].
    exact Hs.
  - discriminate Hs.
  - discriminate Hs.
Qed.

Lemma erases_no_fence (s t : text) :
  erases_fences s t -> contains fence t = false.
Proof.
  induction 1 as [|c s t Hc H IH| |]; try assumption; [reflexivity|].
  cbn [contains]. rewrite IH, orb_false_r.
  unfold fence in Hc |- *. cbn [startswith] in Hc |- *.
  destruct (96 =? c) eqn:Ec; [|reflexivity].
  cbn [andb] in Hc |- *.
  apply (erases_no_pair _ _ H). exact Hc.
Qed.

Lemma remove_fences_clean (s : text) :
  contains fence s = false -> remove_fences s = s.
Proof.
  induction s as [|c s IH]; intro H; [reflexivity|].
  cbn [contains] in H. apply orb_false_iff in H as [H1 H2].
  rewrite remove_fences_keep by exact H1. now rewrite IH.
Qed.

(** * The decoder consumes its input and never runs out of fuel *)

Lemma skip_ws_le (s : text) : (List.length (skip_ws s) <= List.length s)%nat.
Proof.
  induction s as [|c s IH]; simpl; [lia|].
  destruct (is_json_ws c); simpl; lia.
Qed.

Lemma scan_map_inv {A B : Type} (f : A -> B) (r : scan A) (b : B) (rest : text) :
  scan_map f r = Scanned b rest -> exists a, r = Scanned a rest /\ b = f a.
Proof.
  destruct r as [a rest'| |]; simpl; intro H; try discriminate.
  injection H as <- <-. now exists a.
Qed.

Lemma scan_map_fuel {A B : Type} (f : A -> B) (r : scan A) :
  scan_map f r = OutOfFuel -> r = OutOfFuel.
Proof. destruct r; simpl; intro H; try discriminate; reflexivity. Qed.

Lemma scanstring_shorter_upto (n : nat) :
  forall s, (List.length s <= n)%nat ->
  forall a r, scanstring s = Scanned a r -> (List.length r < List.length s)%nat.
Proof.
  induction n as [|n IH]; intros s Hn a r H.
  - destruct s; [discriminate|simpl in Hn; lia].
  - destruct s as [|c rest]; [discriminate|].
    cbn [scanstring] in H.
    repeat match type of H with
           | (if ?b then _ else _) = _ => destruct b
           | match ?x with _ => _ end = _ => destruct x eqn:?
           | scan_push _ _ = Scanned _ _ =>
               apply scan_map_inv in H as (? & H & ->)
           end;
      try discriminate;
      try (injection H as <- <-; simpl; lia);
      (apply IH in H; simpl in *; lia).
Qed.

Lemma scanstring_shorter (s a r : text) :
  scanstring s = Scanned a r -> (List.length r < List.length s)%nat.
Proof. apply (scanstring_shorter_upto (List.length s)). lia. Qed.

Lemma scanstring_fuel (s : text) : scanstring s <> OutOfFuel.
Proof.
  remember (List.length s) as n eqn:Hn. revert s Hn.
  induction n as [n IH] using lt_wf_ind. intros s Hn H.
  destruct s as [|c rest]; [discriminate|].
  cbn [scanstring] in H.
  repeat match type of H with
         | (if ?b then _ else _) = _ => destruct b
         | match ?x with _ => _ end = _ => destruct x eqn:?
         | scan_push _ _ = OutOfFuel => apply scan_map_fuel in H
         end;
    try discriminate;
    (eapply IH in H; [exact H| |reflexivity]; subst; simpl; lia).
Qed.

Lemma span_digits_app (s : text) :
  s = fst (span_digits s) ++ snd (span_digits s).
Proof.
  induction s as [|c s IH]; simpl; [reflexivity|].
  destruct (is_digit c); [|reflexivity].
  destruct (span_digits s) as [d r]. simpl in *. now rewrite IH at 1.
Qed.

Lemma span_digits_length (s d r : text) :
  span_digits s = (d, r) -> (List.length r <= List.length s)%nat.
Proof.
  intro H. pose proof (span_digits_app s) as E. rewrite H in E. simpl in E.
  apply (f_equal (@List.length N)) in E. rewrite length_app in E. lia.
Qed.

Lemma match_integer_shorter (s i r : text) :
  match_integer s = Some (i, r) -> (List.length r < List.length s)%nat.
Proof.
  unfold match_integer. intro H.
  destruct s as [|c s]; [discriminate|].
  destruct (c =? 45).
  - destruct s as [|c' s]; [discriminate|].
    destruct (c' =? 48); [injection H as <- <-; simpl; lia|].
    destruct (is_digit c'); [|discriminate].
    destruct (span_digits s) as [d r'] eqn:E. injection H as <- <-.
    apply span_digits_length in E. simpl. lia.
  - destruct (c =? 48); [injection H as <- <-; simpl; lia|].
    destruct (is_digit c); [|discriminate].
    destruct (span_digits s) as [d r'] eqn:E. injection H as <- <-.
    apply span_digits_length in E. simpl. lia.
Qed.

Lemma match_frac_length (s f r : text) :
  match_frac s = (f, r) -> (List.length r <= List.length s)%nat.
Proof.
  unfold match_frac. intro H. destruct s as [|c s]; [injection H as <- <-; lia|].
  destruct (c =? 46); [|injection H as <- <-; lia].
  destruct (span_digits s) as [d r'] eqn:E. apply span_digits_length in E.
  destruct d; injection H as <- <-; simpl; lia.
Qed.

Lemma match_exp_length (s e r : text) :
  match_exp s = (e, r) -> (List.length r <= List.length s)%nat.
Proof.
  unfold match_exp. intro H. destruct s as [|c s]; [injection H as <- <-; lia|].
  destruct ((c =? 101) || (c =? 69)); [|injection H as <- <-; lia].
  destruct s as [|x s'].
  - simpl in H. injection H as <- <-. simpl. lia.
  - destruct ((x =? 45) || (x =? 43)).
    + destruct (span_digits s') as [d r'] eqn:E. apply span_digits_length in E.
      destruct d; injection H as <- <-; simpl; lia.
    + destruct (span_digits (x :: s')) as [d r'] eqn:E.
      apply span_digits_length in E.
      destruct d; injection H as <- <-; simpl in *; lia.
Qed.

Lemma match_number_shorter (s : text) (v : json) (r : text) :
  match_number s = Some (v, r) -> (List.length r < List.length s)%nat.
Proof.
  unfold match_number. intro H.
  destruct (match_integer s) as [[i r1]|] eqn:Ei; [|discriminate].
  destruct (match_frac r1) as [f r2] eqn:Ef.
  destruct (match_exp r2) as [e r3] eqn:Ee.
  apply match_integer_shorter in Ei. apply match_frac_length in Ef.
  apply match_exp_length in Ee.
  destruct f, e; injection H as <- <-; lia.
Qed.

Lemma startswith_length (p s : text) :
  startswith p s = true -> (List.length p <= List.length s)%nat.
Proof.
  intro H. destruct (startswith_split _ _ H) as [s' ->].
  rewrite length_app. lia.
Qed.

Lemma scan_shorter (fuel : nat) :
  (forall s v r, scan_once fuel s = Scanned v r ->
                 (List.length r < List.length s)%nat)
  /\ (forall s l r, object_members fuel s = Scanned l r ->
                    (List.length r < List.length s)%nat)
  /\ (forall s l r, array_items fuel s = Scanned l r ->
                    (List.length r < List.length s)%nat).
Proof.
  induction fuel as [|fuel (IHv & IHo & IHa)];
    [repeat split; intros; discriminate|].
  repeat split.
  - intros s v r H. cbn [scan_once] in H.
    destruct s as [|c rest]; [discriminate|].
    destruct (c =? 34).
    { apply scan_map_inv in H as (a & H & _).
      apply scanstring_shorter in H. simpl. lia. }
    destruct (c =? 123).
    { pose proof (skip_ws_le rest) as Hw.
      destruct (skip_ws rest) as [|q rest1]; [discriminate|].
      destruct (q =? 125); [injection H as <- <-; simpl in *; lia|].
      destruct (q =? 34); [|discriminate].
      apply scan_map_inv in H as (a & H & _). apply IHo in H. simpl in *. lia. }
    destruct (c =? 91).
    { pose proof (skip_ws_le rest) as Hw.
      destruct (skip_ws rest) as [|q rest1]; [discriminate|].
      destruct (q =? 93); [injection H as <- <-; simpl in *; lia|].
      apply scan_map_inv in H as (a & H & _). apply IHa in H. simpl in *. lia. }
    destruct (startswith (lit "null") (c :: rest)) eqn:E1.
    { apply startswith_length in E1. injection H as <- <-.
      skipn_done. }
    destruct (startswith (lit "true") (c :: rest)) eqn:E2.
    { apply startswith_length in E2. injection H as <- <-.
      skipn_done. }
    destruct (startswith (lit "false") (c :: rest)) eqn:E3.
    { apply startswith_length in E3. injection H as <- <-.
      skipn_done. }
    destruct (match_number (c :: rest)) as [[v' r']|] eqn:En.
    { injection H as <- <-. now apply match_number_shorter in En. }
    destruct (startswith (lit "NaN") (c :: rest)) eqn:E4.
    { apply startswith_length in E4. injection H as <- <-.
      skipn_done. }
    destruct (startswith (lit "Infinity") (c :: rest)) eqn:E5.
    { apply startswith_length in E5. injection H as <- <-.
      skipn_done. }
    destruct (startswith (lit "-Infinity") (c :: rest)) eqn:E6; [|discriminate].
    apply startswith_length in E6. injection H as <- <-.
    skipn_done.
  - intros s l r H. cbn [object_members] in H.
    destruct (scanstring s) as [key rest| |] eqn:Ek; try discriminate.
    apply scanstring_shorter in Ek.
    pose proof (skip_ws_le rest) as Hw.
    destruct (skip_ws rest) as [|c rest1]; [discriminate|].
    destruct (c =? 58); [|discriminate].
    destruct (scan_once fuel (skip_ws rest1)) as [value rest2| |] eqn:Ev;
      try discriminate.
    apply IHv in Ev. pose proof (skip_ws_le rest1) as Hw1.
    pose proof (skip_ws_le rest2) as Hw2.
    destruct (skip_ws rest2) as [|d rest3]; [discriminate|].
    destruct (d =? 125); [injection H as <- <-; simpl in *; lia|].
    destruct (d =? 44); [|discriminate].
    pose proof (skip_ws_le rest3) as Hw3.
    destruct (skip_ws rest3) as [|q rest4]; [discriminate|].
    destruct (q =? 34); [|discriminate].
    apply scan_map_inv in H as (a & H & _). apply IHo in H. simpl in *. lia.
  - intros s l r H. cbn [array_items] in H.
    destruct (scan_once fuel s) as [value rest| |] eqn:Ev; try discriminate.
    apply IHv in Ev. pose proof (skip_ws_le rest) as Hw.
    destruct (skip_ws rest) as [|d rest1]; [discriminate|].
    destruct (d =? 93); [injection H as <- <-; simpl in *; lia|].
    destruct (d =? 44); [|discriminate].
    apply scan_map_inv in H as (a & H & _). apply IHa in H.
    pose proof (skip_ws_le rest1). simpl in *. lia.
Qed.

Lemma scan_fuel (fuel : nat) :
  (forall s, (2 * List.length s + 1 <= fuel)%nat -> scan_once fuel s <> OutOfFuel)
  /\ (forall s, (2 * List.length s + 2 <= fuel)%nat ->
                object_members fuel s <> OutOfFuel)
  /\ (forall s, (2 * List.length s + 2 <= fuel)%nat ->
                array_items fuel s <> OutOfFuel).
Proof.
  induction fuel as [|fuel (IHv & IHo & IHa)]; [repeat split; intros; lia|].
  destruct (scan_shorter fuel) as (Sv & So & Sa).
  repeat split.
  - intros s Hf H. cbn [scan_once] in H.
    destruct s as [|c rest]; [discriminate|].
    destruct (c =? 34).
    { apply scan_map_fuel in H. now apply scanstring_fuel in H. }
    destruct (c =? 123).
    { pose proof (skip_ws_le rest) as Hw.
      destruct (skip_ws rest) as [|q rest1]; [discriminate|].
      destruct (q =? 125); [discriminate|].
      destruct (q =? 34); [|discriminate].
      apply scan_map_fuel in H. apply IHo in H; [exact H|]. simpl in *. lia. }
    destruct (c =? 91).
    { pose proof (skip_ws_le rest) as Hw.
      destruct (skip_ws rest) as [|q rest1] eqn:Eq; [discriminate|].
      destruct (q =? 93); [discriminate|].
      apply scan_map_fuel in H. apply IHa in H; [exact H|]. simpl in *. lia. }
    scan_cases H; discriminate.
  - intros s Hf H. cbn [object_members] in H.
    destruct (scanstring s) as [key rest| |] eqn:Ek; try discriminate;
      [|now apply scanstring_fuel in Ek].
    apply scanstring_shorter in Ek.
    pose proof (skip_ws_le rest) as Hw.
    destruct (skip_ws rest) as [|c rest1]; [discriminate|].
    destruct (c =? 58); [|discriminate].
    pose proof (skip_ws_le rest1) as Hw1.
    destruct (scan_once fuel (skip_ws rest1)) as [value rest2| |] eqn:Ev;
      try discriminate.
    + apply Sv in Ev.
      pose proof (skip_ws_le rest2) as Hw2.
      destruct (skip_ws rest2) as [|d rest3]; [discriminate|].
      destruct (d =? 125); [discriminate|].
      destruct (d =? 44); [|discriminate].
      pose proof (skip_ws_le rest3) as Hw3.
      destruct (skip_ws rest3) as [|q rest4]; [discriminate|].
      destruct (q =? 34); [|discriminate].
      apply scan_map_fuel in H. apply IHo in H; [exact H|]. simpl in *. lia.
    + apply IHv in Ev; [exact Ev|]. simpl in *. lia.
  - intros s Hf H. cbn [array_items] in H.
    destruct (scan_once fuel s) as [value rest| |] eqn:Ev; try discriminate.
    + apply Sv in Ev. pose proof (skip_ws_le rest) as Hw.
      destruct (skip_ws rest) as [|d rest1]; [discriminate|].
      destruct (d =? 93); [discriminate|].
      destruct (d =? 44); [|discriminate].
      apply scan_map_fuel in H. pose proof (skip_ws_le rest1).
      apply IHa in H; [exact H|]. simpl in *. lia.
    + apply IHv in Ev; [exact Ev|]. lia.
Qed.

(** [json.loads] returns a value or a decode error on every text. *)
Lemma json_loads_fuel (s : text) : json_loads s <> OutOfFuel.
Proof.
  unfold json_loads. intro H.
  destruct (startswith [65279] s); [discriminate|].
  destruct (scan_once (3 * List.length s + 1) (skip_ws s)) as [v rest| |] eqn:E.
  - destruct (skip_ws rest); discriminate.
  - discriminate.
  - apply (proj1 (scan_fuel _)) in E; [exact E|].
    pose proof (skip_ws_le s). lia.
Qed.

Lemma json_loads_rest (s : text) (v : json) (r : text) :
  json_loads s = Scanned v r -> r = [].
Proof.
  unfold json_loads. intro H.
  destruct (startswith [65279] s); [discriminate|].
  destruct (scan_once _ _) as [v' rest| |]; try discriminate.
  destruct (skip_ws rest); [|discriminate]. now injection H as _ <-.
Qed.

(** * Runs *)

Lemma extract_text_with_pdfplumber_run (lib : libraries) (w : world)
  (data : list N) :
  temp_resume w = Some data ->
  extract_text_with_pdfplumber lib w =
    match pdfplumber_open lib data with
    | Raise e => (Ret None, w, [CallPdfplumber; St Warning (PdfplumberFailed e)])
    | Ret pages =>
        match join_pdfplumber_pages pages with
        | Raise e =>
            (Ret None, w, [CallPdfplumber; St Warning (PdfplumberFailed e)])
        | Ret t =>
            (Ret (if is_nil (strip t) then None else Some t), w, [CallPdfplumber])
        end
    end.
Proof.
  intro Ht. unfold extract_text_with_pdfplumber. run. rewrite Ht. cbn.
  destruct (pdfplumber_open lib data) as [pages|e]; cbn; [|reflexivity].
  destruct (join_pdfplumber_pages pages) as [t|e]; cbn; [|reflexivity].
  destruct (is_nil (strip t)); reflexivity.
Qed.

Lemma extract_text_with_fitz_run (lib : libraries) (w : world) (data : list N) :
  temp_resume w = Some data ->
  extract_text_with_fitz lib w =
    match fitz_open lib data with
    | Raise e => (Ret None, w, [CallFitz; St Warning (FitzFailed e)])
    | Ret pages =>
        match join_fitz_pages pages with
        | Raise e => (Ret None, w, [CallFitz; St Warning (FitzFailed e)])
        | Ret t => (Ret (if is_nil (strip t) then None else Some t), w, [CallFitz])
        end
    end.
Proof.
  intro Ht. unfold extract_text_with_fitz. run. rewrite Ht. cbn.
  destruct (fitz_open lib data) as [pages|e]; cbn; [|reflexivity].
  destruct (join_fitz_pages pages) as [t|e]; cbn; [|reflexivity].
  destruct (is_nil (strip t)); reflexivity.
Qed.

Lemma strip_nonempty (t : text) : is_nil (strip t) = false -> is_nil t = false.
Proof. destruct t; [discriminate|reflexivity]. Qed.

Lemma is_nil_true {A : Type} (l : list A) : is_nil l = true <-> l = [].
Proof. destruct l; simpl; split; intro H; try discriminate; reflexivity. Qed.

Lemma pdfplumber_text_none (lib : libraries) (data : list N) :
  pdfplumber_text lib data = None <-> pdfplumber_fails lib data.
Proof.
  unfold pdfplumber_text, pdfplumber_fails.
  destruct (pdfplumber_open lib data) as [pages|e]; [|tauto].
  destruct (join_pdfplumber_pages pages) as [t|e]; [|tauto].
  destruct (strip t); simpl; split; intro H; try discriminate; reflexivity.
Qed.

Lemma fitz_text_none (lib : libraries) (data : list N) :
  fitz_text lib data = None <-> fitz_fails lib data.
Proof.
  unfold fitz_text, fitz_fails.
  destruct (fitz_open lib data) as [pages|e]; [|tauto].
  destruct (join_fitz_pages pages) as [t|e]; [|tauto].
  destruct (strip t); simpl; split; intro H; try discriminate; reflexivity.
Qed.

Lemma pdfplumber_text_truthy (lib : libraries) (data : list N) (t : text) :
  pdfplumber_text lib data = Some t -> is_nil t = false.
Proof.
  unfold pdfplumber_text.
  destruct (pdfplumber_open lib data) as [pages|e]; [|discriminate].
  destruct (join_pdfplumber_pages pages) as [t'|e]; [|discriminate].
  destruct (is_nil (strip t')) eqn:E; [discriminate|].
  intro H. injection H as <-. now apply strip_nonempty.
Qed.

Lemma fitz_text_truthy (lib : libraries) (data : list N) (t : text) :
  fitz_text lib data = Some t -> is_nil t = false.
Proof.
  unfold fitz_text.
  destruct (fitz_open lib data) as [pages|e]; [|discriminate].
  destruct (join_fitz_pages pages) as [t'|e]; [|discriminate].
  destruct (is_nil (strip t')) eqn:E; [discriminate|].
  intro H. injection H as <-. now apply strip_nonempty.
Qed.

(** The text extraction of both scripts: its result, and that it leaves the
    files and the collection alone. *)
Lemma extract_text_run (lib : libraries) (w : world) (data : list N) :
  temp_resume w = Some data ->
  exists tr,
    extract_text lib w =
      (Ret (match pdfplumber_text lib data with
            | Some t => Some t
            | None => fitz_text lib data
            end), w, CallPdfplumber :: tr)
    /\ (In CallFitz tr <-> pdfplumber_text lib data = None)
    /\ (forall p, ~ In (CallGroq p) tr)
    /\ ~ In (St Error NoTextExtracted) tr
    /\ ~ In CallPdfplumber tr.
Proof.
  intro Ht. unfold extract_text, bind.
  rewrite (extract_text_with_pdfplumber_run lib w data Ht).
  unfold pdfplumber_text.
  destruct (pdfplumber_open lib data) as [pages|e].
  - destruct (join_pdfplumber_pages pages) as [t|e].
    + destruct (is_nil (strip t)) eqn:Es.
      * cbn. rewrite (extract_text_with_fitz_run lib w data Ht).
        unfold fitz_text.
        destruct (fitz_open lib data) as [fp|e];
          [destruct (join_fitz_pages fp) as [ft|e]|];
          eexists; (split; [reflexivity|]); cbn; repeat split; intros;
          intuition (discriminate || auto).
      * cbn. rewrite (strip_nonempty _ Es). cbn.
        eexists; (split; [reflexivity|]); cbn; repeat split; intros;
          intuition (discriminate || auto).
    + cbn. rewrite (extract_text_with_fitz_run lib w data Ht).
      unfold fitz_text.
      destruct (fitz_open lib data) as [fp|e'];
        [destruct (join_fitz_pages fp) as [ft|e']|];
        eexists; (split; [reflexivity|]); cbn; repeat split; intros;
        intuition (discriminate || auto).
  - cbn. rewrite (extract_text_with_fitz_run lib w data Ht).
    unfold fitz_text.
    destruct (fitz_open lib data) as [fp|e'];
      [destruct (join_fitz_pages fp) as [ft|e']|];
      eexists; (split; [reflexivity|]); cbn; repeat split; intros;
      intuition (discriminate || auto).
Qed.

Lemma extract_entities_with_groq_run (lib : libraries) (t : text) (w : world) :
  extract_entities_with_groq lib t w =
    match groq_create lib (user_content t) with
    | Ret r => (Ret r, w, [CallGroq (user_content t)])
    | Raise e =>
        (Ret None, w, [CallGroq (user_content t); St Error (GroqCallFailed e)])
    end.
Proof.
  unfold extract_entities_with_groq. run.
  destruct (groq_create lib (user_content t)); reflexivity.
Qed.

Lemma convert_run (s : text) (w : world) :
  convert_llm_output_to_dict (Some s) w =
    match json_loads (strip (remove_fences s)) with
    | Scanned v _ => (Ret (Some v), w, [])
    | Malformed d => (Ret None, w, [St Error (ErrorDecodingJSON d)])
    | OutOfFuel => (Raise RecursionError, w, [])
    end.
Proof.
  unfold convert_llm_output_to_dict, loads. run.
  destruct (json_loads (strip (remove_fences s))); reflexivity.
Qed.

Lemma convert_none (w : world) :
  convert_llm_output_to_dict None w = (Raise TypeError, w, []).
Proof. reflexivity. Qed.

Lemma save_to_json_run (lib : libraries) (v : json) (w : world) :
  save_to_json lib v w =
    match archive_items w with
    | Some items =>
        (Ret tt,
         with_archive w (json_dumps (float_repr lib) (Some 4%nat)
                                    (JArr (items ++ [v]))),
         [St Success SavedToFile])
    | None => (Raise AttributeError, w, [])
    end.
Proof.
  unfold save_to_json, archive_items, loads. run.
  destruct (archive w) as [content|]; cbn; [|reflexivity].
  pose proof (json_loads_fuel content) as Hf.
  destruct (json_loads content) as [r rest|d|]; cbn;
    [destruct r; reflexivity|reflexivity|contradiction].
Qed.

Lemma app_process_run (lib : libraries) (t : text) (w : world) :
  app_process lib t w =
    match groq_create lib (user_content t) with
    | Raise e =>
        (Raise TypeError, w,
         [CallGroq (user_content t); St Error (GroqCallFailed e)])
    | Ret None => (Raise TypeError, w, [CallGroq (user_content t)])
    | Ret (Some s) =>
        match json_loads (strip (remove_fences s)) with
        | Malformed d =>
            (Ret tt, w,
             [CallGroq (user_content t); St Error (ErrorDecodingJSON d)])
        | Scanned v _ =>
            if truthy v then
              match archive_items w with
              | Some items =>
                  (Ret tt,
                   with_archive w (json_dumps (float_repr lib) (Some 4%nat)
                                              (JArr (items ++ [v]))),
                   [CallGroq (user_content t);
                    St Success ExtractedSuccessfully; StJson v;
                    St Success SavedToFile;
                    StDownloadButton
                      (json_dumps (float_repr lib) (Some 4%nat) v)])
              | None =>
                  (Raise AttributeError, w,
                   [CallGroq (user_content t);
                    St Success ExtractedSuccessfully; StJson v])
              end
            else (Ret tt, w, [CallGroq (user_content t)])
        | OutOfFuel => (Raise RecursionError, w, [CallGroq (user_content t)])
        end
    end.
Proof.
  unfold app_process, bind at 1. rewrite extract_entities_with_groq_run.
  destruct (groq_create lib (user_content t)) as [[s|]|e].
  - unfold bind at 1. rewrite convert_run.
    destruct (json_loads (strip (remove_fences s))) as [v rest|d|];
      [|reflexivity|reflexivity].
    destruct (truthy v); [|reflexivity].
    unfold bind at 1. unfold st, emit at 1. unfold bind at 1.
    unfold emit at 1. unfold bind at 1.
    rewrite save_to_json_run.
    destruct (archive_items w); reflexivity.
  - unfold bind at 1. rewrite convert_none. reflexivity.
  - unfold bind at 1. rewrite convert_none. reflexivity.
Qed.

Lemma collection_add_run (lib : libraries) (e : entry) (w : world) :
  collection_add lib e w =
    match validate_id lib (entry_id e) with
    | Raise err => (Raise err, w, [])
    | Ret _ =>
        if str_in (entry_id e) (List.map entry_id (collection w))
        then if add_raises_on_duplicate lib
             then (Raise DuplicateIDError, w, [])
             else (Ret tt, w, [])
        else (Ret tt, with_collection w (collection w ++ [e]), [])
    end.
Proof.
  unfold collection_add. run.
  destruct (validate_id lib (entry_id e)); [|reflexivity].
  destruct (str_in _ _); [destruct (add_raises_on_duplicate lib)|]; reflexivity.
Qed.

Lemma save_to_chromadb_run (lib : libraries) (data : text) (w : world) :
  save_to_chromadb lib data w =
    if is_nil data then (Ret tt, w, [St Error NoData])
    else
      match json_loads (strip (remove_fences data)) with
      | Malformed d =>
          (Ret tt, w,
           [St Error (ErrorDecodingJSON d); St Error FailedToParseOutput])
      | Scanned v _ =>
          if truthy v then
            match v with
            | JObj d =>
                match name_or_unknown d with
                | JStr s =>
                    if str_in (candidate_key (unicode_lower lib) s)
                              (peek_ids (collection w))
                    then (Ret tt, w,
                          [St Warning
                             (AlreadyExists
                                (candidate_key (unicode_lower lib) s))])
                    else
                      match validate_id lib
                              (candidate_key (unicode_lower lib) s) with
                      | Raise err =>
                          (Ret tt, w, [St Error (ErrorSavingToChromaDB err)])
                      | Ret _ =>
                          if str_in (candidate_key (unicode_lower lib) s)
                                    (List.map entry_id (collection w))
                          then if add_raises_on_duplicate lib
                               then (Ret tt, w,
                                     [St Error
                                        (ErrorSavingToChromaDB DuplicateIDError)])
                               else (Ret tt, w,
                                     [St Write
                                        (SavedToChromaDB
                                           (candidate_key
                                              (unicode_lower lib) s))])
                          else
                            (Ret tt,
                             with_collection w
                               (collection w ++
                                [{| entry_id :=
                                      candidate_key (unicode_lower lib) s;
                                    entry_document :=
                                      json_dumps (float_repr lib) None v;
                                    entry_name := s |}]),
                             [St Write
                                (SavedToChromaDB
                                   (candidate_key (unicode_lower lib) s))])
                      end
                | _ =>
                    (Ret tt, w, [St Error (ErrorSavingToChromaDB AttributeError)])
                end
            | _ => (Ret tt, w, [St Error (ErrorSavingToChromaDB AttributeError)])
            end
          else (Ret tt, w, [St Error FailedToParseOutput])
      | OutOfFuel =>
          (Ret tt, w, [St Error (ErrorSavingToChromaDB RecursionError)])
      end.
Proof.
  unfold save_to_chromadb, try_except.
  destruct (is_nil data); [reflexivity|].
  unfold bind at 1. rewrite convert_run.
  destruct (json_loads (strip (remove_fences data))) as [v rest|d|];
    [|reflexivity|reflexivity].
  destruct (truthy v); [|reflexivity].
  destruct v as [ | | | | |items|d]; try reflexivity.
  unfold get_name, name_or_unknown.
  destruct (dict_get (lit "name") d) as [[ | | | |s| | ]|]; try reflexivity.
  - unfold bind at 1. cbn [ret]. unfold bind at 1. cbn [get_world].
    cbv zeta. destruct (str_in _ (peek_ids _)); [reflexivity|].
    unfold bind at 1. rewrite collection_add_run. cbn [entry_id].
    destruct (validate_id lib _); [|reflexivity].
    destruct (str_in _ (List.map _ _));
      [destruct (add_raises_on_duplicate lib)|]; reflexivity.
  - unfold bind at 1. cbn [ret]. unfold bind at 1. cbn [get_world].
    cbv zeta. destruct (str_in _ (peek_ids _)); [reflexivity|].
    unfold bind at 1. rewrite collection_add_run. cbn [entry_id].
    destruct (validate_id lib _); [|reflexivity].
    destruct (str_in _ (List.map _ _));
      [destruct (add_raises_on_duplicate lib)|]; reflexivity.
Qed.

Lemma save_to_chromadb_returns (lib : libraries) (data : text) (w : world) :
  outcome_of (save_to_chromadb lib data w) = Ret tt
  /\ temp_resume (world_of (save_to_chromadb lib data w)) = temp_resume w
  /\ archive (world_of (save_to_chromadb lib data w)) = archive w.
Proof.
  rewrite save_to_chromadb_run.
  repeat match goal with
         | |- context [if ?b then _ else _] => destruct b
         | |- context [match ?x with _ => _ end] => destruct x
         end; repeat split; reflexivity.
Qed.

Lemma app2_process_run (lib : libraries) (t : text) (w : world) :
  app2_process lib t w =
    match groq_create lib (user_content t) with
    | Raise e =>
        (Ret tt, w, [CallGroq (user_content t); St Error (GroqCallFailed e)])
    | Ret (Some (c :: s)) =>
        (Ret tt, world_of (save_to_chromadb lib (c :: s) w),
         [CallGroq (user_content t); St Success ExtractedSuccessfully]
         ++ trace_of (save_to_chromadb lib (c :: s) w)
         ++ [StWriteQuery;
             StDownloadButton
               (json_dumps (float_repr lib) (Some 4%nat) (JStr (c :: s)))])
    | Ret _ => (Ret tt, w, [CallGroq (user_content t)])
    end.
Proof.
  unfold app2_process, bind at 1. rewrite extract_entities_with_groq_run.
  destruct (groq_create lib (user_content t)) as [[[|c s]|]|e]; try reflexivity.
  unfold bind at 1. unfold st, emit at 1. unfold bind at 1.
  pose proof (save_to_chromadb_returns lib (c :: s) w) as (Ho & _).
  unfold outcome_of, world_of, trace_of in *.
  destruct (save_to_chromadb lib (c :: s) w) as [[o w'] tr]. cbn in Ho. subst o.
  cbn. reflexivity.
Qed.

Lemma extracted_text_truthy (lib : libraries) (data : list N) :
  match extracted_text lib data with
  | Some [] => False
  | _ => True
  end.
Proof.
  unfold extracted_text.
  destruct (pdfplumber_text lib data) as [t|] eqn:Ea.
  - apply pdfplumber_text_truthy in Ea. now destruct t.
  - destruct (fitz_text lib data) as [t|] eqn:Eb; [|exact I].
    apply fitz_text_truthy in Eb. now destruct t.
Qed.

(** A script from the upload on, given what it does with the text. *)
Lemma script_run (lib : libraries) (data : list N) (w : world)
  (process : libraries -> text -> M unit) (script : M unit) :
  script =
    (st Info FileUploaded ;;;
     write_temp data ;;;
     resume_text <- extract_text lib ;;
     match resume_text with
     | Some (c :: t) => process lib (c :: t)
     | _ => st Error NoTextExtracted
     end ;;;
     os_remove_temp) ->
  exists tr,
    (In CallFitz tr <-> pdfplumber_text lib data = None)
    /\ (forall p, ~ In (CallGroq p) tr)
    /\ ~ In (St Error NoTextExtracted) tr
    /\ ~ In CallPdfplumber tr
    /\ script w =
       match extracted_text lib data with
       | Some t =>
           match process lib t (staged w data) with
           | (Ret _, w', tr') =>
               (match temp_resume w' with
                | Some _ => Ret tt
                | None => Raise FileNotFoundError
                end,
                match temp_resume w' with
                | Some _ => unstaged w'
                | None => w'
                end,
                St Info FileUploaded :: CallPdfplumber :: tr ++ tr')
           | (Raise e, w', tr') =>
               (Raise e, w', St Info FileUploaded :: CallPdfplumber :: tr ++ tr')
           end
       | None =>
           (Ret tt, unstaged (staged w data),
            St Info FileUploaded :: CallPdfplumber :: tr
            ++ [St Error NoTextExtracted])
       end.
Proof.
  intros ->.
  destruct (extract_text_run lib (staged w data) data eq_refl)
    as (tr & He & Hf & Hg & Hn & Hp).
  exists tr. repeat (split; [assumption|]).
  unfold bind at 1. unfold st, emit at 1. unfold bind at 1.
  unfold write_temp at 1. unfold bind at 1. cbn [get_world put_world].
  unfold bind at 1. unfold bind at 1. fold (staged w data). rewrite He.
  fold (extracted_text lib data).
  pose proof (extracted_text_truthy lib data) as Ht.
  destruct (extracted_text lib data) as [[|c t]|]; [contradiction| |].
  - destruct (process lib (c :: t) (staged w data)) as [[[[]|e] w'] tr'].
    + unfold os_remove_temp, bind, get_world, put_world, raise.
      destruct (temp_resume w'); cbn; rewrite ?app_nil_r; reflexivity.
    + reflexivity.
  - cbn. reflexivity.
Qed.

(** * The fallback policy of the text extraction *)

Lemma app_process_events (lib : libraries) (t : text) (w : world) :
  ~ In CallFitz (trace_of (app_process lib t w))
  /\ ~ In (St Error NoTextExtracted) (trace_of (app_process lib t w)).
Proof.
  rewrite app_process_run.
  repeat match goal with
         | |- context [if ?b then _ else _] => destruct b
         | |- context [match ?x with _ => _ end] => destruct x
         end; cbn; intuition discriminate.
Qed.

Lemma save_to_chromadb_events (lib : libraries) (data : text) (w : world) :
  ~ In CallFitz (trace_of (save_to_chromadb lib data w))
  /\ ~ In (St Error NoTextExtracted) (trace_of (save_to_chromadb lib data w)).
Proof.
  rewrite save_to_chromadb_run.
  repeat match goal with
         | |- context [if ?b then _ else _] => destruct b
         | |- context [match ?x with _ => _ end] => destruct x
         end; cbn; intuition discriminate.
Qed.

Lemma app2_process_events (lib : libraries) (t : text) (w : world) :
  ~ In CallFitz (trace_of (app2_process lib t w))
  /\ ~ In (St Error NoTextExtracted) (trace_of (app2_process lib t w)).
Proof.
  rewrite app2_process_run.
  destruct (groq_create lib (user_content t)) as [[[|c s]|]|e];
    try (cbn; intuition discriminate).
  destruct (save_to_chromadb_events lib (c :: s) w) as [H1 H2].
  unfold trace_of at 1 3. cbn [snd].
  rewrite !in_app_iff. cbn [In].
  split; intro H; intuition discriminate.
Qed.

Lemma policy_of_script (lib : libraries) (data : list N) (w : world)
  (process : libraries -> text -> M unit) (script : M unit) :
  script =
    (st Info FileUploaded ;;;
     write_temp data ;;;
     resume_text <- extract_text lib ;;
     match resume_text with
     | Some (c :: t) => process lib (c :: t)
     | _ => st Error NoTextExtracted
     end ;;;
     os_remove_temp) ->
  (forall t w', ~ In CallFitz (trace_of (process lib t w'))) ->
  fallback_policy_on lib data (script w).
Proof.
  intros Hs Hp. destruct (script_run lib data w process script Hs)
    as (tr & Hf & Hg & Hn & Hq & Hr).
  unfold fallback_policy_on. rewrite Hr. clear Hr Hs.
  rewrite <- pdfplumber_text_none, <- fitz_text_none.
  unfold extracted_text.
  destruct (pdfplumber_text lib data) as [ta|] eqn:Ea.
  - specialize (Hp ta (staged w data)).
    destruct (process lib ta (staged w data)) as [[[[]|e] w'] tr'];
      unfold trace_of in *; cbn [snd] in *;
      (split; [eexists; reflexivity|]);
      (split; [|intro; discriminate]);
      (split; [|intro; discriminate]);
      intros [H|[H|H]]; try discriminate;
      apply in_app_or in H as [H|H]; [apply Hf in H; discriminate|tauto
                                     |apply Hf in H; discriminate|tauto].
  - destruct (fitz_text lib data) as [tb|] eqn:Eb.
    + specialize (Hp tb (staged w data)).
      destruct (process lib tb (staged w data)) as [[[[]|e] w'] tr'];
        unfold trace_of in *; cbn [snd] in *;
        (split; [eexists; reflexivity|]);
        (split; [|intros _ H; discriminate]);
        (split; [reflexivity|]); intros _;
        right; right; apply in_or_app; left; now apply Hf.
    + unfold trace_of; cbn [snd].
      split; [eexists; reflexivity|].
      split; [split; [reflexivity|]; intros _;
              right; right; apply in_or_app; left; now apply Hf|].
      intros _ _. split.
      * right. right. apply in_or_app. right. now left.
      * intros p [H|[H|H]]; try discriminate.
        apply in_app_or in H as [H|[H|[]]]; [now apply (Hg p)|discriminate].
Qed.

(** C2.  On every upload, in both scripts: the first library call is
    pdfplumber (strategy A); fitz (strategy B) is called if and only if A
    failed, that is raised or returned an empty or all-whitespace text; and
    when both fail the run reports that no text was extracted and makes no
    model call. *)
Theorem fallback_policy (lib : libraries) (data : list N) (w : world) :
  fallback_policy_on lib data (app_script lib (Some data) w)
  /\ fallback_policy_on lib data (app2_script lib (Some data) w).
Proof.
  split.
  - apply (policy_of_script lib data w app_process); [reflexivity|].
    intros t w'. apply app_process_events.
  - apply (policy_of_script lib data w app2_process); [reflexivity|].
    intros t w'. apply app2_process_events.
Qed.

(** * Pages that yield no text, pages that raise *)

Lemma join_pdfplumber_pages_texts (texts : list (option text)) :
  join_pdfplumber_pages (List.map Ret texts)
  = Ret (List.concat (List.map text_or_empty texts)).
Proof.
  induction texts as [|t texts IH]; [reflexivity|].
  cbn [List.map join_pdfplumber_pages List.concat]. now rewrite IH.
Qed.

Lemma join_pdfplumber_pages_raise (before : list (option text)) (e : exn)
  (after : list (outcome (option text))) :
  join_pdfplumber_pages (List.map Ret before ++ Raise e :: after) = Raise e.
Proof.
  induction before as [|t before IH]; [reflexivity|].
  cbn [List.map app join_pdfplumber_pages]. now rewrite IH.
Qed.

Lemma join_fitz_pages_texts (texts : list text) :
  join_fitz_pages (List.map Ret texts) = Ret (List.concat texts).
Proof.
  induction texts as [|t texts IH]; [reflexivity|].
  cbn [List.map join_fitz_pages List.concat]. now rewrite IH.
Qed.

Lemma join_fitz_pages_raise (before : list text) (e : exn)
  (after : list (outcome text)) :
  join_fitz_pages (List.map Ret before ++ Raise e :: after) = Raise e.
Proof.
  induction before as [|t before IH]; [reflexivity|].
  cbn [List.map app join_fitz_pages]. now rewrite IH.
Qed.

(** C7, as the code has it.  With the upload staged: when no page raises,
    pdfplumber returns the page texts joined in page order, a page without
    text ([None]) counting as the empty string, and fitz the page texts
    joined in page order (a blank result being a failure in both); a page
    that raises ends the strategy, which warns and returns nothing. *)
Theorem page_resilience (lib : libraries) (w : world) (data : list N)
  (Hstaged : temp_resume w = Some data) :
  (forall texts,
      pdfplumber_open lib data = Ret (List.map Ret texts) ->
      extract_text_with_pdfplumber lib w =
        (Ret (if is_nil (strip (List.concat (List.map text_or_empty texts)))
              then None
              else Some (List.concat (List.map text_or_empty texts))),
         w, [CallPdfplumber]))
  /\ (forall texts,
         fitz_open lib data = Ret (List.map Ret texts) ->
         extract_text_with_fitz lib w =
           (Ret (if is_nil (strip (List.concat texts)) then None
                 else Some (List.concat texts)),
            w, [CallFitz]))
  /\ (forall before e after,
         pdfplumber_open lib data = Ret (List.map Ret before ++ Raise e :: after) ->
         extract_text_with_pdfplumber lib w =
           (Ret None, w, [CallPdfplumber; St Warning (PdfplumberFailed e)]))
  /\ (forall before e after,
         fitz_open lib data = Ret (List.map Ret before ++ Raise e :: after) ->
         extract_text_with_fitz lib w =
           (Ret None, w, [CallFitz; St Warning (FitzFailed e)])).
Proof.
  repeat split.
  - intros texts H. rewrite (extract_text_with_pdfplumber_run _ _ _ Hstaged), H.
    now rewrite join_pdfplumber_pages_texts.
  - intros texts H. rewrite (extract_text_with_fitz_run _ _ _ Hstaged), H.
    now rewrite join_fitz_pages_texts.
  - intros before e after H.
    rewrite (extract_text_with_pdfplumber_run _ _ _ Hstaged), H.
    now rewrite join_pdfplumber_pages_raise.
  - intros before e after H.
    rewrite (extract_text_with_fitz_run _ _ _ Hstaged), H.
    now rewrite join_fitz_pages_raise.
Qed.

Lemma page_resilience_witness :
  temp_resume (staged empty_world sample_pdf) = Some sample_pdf
  /\ extract_text_with_pdfplumber
       (sample_lib [Ret None; Ret (Some (lit "abc"))] (Ret None) false)
       (staged empty_world sample_pdf)
     = (Ret (Some (lit "abc")), staged empty_world sample_pdf, [CallPdfplumber]).
Proof.
  split; [reflexivity|].
  exact (proj1 (page_resilience
                  (sample_lib [Ret None; Ret (Some (lit "abc"))] (Ret None) false)
                  (staged empty_world sample_pdf) sample_pdf eq_refl)
               [None; Some (lit "abc")] eq_refl).
Defined.

(** C7 as stated fails: a first page that raises ends either strategy, and
    the text of the second page is never returned. *)
Lemma page_failure_aborts_strategy :
  extract_text_with_pdfplumber
    (sample_lib [Raise (LibraryError 1); Ret (Some (lit "abc"))] (Ret None) false)
    (staged empty_world sample_pdf)
  = (Ret None, staged empty_world sample_pdf,
     [CallPdfplumber; St Warning (PdfplumberFailed (LibraryError 1))])
  /\ extract_text_with_fitz
       (fitz_lib [Raise (LibraryError 1); Ret (lit "abc")])
       (staged empty_world sample_pdf)
     = (Ret None, staged empty_world sample_pdf,
        [CallFitz; St Warning (FitzFailed (LibraryError 1))]).
Proof. split; reflexivity. Qed.

(** * The staged upload *)

(** [app2.py] removes the staged file on every run: nothing between the
    staging and the removal raises. *)
Lemma app2_script_removes_staged (lib : libraries) (data : list N) (w : world) :
  outcome_of (app2_script lib (Some data) w) = Ret tt
  /\ temp_resume (world_of (app2_script lib (Some data) w)) = None.
Proof.
  destruct (script_run lib data w app2_process (app2_script lib (Some data))
              eq_refl) as (tr & _ & _ & _ & _ & Hr).
  rewrite Hr. clear Hr.
  destruct (extracted_text lib data) as [t|]; [|split; reflexivity].
  rewrite app2_process_run.
  destruct (groq_create lib (user_content t)) as [[[|c s]|]|e];
    try (split; reflexivity).
  destruct (save_to_chromadb_returns lib (c :: s) (staged w data))
    as (_ & Ht & _).
  cbn [temp_resume staged] in Ht. rewrite Ht. split; reflexivity.
Qed.

(** [app.py] without a model answer (the call raised, or the content is
    [None]): the normaliser raises [TypeError], nothing catches it, and the
    staged file stays. *)
Lemma app_script_without_answer (lib : libraries) (data : list N) (w : world)
  (t : text) :
  extracted_text lib data = Some t ->
  (forall s, groq_create lib (user_content t) <> Ret (Some s)) ->
  outcome_of (app_script lib (Some data) w) = Raise TypeError
  /\ world_of (app_script lib (Some data) w) = staged w data.
Proof.
  intros Ht Hg.
  destruct (script_run lib data w app_process (app_script lib (Some data))
              eq_refl) as (tr & _ & _ & _ & _ & Hr).
  rewrite Hr, Ht, app_process_run. clear Hr.
  destruct (groq_create lib (user_content t)) as [[s|]|e];
    [now destruct (Hg s)| |]; split; reflexivity.
Qed.

(** C9 fails in [app.py].  The run on an upload with text whose model call
    raises: the client's error is reported, the normaliser then raises
    [TypeError] on the missing answer, the script ends there and
    [temp_resume.pdf] is still on disk. *)
Theorem staged_file_left_behind :
  app_script (sample_lib one_page (Raise (LibraryError 503)) false)
             (Some sample_pdf) empty_world
  = (Raise TypeError,
     {| temp_resume := Some sample_pdf; archive := None; collection := [] |},
     [St Info FileUploaded; CallPdfplumber;
      CallGroq (user_content (lit "John Doe"));
      St Error (GroqCallFailed (LibraryError 503))]).
Proof. reflexivity. Qed.

(** * The normaliser's answers *)

(** C10.  A model answer that normalises to the empty object: [app.py]
    shows no success and writes nothing, the run going on as if there were
    no structured data; the sink of [app2.py] reports that it could not
    parse the output and inserts nothing. *)
Theorem empty_object_is_absent (lib : libraries) (s : text) (w : world)
  (Hempty : json_loads (strip (remove_fences s)) = Scanned (JObj []) []) :
  (forall t, groq_create lib (user_content t) = Ret (Some s) ->
             app_process lib t w = (Ret tt, w, [CallGroq (user_content t)]))
  /\ save_to_chromadb lib s w = (Ret tt, w, [St Error FailedToParseOutput]).
Proof.
  split.
  - intros t Hg. now rewrite app_process_run, Hg, Hempty.
  - rewrite save_to_chromadb_run, Hempty.
    destruct s; [discriminate Hempty|reflexivity].
Qed.

Lemma empty_object_is_absent_witness :
  json_loads (strip (remove_fences (lit "{}"))) = Scanned (JObj []) []
  /\ save_to_chromadb (sample_lib one_page (Ret (Some (lit "{}"))) false)
                      (lit "{}") empty_world
     = (Ret tt, empty_world, [St Error FailedToParseOutput]).
Proof.
  split; [reflexivity|].
  exact (proj2 (empty_object_is_absent
                  (sample_lib one_page (Ret (Some (lit "{}"))) false)
                  (lit "{}") empty_world eq_refl)).
Defined.

(** The normaliser never raises on a text: it returns the parsed value or
    reports the decode error and returns nothing. *)
Lemma convert_returns (s : text) (w : world) :
  exists r tr, convert_llm_output_to_dict (Some s) w = (Ret r, w, tr).
Proof.
  rewrite convert_run. pose proof (json_loads_fuel (strip (remove_fences s))).
  destruct (json_loads (strip (remove_fences s))) as [v rest|d|];
    [eexists; eexists; reflexivity..|contradiction].
Qed.




(** * Whitespace around an answer *)

(** A marker without whitespace starts a text followed by whitespace only
    if it starts the text. *)
Lemma startswith_pad (p r post : text) :
  forallb (fun x => negb (is_space x)) p = true ->
  forallb is_space post = true ->
  startswith p (r ++ post) = startswith p r.
Proof.
  intros Hp Hpost. revert r. induction p as [|a p IH]; intro r.
  - destruct r, post; reflexivity.
  - cbn [forallb] in Hp. apply andb_true_iff in Hp as [Ha Hp].
    destruct r as [|b r].
    + cbn [app]. destruct post as [|c post]; [reflexivity|].
      cbn [startswith forallb] in *. apply andb_true_iff in Hpost as [Hc _].
      destruct (N.eqb_spec a c) as [->|]; [|reflexivity].
      rewrite Hc in Ha. discriminate Ha.
    + cbn [app startswith]. now rewrite IH.
Qed.

Lemma remove_fences_pad_right (s post : text) :
  forallb is_space post = true ->
  remove_fences (s ++ post) = remove_fences s ++ post.
Proof.
  intro Hpost. unfold remove_fences.
  assert (Hpad : sub_fences 0 post = post).
  { induction post as [|c post IH]; [reflexivity|].
    cbn [forallb] in Hpost. apply andb_true_iff in Hpost as [Hc Hpost].
    cbn [sub_fences].
    replace (startswith fence_json (c :: post)) with false.
    - replace (startswith fence (c :: post)) with false.
      + now rewrite IH.
      + unfold fence. cbn [startswith].
        destruct (N.eqb_spec 96 c) as [<-|]; [discriminate Hc|reflexivity].
    - unfold fence_json, fence. cbn [app startswith].
      destruct (N.eqb_spec 96 c) as [<-|]; [discriminate Hc|reflexivity]. }
  assert (H : forall n k x, (List.length x <= n)%nat ->
                            (k <= List.length x)%nat ->
                            sub_fences k (x ++ post) = sub_fences k x ++ post).
  { clear s. induction n as [|n IH]; intros k s Hn Hk.
    - destruct s; [|cbn in Hn; lia]. cbn in Hk.
      assert (k = 0%nat) by lia. subst k. cbn [app sub_fences]. exact Hpad.
    - destruct s as [|c s]; [cbn in Hk; assert (k = 0%nat) by lia; subst k;
                             cbn [app sub_fences]; exact Hpad|].
      cbn [List.length] in Hn, Hk. cbn [app sub_fences].
      destruct k as [|k]; [|apply IH; lia].
      change (c :: s ++ post) with ((c :: s) ++ post).
      rewrite !(startswith_pad _ (c :: s) post) by (assumption || reflexivity).
      destruct (startswith fence_json (c :: s)) eqn:Ej.
      + apply startswith_length in Ej. cbn in Ej. apply IH; lia.
      + destruct (startswith fence (c :: s)) eqn:Ef.
        * apply startswith_length in Ef. cbn in Ef. apply IH; lia.
        * cbn [app]. f_equal. apply IH; lia. }
  apply (H (List.length s)); lia.
Qed.

Lemma remove_fences_pad_left (pre s : text) :
  forallb is_space pre = true ->
  remove_fences (pre ++ s) = pre ++ remove_fences s.
Proof.
  induction pre as [|c pre IH]; intro H; [reflexivity|].
  cbn [forallb] in H. apply andb_true_iff in H as [Hc H].
  cbn [app]. rewrite remove_fences_keep; [now rewrite IH|].
  unfold fence. cbn [startswith].
  destruct (N.eqb_spec 96 c) as [<-|]; [discriminate Hc|reflexivity].
Qed.

Lemma lstrip_pad (pre s : text) :
  forallb is_space pre = true -> lstrip (pre ++ s) = lstrip s.
Proof.
  induction pre as [|c pre IH]; intro H; [reflexivity|].
  cbn [forallb] in H. apply andb_true_iff in H as [Hc H].
  cbn [app lstrip]. rewrite Hc. now apply IH.
Qed.

Lemma rstrip_pad (s post : text) :
  forallb is_space post = true -> rstrip (s ++ post) = rstrip s.
Proof.
  intro H. unfold rstrip. rewrite rev_app_distr, lstrip_pad; [reflexivity|].
  rewrite forallb_forall in *. intros c Hc. apply H. now apply in_rev.
Qed.

Lemma strip_pad (pre s post : text) :
  forallb is_space pre = true -> forallb is_space post = true ->
  strip (pre ++ s ++ post) = strip s.
Proof.
  intros Hpre Hpost. unfold strip. rewrite lstrip_pad by exact Hpre.
  induction s as [|c s IH].
  - cbn [app]. rewrite <- (app_nil_r post), lstrip_pad by exact Hpost.
    reflexivity.
  - cbn [app lstrip]. destruct (is_space c); [exact IH|].
    change (c :: s ++ post) with ((c :: s) ++ post).
    now apply rstrip_pad.
Qed.

(** The text the decoder is given does not change when whitespace is put
    around the answer. *)
Lemma clean_pad (pre s post : text) :
  forallb is_space pre = true -> forallb is_space post = true ->
  strip (remove_fences (pre ++ s ++ post)) = strip (remove_fences s).
Proof.
  intros Hpre Hpost.
  rewrite remove_fences_pad_left by exact Hpre.
  rewrite remove_fences_pad_right by exact Hpost.
  now apply strip_pad.
Qed.


(** * The sink of [app2.py] *)

Lemma str_in_firstn (k : text) (n : nat) (ids : list text) :
  str_in k (firstn n ids) = true -> str_in k ids = true.
Proof.
  unfold str_in. rewrite !existsb_exists. intros (x & Hx & E).
  exists x. split; [|exact E].
  rewrite <- (firstn_skipn n ids). apply in_or_app. now left.
Qed.

Lemma peek_ids_in (k : text) (c : list entry) :
  str_in k (peek_ids c) = true -> str_in k (List.map entry_id c) = true.
Proof.
  unfold peek_ids. rewrite <- firstn_map. apply str_in_firstn.
Qed.

Lemma peek_ids_all (c : list entry) :
  (List.length c <= peek_limit)%nat -> peek_ids c = List.map entry_id c.
Proof. intro H. unfold peek_ids. now rewrite firstn_all2. Qed.

Lemma validate_id_nonempty (lib : libraries) (k : text) :
  k <> [] -> validate_id lib k = Ret tt.
Proof. intro H. unfold validate_id. now destruct k. Qed.

Lemma latin1_replace (s : text) :
  latin1 (replace_space_underscore s) = latin1 s.
Proof.
  unfold latin1, replace_space_underscore.
  induction s as [|c s IH]; [reflexivity|].
  cbn [List.map forallb]. rewrite IH. f_equal.
  destruct (N.eqb_spec c 32) as [->|]; reflexivity.
Qed.

Lemma lower_cp_space (c : N) : lower_cp c = 32 <-> c = 32.
Proof.
  unfold lower_cp.
  destruct (N.leb_spec 65 c), (N.leb_spec c 90), (N.leb_spec 192 c),
    (N.leb_spec c 222), (N.eqb_spec c 215); cbn [andb orb negb]; lia.
Qed.

(** The key of a name of code points up to U+00FF, character by character. *)
Lemma candidate_key_latin1 (ul : text -> text) (name : text) :
  latin1 name = true ->
  candidate_key ul name
  = List.map (fun c => if c =? 32 then 95 else lower_cp c) name.
Proof.
  intro H. unfold candidate_key, lower. rewrite latin1_replace, H.
  unfold replace_space_underscore. rewrite map_map. apply map_ext.
  intro c. destruct (N.eqb_spec c 32) as [->|]; reflexivity.
Qed.

Lemma spec_key_latin1 (ul : text -> text) (name : text) :
  latin1 name = true ->
  spec_key ul name
  = List.map (fun c => if c =? 32 then 95 else lower_cp c) name.
Proof.
  intro H. unfold spec_key, lower. rewrite H.
  unfold replace_space_underscore. rewrite map_map. apply map_ext.
  intro c. destruct (N.eqb_spec c 32) as [->|Hc]; [reflexivity|].
  destruct (N.eqb_spec (lower_cp c) 32) as [E|]; [|reflexivity].
  apply (proj1 (lower_cp_space c)) in E. contradiction.
Qed.

(** C8, as the code has it.  For a model answer that parses to a non-empty
    record whose [name] is a string, or is missing and then taken to be
    [Unknown], the sink works with one key, the name with every space
    replaced by an underscore and then lower-cased.  For a name of code
    points up to U+00FF this is the key of the spec (lower-cased, then
    spaces replaced): character by character, a space gives an underscore,
    a capital its small letter, anything else itself.  The sink reports the
    key as a duplicate when the peeked ids hold it; it adds an entry with
    the key as id when the key is not empty and no id of the collection;
    and when the key is empty (the name was empty) and the store refuses an
    empty id, it reports the store's error and adds nothing.  The name
    [John Doe] gives [john_doe]. *)
Theorem derived_key (lib : libraries) (data : text) (w : world) (d : pydict)
  (name : text)
  (Hparsed : json_loads (strip (remove_fences data)) = Scanned (JObj d) [])
  (Hrecord : d <> [])
  (Hname : dict_get (lit "name") d = Some (JStr name)
           \/ (dict_get (lit "name") d = None /\ name = lit "Unknown")) :
  let key := candidate_key (unicode_lower lib) name in
  (latin1 name = true ->
   key = spec_key (unicode_lower lib) name
   /\ key = List.map (fun c => if c =? 32 then 95 else lower_cp c) name)
  /\ (str_in key (peek_ids (collection w)) = true ->
      save_to_chromadb lib data w
      = (Ret tt, w, [St Warning (AlreadyExists key)]))
  /\ (key <> [] ->
      str_in key (List.map entry_id (collection w)) = false ->
      save_to_chromadb lib data w
      = (Ret tt,
         with_collection w
           (collection w ++
            [{| entry_id := key;
                entry_document := json_dumps (float_repr lib) None (JObj d);
                entry_name := name |}]),
         [St Write (SavedToChromaDB key)]))
  /\ (key = [] ->
      forall e, add_empty_id lib = Raise e ->
      str_in key (peek_ids (collection w)) = false ->
      save_to_chromadb lib data w
      = (Ret tt, w, [St Error (ErrorSavingToChromaDB e)]))
  /\ candidate_key (unicode_lower lib) (lit "John Doe") = lit "john_doe".
Proof.
  intro key.
  assert (Hn : name_or_unknown d = JStr name).
  { unfold name_or_unknown. destruct Hname as [->|[-> ->]]; reflexivity. }
  assert (Ht : truthy (JObj d) = true) by now destruct d.
  assert (Hd : is_nil data = false).
  { destruct data; [discriminate Hparsed|reflexivity]. }
  split; [|split; [|split; [|split; [|reflexivity]]]].
  - intro Hl. unfold key.
    now rewrite candidate_key_latin1, spec_key_latin1.
  - intro Hin. rewrite save_to_chromadb_run, Hd, Hparsed, Ht, Hn.
    fold key. now rewrite Hin.
  - intros Hkey Hout. rewrite save_to_chromadb_run, Hd, Hparsed, Ht, Hn.
    fold key. rewrite (validate_id_nonempty lib key Hkey).
    destruct (str_in key (peek_ids (collection w))) eqn:Hp.
    + apply peek_ids_in in Hp. congruence.
    + now rewrite Hout.
  - intros Hkey e He Hp. rewrite save_to_chromadb_run, Hd, Hparsed, Ht, Hn.
    fold key. rewrite Hp. unfold validate_id. rewrite Hkey. cbn [is_nil].
    now rewrite He.
Qed.

Lemma derived_key_witness :
  json_loads (strip (remove_fences (answer_named (lit "John Doe"))))
  = Scanned (JObj [(lit "name", JStr (lit "John Doe"))]) []
  /\ save_to_chromadb (sample_lib one_page (Ret None) false)
                      (answer_named (lit "John Doe")) empty_world
     = (Ret tt,
        with_collection empty_world
          [{| entry_id := lit "john_doe";
              entry_document := json_lit "{'name': 'John Doe'}";
              entry_name := lit "John Doe" |}],
        [St Write (SavedToChromaDB (lit "john_doe"))]).
Proof.
  split; [reflexivity|].
  refine (proj1 (proj2 (proj2 (derived_key
                   (sample_lib one_page (Ret None) false)
                   (answer_named (lit "John Doe")) empty_world
                   [(lit "name", JStr (lit "John Doe"))] (lit "John Doe")
                   eq_refl _ (or_introl eq_refl)))) _ eq_refl);
    discriminate.
Defined.

(** C8 as stated fails: for the record whose [name] is [null] no key is
    derived; the sink reports the error and inserts nothing. *)
Lemma null_name_derives_no_key :
  save_to_chromadb (sample_lib one_page (Ret None) false)
                   (json_lit "{'name': null}") empty_world
  = (Ret tt, empty_world, [St Error (ErrorSavingToChromaDB AttributeError)]).
Proof. reflexivity. Qed.

(** The record whose [name] is the empty string has the empty key; the
    store of the examples refuses it, and the sink reports that error. *)
Example empty_name_is_refused :
  save_to_chromadb (sample_lib one_page (Ret None) false)
                   (answer_named []) empty_world
  = (Ret tt, empty_world,
     [St Error (ErrorSavingToChromaDB (LibraryError 400))]).
Proof. reflexivity. Qed.

Lemma keys_distinct_snoc (ks : list text) (k : text) :
  keys_distinct ks = true -> str_in k ks = false ->
  keys_distinct (ks ++ [k]) = true.
Proof.
  induction ks as [|x ks IH]; intros Hd Hk; [reflexivity|].
  cbn [keys_distinct app] in *. apply andb_true_iff in Hd as [Hx Hd].
  cbn [str_in existsb] in Hk. apply orb_false_iff in Hk as [Hkx Hk].
  rewrite IH by assumption. rewrite andb_true_r.
  apply negb_true_iff in Hx. apply negb_true_iff.
  unfold str_in in *. rewrite existsb_app, Hx. cbn.
  rewrite orb_false_r.
  destruct (text_eqb x k) eqn:E; [|reflexivity].
  apply text_eqb_eq in E. subst. now rewrite text_eqb_refl in Hkx.
Qed.

(** The part of C1 that holds on every run: the ids of the collection stay
    distinct, whatever the sink is given. *)
Lemma upsert_keeps_ids_distinct (lib : libraries) (data : text) (w : world) :
  keys_distinct (List.map entry_id (collection w)) = true ->
  keys_distinct
    (List.map entry_id (collection (world_of (save_to_chromadb lib data w))))
  = true.
Proof.
  intro Hd. rewrite save_to_chromadb_run.
  repeat match goal with
         | |- context [if ?b then _ else _] => destruct b eqn:?
         | |- context [match ?x with _ => _ end] => destruct x eqn:?
         end;
    unfold world_of; cbn [fst snd with_collection collection];
    try exact Hd.
  all: rewrite map_app; cbn [List.map entry_id]; now apply keys_distinct_snoc.
Qed.

(** The part of C1 that holds while the collection has at most ten entries:
    an answer whose key is an id of the collection is reported as a
    duplicate and the collection stays as it is. *)
Lemma upsert_within_peek (lib : libraries) (data : text) (w : world)
  (d : pydict) (name : text) :
  json_loads (strip (remove_fences data)) = Scanned (JObj d) [] ->
  dict_get (lit "name") d = Some (JStr name) ->
  (List.length (collection w) <= peek_limit)%nat ->
  str_in (candidate_key (unicode_lower lib) name)
         (List.map entry_id (collection w)) = true ->
  save_to_chromadb lib data w
  = (Ret tt, w,
     [St Warning (AlreadyExists (candidate_key (unicode_lower lib) name))]).
Proof.
  intros Hp Hn Hl Hin.
  assert (Hd : is_nil data = false).
  { destruct data; [discriminate Hp|reflexivity]. }
  rewrite save_to_chromadb_run, Hd, Hp.
  assert (Ht : truthy (JObj d) = true) by (destruct d; [discriminate|reflexivity]).
  rewrite Ht. unfold name_or_unknown. rewrite Hn.
  now rewrite (peek_ids_all _ Hl), Hin.
Qed.

(** C1 fails once the collection holds more than ten entries.  Twelve
    answers to an empty collection, ten with the names [c0] to [c9] and then
    [John Doe] twice: the eleventh call stores [john_doe]; the twelfth finds
    no [john_doe] among the ten peeked ids, calls [add], which the store
    ignores or refuses, and the call reports a save or a store error, never
    the duplicate. *)
Theorem duplicate_beyond_peek (raises : bool) :
  let lib := sample_lib one_page (Ret None) raises in
  let answers := List.map answer_named (ten_names ++ [lit "John Doe"]) in
  let w := world_of (upsert_all lib answers empty_world) in
  List.map entry_id (collection w) = ten_names ++ [lit "john_doe"]
  /\ save_to_chromadb lib (answer_named (lit "John Doe")) w
     = (Ret tt, w,
        [if raises
         then St Error (ErrorSavingToChromaDB DuplicateIDError)
         else St Write (SavedToChromaDB (lit "john_doe"))]).
Proof. destruct raises; split; vm_compute; reflexivity. Qed.

(** * Escapes *)

Lemma hex_value_digit (d : N) : d < 16 -> hex_value (hex_digit d) = Some d.
Proof.
  intro H. unfold hex_digit, hex_value.
  destruct (N.ltb_spec d 10).
  - replace ((48 <=? 48 + d) && (48 + d <=? 57)) with true.
    + f_equal. lia.
    + symmetry. apply andb_true_iff. split; apply N.leb_le; lia.
  - replace ((48 <=? 87 + d) && (87 + d <=? 57)) with false.
    + replace ((97 <=? 87 + d) && (87 + d <=? 102)) with true.
      * f_equal. lia.
      * symmetry. apply andb_true_iff. split; apply N.leb_le; lia.
    + symmetry. apply andb_false_iff. right. apply N.leb_gt. lia.
Qed.

Lemma land_mul_pow2_low (x y k : N) : y < 2 ^ k -> N.land (x * 2 ^ k) y = 0.
Proof.
  intro H. apply N.bits_inj. intro i. rewrite N.land_spec, N.bits_0.
  destruct (N.lt_ge_cases i k) as [Hi|Hi].
  - now rewrite N.mul_pow2_bits_low.
  - assert (Hy : N.testbit y i = false).
    { rewrite <- (N.mod_small y (2 ^ k) H). now apply N.mod_pow2_bits_high. }
    rewrite Hy. apply andb_false_r.
Qed.

Lemma lor_shiftl_low (x y k : N) :
  y < 2 ^ k -> N.lor (N.shiftl x k) y = x * 2 ^ k + y.
Proof.
  intro H. rewrite N.shiftl_mul_pow2.
  rewrite N.add_nocarry_lxor by now apply land_mul_pow2_low.
  symmetry. apply N.lxor_lor. now apply land_mul_pow2_low.
Qed.

Lemma nibble (n k : N) : N.land (N.shiftr n k) 15 = (n / 2 ^ k) mod 16.
Proof.
  rewrite N.shiftr_div_pow2. change 15 with (N.ones 4).
  now rewrite N.land_ones.
Qed.

Lemma nibble_lt (n k : N) : N.land (N.shiftr n k) 15 < 16.
Proof. rewrite nibble. now apply N.mod_lt. Qed.

Lemma nibble0 (n : N) : N.land n 15 = n mod 16.
Proof. change 15 with (N.ones 4). now rewrite N.land_ones. Qed.

Lemma hex4_escape (n : N) :
  n < 65536 ->
  hex4 (hex_digit (N.land (N.shiftr n 12) 15))
       (hex_digit (N.land (N.shiftr n 8) 15))
       (hex_digit (N.land (N.shiftr n 4) 15))
       (hex_digit (N.land n 15)) = Some n.
Proof.
  intro H. unfold hex4.
  rewrite !hex_value_digit
    by (apply nibble_lt || (rewrite nibble0; now apply N.mod_lt)).
  f_equal. rewrite !nibble, nibble0.
  assert (E : forall x y, y < 16 -> N.lor (N.shiftl x 4) y = x * 16 + y).
  { intros x y Hy. now rewrite (lor_shiftl_low x y 4) by exact Hy. }
  rewrite !E by (apply N.mod_lt; discriminate).
  change (2 ^ 12) with 4096. change (2 ^ 8) with 256. change (2 ^ 4) with 16.
  div_lia.
Qed.

Lemma high_unit_value (c : N) :
  65536 <= c -> c <= 1114111 -> high_unit c = 55296 + (c - 65536) / 1024.
Proof.
  intros H1 H2. unfold high_unit. rewrite N.shiftr_div_pow2.
  change 1023 with (N.ones 10). rewrite N.land_ones.
  change (2 ^ 10) with 1024.
  rewrite N.mod_small by div_lia.
  change 55296 with (N.shiftl 54 10).
  rewrite lor_shiftl_low by (change (2 ^ 10) with 1024; div_lia).
  reflexivity.
Qed.

Lemma low_unit_value (c : N) :
  65536 <= c -> low_unit c = 56320 + (c - 65536) mod 1024.
Proof.
  intros H1. unfold low_unit.
  change 1023 with (N.ones 10). rewrite N.land_ones.
  change (2 ^ 10) with 1024.
  change 56320 with (N.shiftl 55 10).
  rewrite lor_shiftl_low by (change (2 ^ 10) with 1024; div_lia).
  reflexivity.
Qed.

Lemma join_surrogate_units (c : N) :
  65536 <= c -> c <= 1114111 ->
  join_surrogates (high_unit c) (low_unit c) = c.
Proof.
  intros H1 H2. unfold join_surrogates.
  rewrite high_unit_value, low_unit_value by assumption.
  rewrite (N.add_comm 55296), (N.add_comm 56320), !N.add_sub.
  rewrite lor_shiftl_low by (change (2 ^ 10) with 1024; div_lia).
  change (2 ^ 10) with 1024. div_lia.
Qed.

Lemma high_unit_range (c : N) :
  65536 <= c -> c <= 1114111 ->
  is_high_surrogate (high_unit c) = true /\ high_unit c < 65536.
Proof.
  intros H1 H2. rewrite high_unit_value by assumption.
  unfold is_high_surrogate. split.
  - apply andb_true_iff. split; apply N.leb_le; div_lia.
  - div_lia.
Qed.

Lemma low_unit_range (c : N) :
  65536 <= c ->
  is_low_surrogate (low_unit c) = true /\ low_unit c < 65536.
Proof.
  intros H1. rewrite low_unit_value by assumption.
  unfold is_low_surrogate. split.
  - apply andb_true_iff. split; apply N.leb_le; div_lia.
  - div_lia.
Qed.

(** * Strings through the encoder and back *)

Lemma scanstring_plain (c : N) (tail : text) :
  c <> 34 -> c <> 92 -> 32 <= c ->
  scanstring (c :: tail) = scan_push c (scanstring tail).
Proof.
  intros H1 H2 H3. cbn [scanstring].
  apply N.eqb_neq in H1, H2. rewrite H1, H2.
  replace (c <? 32) with false by (symmetry; apply N.ltb_ge; exact H3).
  reflexivity.
Qed.

Lemma scanstring_u (h1 h2 h3 h4 u : N) (tail : text) :
  hex4 h1 h2 h3 h4 = Some u -> is_high_surrogate u = false ->
  tail <> [] ->
  scanstring (92 :: 117 :: h1 :: h2 :: h3 :: h4 :: tail)
  = scan_push u (scanstring tail).
Proof.
  intros Hu Hh Hne. destruct tail as [|x tail]; [contradiction|].
  cbn [scanstring].
  change (92 =? 34) with false. change (92 =? 92) with true.
  change (117 =? 117) with true. cbv iota. now rewrite Hu, Hh.
Qed.

Lemma scanstring_pair (h1 h2 h3 h4 l1 l2 l3 l4 hi lo : N) (tail : text) :
  hex4 h1 h2 h3 h4 = Some hi -> is_high_surrogate hi = true ->
  hex4 l1 l2 l3 l4 = Some lo -> is_low_surrogate lo = true ->
  tail <> [] ->
  scanstring (92 :: 117 :: h1 :: h2 :: h3 :: h4
              :: 92 :: 117 :: l1 :: l2 :: l3 :: l4 :: tail)
  = scan_push (join_surrogates hi lo) (scanstring tail).
Proof.
  intros Hh Hhs Hl Hls Hne. destruct tail as [|x tail]; [contradiction|].
  cbn [scanstring].
  change (92 =? 34) with false. change (92 =? 92) with true.
  change (117 =? 117) with true. cbv iota.
  rewrite Hh, Hhs. cbn [andb]. now rewrite Hl, Hls.
Qed.

Lemma scanstring_lone (h1 h2 h3 h4 u : N) (tail : text) :
  hex4 h1 h2 h3 h4 = Some u -> is_high_surrogate u = true ->
  no_low_escape tail -> tail <> [] ->
  scanstring (92 :: 117 :: h1 :: h2 :: h3 :: h4 :: tail)
  = scan_push u (scanstring tail).
Proof.
  intros Hu Hh Ht Hne. destruct tail as [|b tail]; [contradiction|].
  cbn [scanstring].
  change (92 =? 34) with false. change (92 =? 92) with true.
  change (117 =? 117) with true. cbv iota. rewrite Hu, Hh.
  destruct tail as [|x [|l1 [|l2 [|l3 [|l4 [|y r]]]]]]; try reflexivity.
  destruct (b =? 92) eqn:Eb; [|reflexivity].
  destruct (x =? 117) eqn:Ex; [|reflexivity].
  apply N.eqb_eq in Eb, Ex. subst b x.
  destruct (Ht l1 l2 l3 l4 (y :: r) eq_refl) as (u2 & Hu2 & Hl).
  cbn [andb]. now rewrite Hu2, Hl.
Qed.

Lemma no_low_escape_head (c : N) (tail : text) :
  c <> 92 -> no_low_escape (c :: tail).
Proof. intros Hc l1 l2 l3 l4 r E. injection E as E _. contradiction. Qed.

Lemma no_low_escape_short (x : N) (tail : text) :
  x <> 117 -> no_low_escape (92 :: x :: tail).
Proof. intros Hx l1 l2 l3 l4 r E. injection E as E _. contradiction. Qed.

Lemma no_low_escape_u (n : N) (tail : text) :
  n < 65536 -> is_low_surrogate n = false ->
  no_low_escape (escape_u n ++ tail).
Proof.
  intros Hn Hl l1 l2 l3 l4 r E. unfold escape_u in E. cbn [app] in E.
  injection E as <- <- <- <- _. exists n. split; [now apply hex4_escape|exact Hl].
Qed.

Lemma high_not_low (u : N) :
  is_high_surrogate u = true -> is_low_surrogate u = false.
Proof.
  unfold is_high_surrogate, is_low_surrogate. intro H.
  apply andb_true_iff in H as [_ H]. apply N.leb_le in H.
  apply andb_false_iff. left. apply N.leb_gt. lia.
Qed.

(** What the encoder writes for a code point that is no low surrogate does
    not start like the escape of one. *)
Lemma escape_cp_no_low (d : N) (tail : text) :
  d <= 1114111 -> is_low_surrogate d = false ->
  no_low_escape (escape_cp d ++ tail).
Proof.
  intros Hd Hl. unfold escape_cp.
  destruct (d =? 34); [now apply no_low_escape_short|].
  destruct (d =? 92) eqn:E2; [now apply no_low_escape_short|].
  destruct (d =? 10); [now apply no_low_escape_short|].
  destruct (d =? 13); [now apply no_low_escape_short|].
  destruct (d =? 9); [now apply no_low_escape_short|].
  destruct (d =? 8); [now apply no_low_escape_short|].
  destruct (d =? 12); [now apply no_low_escape_short|].
  apply N.eqb_neq in E2.
  destruct ((32 <=? d) && (d <=? 126)); [now apply no_low_escape_head|].
  destruct (N.ltb_spec d 65536) as [Hlt|Hge].
  - now apply no_low_escape_u.
  - rewrite <- app_assoc.
    destruct (high_unit_range d Hge Hd) as [Hh1 Hh2].
    apply no_low_escape_u; [exact Hh2|now apply high_not_low].
Qed.

Lemma scanstring_escape_cp (c : N) (tail : text) :
  c <= 1114111 ->
  (is_high_surrogate c = true -> no_low_escape tail) ->
  tail <> [] ->
  scanstring (escape_cp c ++ tail) = scan_push c (scanstring tail).
Proof.
  intros Hc Ht Hne. unfold escape_cp.
  destruct (c =? 34) eqn:E1; [apply N.eqb_eq in E1; subst; reflexivity|].
  destruct (c =? 92) eqn:E2; [apply N.eqb_eq in E2; subst; reflexivity|].
  destruct (c =? 10) eqn:E3; [apply N.eqb_eq in E3; subst; reflexivity|].
  destruct (c =? 13) eqn:E4; [apply N.eqb_eq in E4; subst; reflexivity|].
  destruct (c =? 9) eqn:E5; [apply N.eqb_eq in E5; subst; reflexivity|].
  destruct (c =? 8) eqn:E6; [apply N.eqb_eq in E6; subst; reflexivity|].
  destruct (c =? 12) eqn:E7; [apply N.eqb_eq in E7; subst; reflexivity|].
  apply N.eqb_neq in E1, E2.
  destruct ((32 <=? c) && (c <=? 126)) eqn:E8.
  - apply andb_true_iff in E8 as [E8 _]. apply N.leb_le in E8.
    cbn [app]. now apply scanstring_plain.
  - destruct (N.ltb_spec c 65536) as [Hlt|Hge].
    + unfold escape_u. cbn [app].
      destruct (is_high_surrogate c) eqn:Eh.
      * apply scanstring_lone;
          [now apply hex4_escape|exact Eh|now apply Ht|exact Hne].
      * apply scanstring_u; [now apply hex4_escape|exact Eh|exact Hne].
    + destruct (high_unit_range c Hge Hc) as [Hh1 Hh2].
      destruct (low_unit_range c Hge) as [Hl1 Hl2].
      unfold escape_u. cbn [app].
      rewrite (scanstring_pair _ _ _ _ _ _ _ _ (high_unit c) (low_unit c))
        by (assumption || now apply hex4_escape).
      now rewrite join_surrogate_units.
Qed.

Lemma scanstring_encoded (s rest : text) :
  text_ok s = true ->
  scanstring (flat_map escape_cp s ++ 34 :: rest) = Scanned s rest.
Proof.
  induction s as [|c s IH]; intro H; [reflexivity|].
  cbn [text_ok] in H. apply andb_true_iff in H as [H Hs].
  apply andb_true_iff in H as [Hc Hpair]. apply N.leb_le in Hc.
  cbn [flat_map]. rewrite <- app_assoc, scanstring_escape_cp.
  - now rewrite IH.
  - exact Hc.
  - intro Hh. rewrite Hh in Hpair. cbn [andb] in Hpair.
    apply negb_true_iff in Hpair.
    destruct s as [|d s]; [now apply no_low_escape_head|].
    cbn [text_ok] in Hs. apply andb_true_iff in Hs as [Hs _].
    apply andb_true_iff in Hs as [Hd _]. apply N.leb_le in Hd.
    cbn [flat_map]. rewrite <- app_assoc. now apply escape_cp_no_low.
  - intro E. apply app_eq_nil in E as [_ E]. discriminate E.
Qed.

(** * Integers through the encoder and back *)

Lemma digits_value_app (a b : text) (acc : Z) :
  fold_left (fun acc c => (10 * acc + (Z.of_N c - 48))%Z) (a ++ b) acc
  = fold_left (fun acc c => (10 * acc + (Z.of_N c - 48))%Z) b
      (fold_left (fun acc c => (10 * acc + (Z.of_N c - 48))%Z) a acc).
Proof. apply fold_left_app. Qed.

Lemma half_bound (fuel : nat) (n : N) :
  10 <= n -> n < 2 ^ N.of_nat (S fuel) -> n / 10 < 2 ^ N.of_nat fuel.
Proof.
  intros H1 H2. rewrite Nat2N.inj_succ, N.pow_succ_r' in H2.
  apply N.Div0.div_lt_upper_bound. lia.
Qed.

Lemma digits_of_value (fuel : nat) :
  forall n, n < 2 ^ N.of_nat fuel ->
  digits_value (digits_of fuel n) = Z.of_N n.
Proof.
  induction fuel as [|fuel IH]; intros n H.
  - cbn in H. assert (n = 0) by lia. subst. reflexivity.
  - cbn [digits_of]. destruct (N.ltb_spec n 10) as [Hn|Hn].
    + unfold digits_value. cbn [fold_left]. lia.
    + unfold digits_value in *. rewrite digits_value_app. cbn [fold_left].
      rewrite IH by now apply half_bound. div_lia.
Qed.

Lemma is_digit_offset (d : N) : d < 10 -> is_digit (48 + d) = true.
Proof.
  intro H. unfold is_digit. apply andb_true_iff. split; apply N.leb_le; lia.
Qed.

Lemma digits_of_digits (fuel : nat) :
  forall n, forallb is_digit (digits_of fuel n) = true.
Proof.
  induction fuel as [|fuel IH]; intro n; [reflexivity|].
  cbn [digits_of]. destruct (N.ltb_spec n 10) as [Hn|Hn].
  - cbn [forallb]. now rewrite is_digit_offset.
  - rewrite forallb_app, IH. cbn [forallb andb].
    rewrite is_digit_offset by div_lia. reflexivity.
Qed.

Lemma digits_of_head (fuel : nat) :
  forall n, 1 <= n -> n < 2 ^ N.of_nat fuel ->
  exists c tl, digits_of fuel n = c :: tl /\ 49 <= c /\ c <= 57.
Proof.
  induction fuel as [|fuel IH]; intros n H1 H2.
  - cbn in H2. lia.
  - cbn [digits_of]. destruct (N.ltb_spec n 10) as [Hn|Hn].
    + exists (48 + n), []. repeat split; lia.
    + destruct (IH (n / 10)) as (c & tl & E & Hc).
      * div_lia.
      * now apply half_bound.
      * rewrite E. exists c, (tl ++ [48 + n mod 10]). now split.
Qed.

Lemma log2_bound (n : N) : n < 2 ^ N.of_nat (S (N.to_nat (N.log2 n))).
Proof.
  rewrite Nat2N.inj_succ, N2Nat.id.
  destruct n as [|p]; [reflexivity|].
  apply N.log2_spec. reflexivity.
Qed.

Lemma span_digits_all (ds rest : text) :
  forallb is_digit ds = true ->
  match rest with [] => true | c :: _ => negb (is_digit c) end = true ->
  span_digits (ds ++ rest) = (ds, rest).
Proof.
  intros Hd Hr. induction ds as [|c ds IH].
  - destruct rest as [|c rest]; [reflexivity|]. cbn [app span_digits].
    apply negb_true_iff in Hr. now rewrite Hr.
  - cbn [forallb] in Hd. apply andb_true_iff in Hd as [Hc Hd].
    cbn [app span_digits]. now rewrite Hc, IH.
Qed.

Lemma delimited_no_digit (rest : text) :
  delimited rest = true ->
  match rest with [] => true | c :: _ => negb (is_digit c) end = true.
Proof.
  destruct rest as [|c rest]; [reflexivity|]. unfold delimited, is_json_ws, is_digit.
  intro H. apply negb_true_iff.
  destruct (N.leb_spec 48 c); [|reflexivity].
  destruct (N.leb_spec c 57); [|reflexivity].
  repeat (apply orb_true_iff in H as [H|H]);
    apply N.eqb_eq in H; subst; discriminate || lia.
Qed.

Lemma match_frac_delimited (rest : text) :
  delimited rest = true -> match_frac rest = ([], rest).
Proof.
  destruct rest as [|c rest]; [reflexivity|]. unfold delimited, is_json_ws.
  intro H. unfold match_frac.
  destruct (c =? 46) eqn:E; [|reflexivity].
  apply N.eqb_eq in E. subst. discriminate H.
Qed.

Lemma match_exp_delimited (rest : text) :
  delimited rest = true -> match_exp rest = ([], rest).
Proof.
  destruct rest as [|c rest]; [reflexivity|]. unfold delimited, is_json_ws.
  intro H. unfold match_exp.
  destruct ((c =? 101) || (c =? 69)) eqn:E; [|reflexivity].
  apply orb_true_iff in E as [E|E]; apply N.eqb_eq in E; subst; discriminate H.
Qed.

Lemma match_integer_digits (n : N) (rest : text) :
  delimited rest = true ->
  match_integer (digits_of (S (N.to_nat (N.log2 n))) n ++ rest)
  = Some (digits_of (S (N.to_nat (N.log2 n))) n, rest).
Proof.
  intro Hr. pose proof (delimited_no_digit _ Hr) as Hn.
  destruct (N.eq_dec n 0) as [->|Hz].
  - reflexivity.
  - destruct (digits_of_head _ n ltac:(lia) (log2_bound n)) as (c & tl & E & H1 & H2).
    pose proof (digits_of_digits (S (N.to_nat (N.log2 n))) n) as Hd.
    rewrite E in *. cbn [forallb] in Hd. apply andb_true_iff in Hd as [Hc Hd].
    unfold match_integer. cbn [app].
    replace (c =? 45) with false by (symmetry; apply N.eqb_neq; lia).
    replace (c =? 48) with false by (symmetry; apply N.eqb_neq; lia).
    rewrite Hc, span_digits_all by assumption. reflexivity.
Qed.

Lemma match_integer_repr (z : Z) (rest : text) :
  delimited rest = true ->
  match_integer (int_repr z ++ rest) = Some (int_repr z, rest).
Proof.
  intro Hr. unfold int_repr.
  destruct (z <? 0)%Z eqn:Ez; [|now apply match_integer_digits].
  pose proof (delimited_no_digit _ Hr) as Hn.
  assert (Hz : Z.abs_N z <> 0) by (apply Z.ltb_lt in Ez; lia).
  destruct (digits_of_head _ (Z.abs_N z) ltac:(lia) (log2_bound _))
    as (c & tl & E & H1 & H2).
  pose proof (digits_of_digits (S (N.to_nat (N.log2 (Z.abs_N z)))) (Z.abs_N z))
    as Hd.
  rewrite E in *. cbn [forallb] in Hd. apply andb_true_iff in Hd as [Hc Hd].
  unfold match_integer. cbn [app].
  change (45 =? 45) with true. cbv iota.
  replace (c =? 48) with false by (symmetry; apply N.eqb_neq; lia).
  rewrite Hc, span_digits_all by assumption. reflexivity.
Qed.

Lemma int_of_literal_repr (z : Z) : int_of_literal (int_repr z) = z.
Proof.
  unfold int_repr.
  pose proof (digits_of_value _ (Z.abs_N z) (log2_bound _)) as Hv.
  destruct (z <? 0)%Z eqn:Ez.
  - cbn [int_of_literal]. change (45 =? 45) with true. cbv iota.
    rewrite Hv. apply Z.ltb_lt in Ez. lia.
  - apply Z.ltb_ge in Ez.
    destruct (N.eq_dec (Z.abs_N z) 0) as [E0|Hz].
    + rewrite E0. cbn. lia.
    + destruct (digits_of_head _ (Z.abs_N z) ltac:(lia) (log2_bound _))
        as (c & tl & E & H1 & H2).
      rewrite E in *. cbn [int_of_literal].
      replace (c =? 45) with false by (symmetry; apply N.eqb_neq; lia).
      rewrite Hv. lia.
Qed.

Lemma match_number_repr (z : Z) (rest : text) :
  delimited rest = true ->
  match_number (int_repr z ++ rest) = Some (JInt z, rest).
Proof.
  intro Hr. unfold match_number.
  rewrite match_integer_repr, match_frac_delimited, match_exp_delimited
    by exact Hr.
  now rewrite int_of_literal_repr.
Qed.

Lemma int_repr_head (z : Z) :
  exists c tl, int_repr z = c :: tl /\ (c = 45 \/ (48 <= c /\ c <= 57)).
Proof.
  unfold int_repr. destruct (z <? 0)%Z.
  - eexists; eexists; split; [reflexivity|now left].
  - destruct (N.eq_dec (Z.abs_N z) 0) as [E0|Hz].
    + rewrite E0. exists 48, []. split; [reflexivity|right; lia].
    + destruct (digits_of_head _ (Z.abs_N z) ltac:(lia) (log2_bound _))
        as (c & tl & E & H1 & H2).
      exists c, tl. split; [exact E|right; lia].
Qed.

(** * Whitespace and separators of the encoder *)

Lemma skip_ws_head (c : N) (t : text) :
  is_json_ws c = false -> skip_ws (c :: t) = c :: t.
Proof. intro H. cbn [skip_ws]. now rewrite H. Qed.

Lemma skip_ws_blank (ws x : text) :
  forallb is_json_ws ws = true -> skip_ws (ws ++ x) = skip_ws x.
Proof.
  induction ws as [|c ws IH]; intro H; [reflexivity|].
  cbn [forallb] in H. apply andb_true_iff in H as [Hc Hw].
  cbn [app skip_ws]. rewrite Hc. now apply IH.
Qed.

Lemma delimited_blank (ws : text) (c : N) (rest : text) :
  forallb is_json_ws ws = true -> delimited (c :: rest) = true ->
  delimited (ws ++ c :: rest) = true.
Proof.
  destruct ws as [|w ws]; intros H Hc; [exact Hc|].
  cbn [forallb] in H. apply andb_true_iff in H as [Hw _].
  cbn [app delimited]. now rewrite Hw.
Qed.

Lemma newline_indent_blank (indent : option nat) (level : nat) :
  forallb is_json_ws (newline_indent indent level) = true.
Proof.
  destruct indent as [n|]; [|reflexivity].
  cbn [newline_indent forallb]. change (is_json_ws 10) with true. cbn [andb].
  induction (n * level)%nat as [|k IH]; [reflexivity|].
  cbn [repeat forallb]. now rewrite IH.
Qed.

Lemma item_separator_shape (indent : option nat) (level : nat) :
  exists sw, item_separator indent level = 44 :: sw
             /\ forallb is_json_ws sw = true.
Proof.
  destruct indent as [n|].
  - exists (newline_indent (Some n) level). split; [reflexivity|].
    apply newline_indent_blank.
  - exists [32]. split; reflexivity.
Qed.

Lemma join_cons_app (sep p : text) (ps : list text) (z : text) :
  join sep (p :: ps) ++ z
  = p ++ match ps with
         | [] => z
         | _ :: _ => sep ++ (join sep ps ++ z)
         end.
Proof.
  destruct ps as [|q ps]; [reflexivity|].
  cbn [join]. now rewrite <- !app_assoc.
Qed.

(** * The first character of an encoded value *)

Lemma value_head_ascii (c : N) :
  33 <= c -> c <= 126 -> c <> 93 -> c <> 125 -> value_head c.
Proof.
  intros H1 H2 H3 H4. unfold value_head, is_json_ws, is_space.
  repeat match goal with
         | |- _ /\ _ => split
         | |- _ <> _ => lia
         | |- (_ || _) = false => apply orb_false_iff
         | |- (_ =? _) = false => apply N.eqb_neq; lia
         end.
  all: apply andb_false_iff;
    ((left; apply N.leb_gt; lia) || (right; apply N.leb_gt; lia)).
Qed.

Lemma encode_head (fr : text -> text) (indent : option nat) (level : nat)
  (v : json) :
  well_formed v = true ->
  exists c t, encode fr indent level v = c :: t /\ value_head c.
Proof.
  intro H. destruct v as [ |[|]|z|f|s|items|members].
  - exists 110; eexists; split; [reflexivity|apply value_head_ascii; lia].
  - exists 116; eexists; split; [reflexivity|apply value_head_ascii; lia].
  - exists 102; eexists; split; [reflexivity|apply value_head_ascii; lia].
  - destruct (int_repr_head z) as (c & t & E & Hc).
    exists c, t. split; [exact E|]. apply value_head_ascii; lia.
  - discriminate H.
  - exists 34; eexists; split; [reflexivity|apply value_head_ascii; lia].
  - destruct items; exists 91; eexists;
      (split; [reflexivity|apply value_head_ascii; lia]).
  - destruct members; exists 123; eexists;
      (split; [reflexivity|apply value_head_ascii; lia]).
Qed.

(** * Distinct keys *)

Lemma dict_set_fresh (k : text) (v : json) (d : pydict) :
  str_in k (List.map fst d) = false -> dict_set k v d = d ++ [(k, v)].
Proof.
  induction d as [|[k' v'] d IH]; intro H; [reflexivity|].
  cbn [List.map fst str_in existsb] in H.
  apply orb_false_iff in H as [H1 H2].
  cbn [dict_set app]. rewrite H1. f_equal. now apply IH.
Qed.

Lemma keys_distinct_app_fresh (a : list text) (k : text) (b : list text) :
  keys_distinct (a ++ k :: b) = true -> str_in k a = false.
Proof.
  induction a as [|x a IH]; intro H; [reflexivity|].
  cbn [app keys_distinct] in H. apply andb_true_iff in H as [Hx H].
  cbn [str_in existsb]. apply orb_false_iff. split; [|now apply IH].
  apply negb_true_iff in Hx. unfold str_in in Hx.
  rewrite existsb_app in Hx. apply orb_false_iff in Hx as [_ Hx].
  cbn [existsb] in Hx. apply orb_false_iff in Hx as [Hx _].
  destruct (text_eqb k x) eqn:E; [|reflexivity].
  apply text_eqb_eq in E. subst. now rewrite text_eqb_refl in Hx.
Qed.

Lemma dict_fold_distinct (pairs acc : list (text * json)) :
  keys_distinct (List.map fst (acc ++ pairs)) = true ->
  fold_left (fun d kv => dict_set (fst kv) (snd kv) d) pairs acc = acc ++ pairs.
Proof.
  revert acc. induction pairs as [|[k v] pairs IH]; intros acc H.
  - now rewrite app_nil_r.
  - cbn [fold_left fst snd].
    rewrite dict_set_fresh.
    + rewrite IH; rewrite <- app_assoc; [reflexivity|exact H].
    + rewrite map_app in H. cbn [List.map fst] in H.
      now apply keys_distinct_app_fresh in H.
Qed.

Lemma dict_distinct (pairs : list (text * json)) :
  keys_distinct (List.map fst pairs) = true -> dict pairs = pairs.
Proof. intro H. unfold dict. now rewrite dict_fold_distinct. Qed.

(** * Induction on values *)

Lemma json_induction (P : json -> Prop) :
  P JNull -> (forall b, P (JBool b)) -> (forall z, P (JInt z)) ->
  (forall f, P (JFloat f)) -> (forall s, P (JStr s)) ->
  (forall items, Forall P items -> P (JArr items)) ->
  (forall members, Forall (fun kv => P (snd kv)) members -> P (JObj members)) ->
  forall v, P v.
Proof.
  intros Hnull Hbool Hint Hfloat Hstr Harr Hobj.
  fix IH 1. intros [ |b|z|f|s|items|members].
  - exact Hnull.
  - apply Hbool.
  - apply Hint.
  - apply Hfloat.
  - apply Hstr.
  - apply Harr. induction items as [|x items IHitems]; constructor.
    + apply IH.
    + exact IHitems.
  - apply Hobj. induction members as [|[k x] members IHm]; constructor.
    + apply IH.
    + exact IHm.
Qed.

(** * Values through the encoder and back *)

Lemma skip_ws_value (x : text) :
  (exists c t, x = c :: t /\ value_head c) -> skip_ws x = x.
Proof. intros (c & t & -> & Hc & _). now apply skip_ws_head. Qed.

Lemma join_head (enc : json -> text) (sep : text) (v : json)
  (more : list json) (z : text) :
  (exists c t, enc v = c :: t /\ value_head c) ->
  exists c t, join sep (List.map enc (v :: more)) ++ z = c :: t /\ value_head c.
Proof.
  intros (c & t & E & Hc). cbn [List.map]. rewrite join_cons_app, E.
  eexists; eexists; split; [reflexivity|exact Hc].
Qed.

Lemma array_items_encoded (enc : json -> text) (sw cw rest : text) :
  forallb is_json_ws sw = true -> forallb is_json_ws cw = true ->
  forall items,
    Forall (fun v => (exists c t, enc v = c :: t /\ value_head c)
                     /\ scans_back enc v) items ->
    items <> [] ->
    forall fuel,
      (2 * List.length (join (44%N :: sw) (List.map enc items) ++ cw ++ 93%N :: rest)
       + 2 <= fuel)%nat ->
      array_items fuel (join (44 :: sw) (List.map enc items) ++ cw ++ 93 :: rest)
      = Scanned items rest.
Proof.
  intros Hsw Hcw. induction items as [|v items IH]; intros Hall Hne fuel Hf;
    [contradiction|].
  inversion Hall as [|? ? [Hhead Hv] Hrest]; subst.
  destruct fuel as [|f]; [lia|].
  destruct items as [|v2 more].
  - cbn [List.map join] in *. cbn [array_items].
    rewrite Hv.
    + rewrite skip_ws_blank, skip_ws_head by (assumption || reflexivity).
      reflexivity.
    + now apply delimited_blank.
    + lia.
  - assert (Hlen : (1 <= List.length (enc v))%nat).
    { destruct Hhead as (c & t & -> & _). cbn. lia. }
    cbn [List.map] in Hf |- *. rewrite join_cons_app in Hf |- *.
    cbn [app] in Hf |- *. cbn [array_items].
    rewrite Hv; [|reflexivity|len_lia].
    rewrite skip_ws_head by reflexivity.
    change (44 =? 93) with false. change (44 =? 44) with true. cbv iota.
    rewrite skip_ws_blank by exact Hsw.
    assert (Hh2 : exists c t,
               join (44 :: sw) (List.map enc (v2 :: more)) ++ cw ++ 93 :: rest
               = c :: t /\ value_head c).
    { apply join_head. now inversion Hrest as [|? ? [Hh _] _]. }
    cbn [List.map] in Hh2. rewrite (skip_ws_value _ Hh2).
    cbn [List.map] in IH. rewrite IH.
    + reflexivity.
    + exact Hrest.
    + discriminate.
    + len_lia.
Qed.

Lemma join_cons_more (sep p : text) (ps : list text) (z : text) :
  ps <> [] -> join sep (p :: ps) ++ z = p ++ sep ++ (join sep ps ++ z).
Proof.
  destruct ps as [|q ps]; [contradiction|]. intros _.
  cbn [join]. now rewrite <- !app_assoc.
Qed.

(** One member, entered after the opening quote of its key. *)
Lemma object_member_scan (enc : json -> text) (k : text) (v : json)
  (after : text) (f : nat) :
  text_ok k = true ->
  (exists c t, enc v = c :: t /\ value_head c) ->
  scans_back enc v ->
  delimited after = true ->
  (2 * List.length (enc v ++ after) + 1 <= f)%nat ->
  object_members (S f) (flat_map escape_cp k ++ 34 :: 58 :: 32 :: enc v ++ after)
  = match skip_ws after with
    | d :: rest3 =>
        if d =? 125 then Scanned [(k, v)] rest3
        else if d =? 44 then
          match skip_ws rest3 with
          | q :: rest4 =>
              if q =? 34
              then scan_map (cons (k, v)) (object_members f rest4)
              else Malformed ExpectingPropertyName
          | [] => Malformed ExpectingPropertyName
          end
        else Malformed ExpectingCommaDelimiter
    | [] => Malformed ExpectingCommaDelimiter
    end.
Proof.
  intros Hk Hhead Hv Hd Hf.
  cbn [object_members]. rewrite scanstring_encoded by exact Hk.
  rewrite skip_ws_head by reflexivity.
  change (58 =? 58) with true. cbv iota.
  change (skip_ws (32 :: enc v ++ after)) with (skip_ws (enc v ++ after)).
  rewrite (skip_ws_value (enc v ++ after))
    by (destruct Hhead as (c & t & -> & Hc); eexists; eexists;
        split; [reflexivity|exact Hc]).
  now rewrite Hv.
Qed.

Lemma object_members_encoded (enc : json -> text) (sw cw rest : text) :
  forallb is_json_ws sw = true -> forallb is_json_ws cw = true ->
  forall members,
    Forall (fun kv => text_ok (fst kv) = true
                      /\ (exists c t, enc (snd kv) = c :: t /\ value_head c)
                      /\ scans_back enc (snd kv)) members ->
    members <> [] ->
    forall inner fuel,
      join (44 :: sw)
           (List.map (fun kv => encode_string (fst kv) ++ [58; 32] ++ enc (snd kv))
                     members)
      ++ cw ++ 125 :: rest = 34 :: inner ->
      (2 * List.length inner + 2 <= fuel)%nat ->
      object_members fuel inner = Scanned members rest.
Proof.
  intros Hsw Hcw. induction members as [|[k v] more IH];
    intros Hall Hne inner fuel Einner Hf; [contradiction|].
  inversion Hall as [|? ? (Hk & Hhead & Hv) Hrest]; subst.
  cbn [fst snd] in Hk, Hhead, Hv.
  destruct fuel as [|f]; [lia|].
  assert (Hlen : (1 <= List.length (enc v))%nat).
  { destruct Hhead as (c & t & -> & _). cbn. lia. }
  destruct more as [|[k2 v2] more].
  - cbn [List.map fst snd join] in Einner.
    unfold encode_string in Einner. cbn [app] in Einner.
    rewrite <- !app_assoc in Einner. cbn [app] in Einner.
    injection Einner as <-.
    rewrite object_member_scan; try assumption.
    + rewrite skip_ws_blank, skip_ws_head by (assumption || reflexivity).
      reflexivity.
    + now apply delimited_blank.
    + len_lia.
  - change (List.map ?f ((k, v) :: ?l)) with (f (k, v) :: List.map f l) in Einner.
    remember (List.map (fun kv => encode_string (fst kv) ++ [58; 32] ++ enc (snd kv))
                       ((k2, v2) :: more)) as parts eqn:Eparts.
    assert (Hy : exists inner2,
               join (44 :: sw) parts ++ cw ++ 125 :: rest = 34 :: inner2).
    { subst parts. cbn [List.map fst snd]. rewrite join_cons_app.
      unfold encode_string. cbn [app]. eexists. reflexivity. }
    destruct Hy as (inner2 & Hy).
    assert (Ep : parts <> []) by (subst parts; discriminate).
    rewrite (join_cons_more _ _ _ _ Ep), Hy in Einner.
    cbn [fst snd] in Einner.
    unfold encode_string in Einner. cbn [app] in Einner.
    rewrite <- !app_assoc in Einner. cbn [app] in Einner.
    injection Einner as <-.
    rewrite object_member_scan; try assumption; [|reflexivity|len_lia].
    rewrite skip_ws_head by reflexivity.
    change (44 =? 125) with false. change (44 =? 44) with true. cbv iota.
    rewrite skip_ws_blank by exact Hsw.
    rewrite skip_ws_head by reflexivity.
    change (34 =? 34) with true. cbv iota.
    rewrite (IH Hrest ltac:(discriminate) inner2).
    + reflexivity.
    + rewrite <- Hy, Eparts. reflexivity.
    + len_lia.
Qed.

Lemma scan_string_value (s tail : text) (f : nat) :
  text_ok s = true ->
  scan_once (S f) (encode_string s ++ tail) = Scanned (JStr s) tail.
Proof.
  intro H. unfold encode_string. cbn [app]. rewrite <- app_assoc. cbn [app].
  cbn [scan_once]. change (34 =? 34) with true. cbv iota.
  now rewrite scanstring_encoded.
Qed.

Lemma scan_int_value (z : Z) (tail : text) (f : nat) :
  delimited tail = true ->
  scan_once (S f) (int_repr z ++ tail) = Scanned (JInt z) tail.
Proof.
  intro Hd. pose proof (match_number_repr z tail Hd) as Hn.
  destruct (int_repr_head z) as (c & t & E & Hc). rewrite E in *.
  cbn [app] in *. cbn [scan_once].
  replace (c =? 34) with false by (symmetry; apply N.eqb_neq; lia).
  replace (c =? 123) with false by (symmetry; apply N.eqb_neq; lia).
  replace (c =? 91) with false by (symmetry; apply N.eqb_neq; lia).
  change (lit "null") with [110; 117; 108; 108].
  change (lit "true") with [116; 114; 117; 101].
  change (lit "false") with [102; 97; 108; 115; 101].
  cbn [startswith].
  replace (110 =? c) with false by (symmetry; apply N.eqb_neq; lia).
  replace (116 =? c) with false by (symmetry; apply N.eqb_neq; lia).
  replace (102 =? c) with false by (symmetry; apply N.eqb_neq; lia).
  cbn [andb]. now rewrite Hn.
Qed.

(** Every well-formed value is read back: the scanner, run on the text the
    encoder makes of the value (at any indentation and depth) followed by a
    delimited rest, returns the value and that rest. *)
Lemma encode_scans_back (fr : text -> text) (indent : option nat) (v : json) :
  well_formed v = true ->
  forall level, scans_back (encode fr indent level) v.
Proof.
  induction v as [ |b|z|fl|s|items IH|members IH] using json_induction;
    intros Hwf level tail fuel Hd Hf.
  - destruct fuel as [|f]; [lia|]. reflexivity.
  - destruct fuel as [|f]; [lia|]. destruct b; reflexivity.
  - destruct fuel as [|f]; [lia|]. now apply scan_int_value.
  - discriminate Hwf.
  - destruct fuel as [|f]; [lia|]. now apply scan_string_value.
  - destruct items as [|v more]; [destruct fuel as [|f]; [lia|reflexivity]|].
    cbn [well_formed] in Hwf.
    destruct (item_separator_shape indent (S level)) as (sw & Esep & Hsw).
    cbn [encode] in Hf |- *. rewrite Esep in Hf |- *.
    cbn [app] in Hf |- *. rewrite <- !app_assoc in Hf |- *. cbn [app] in Hf |- *.
    destruct fuel as [|f]; [lia|].
    cbn [scan_once]. change (91 =? 34) with false. change (91 =? 123) with false.
    change (91 =? 91) with true. cbv iota.
    rewrite skip_ws_blank by apply newline_indent_blank.
    assert (Hall : Forall (fun x =>
               (exists c t, encode fr indent (S level) x = c :: t /\ value_head c)
               /\ scans_back (encode fr indent (S level)) x) (v :: more)).
    { apply Forall_forall. intros x Hx.
      assert (Hx' : well_formed x = true).
      { rewrite forallb_forall in Hwf. now apply Hwf. }
      split; [now apply encode_head|].
      rewrite Forall_forall in IH. now apply IH. }
    destruct (join_head (encode fr indent (S level)) (44 :: sw) v more
                (newline_indent indent level ++ 93 :: tail))
      as (c & t & Ej & Hc).
    { now inversion Hall as [|? ? [Hh _] _]. }
    pose proof (array_items_encoded (encode fr indent (S level)) sw
                  (newline_indent indent level) tail Hsw
                  (newline_indent_blank indent level) (v :: more) Hall
                  ltac:(discriminate) f) as Ha.
    rewrite (skip_ws_value _ (ex_intro _ c (ex_intro _ t (conj Ej Hc)))).
    rewrite Ej in Ha |- *.
    replace (c =? 93) with false
      by (symmetry; apply N.eqb_neq; apply Hc).
    rewrite Ha; [reflexivity|].
    rewrite <- Ej.
    pose proof (skip_ws_le (newline_indent indent (S level))).
    len_lia.
  - destruct members as [|[k v] more]; [destruct fuel as [|f]; [lia|reflexivity]|].
    cbn [well_formed] in Hwf. apply andb_true_iff in Hwf as [Hkeys Hwf].
    destruct (item_separator_shape indent (S level)) as (sw & Esep & Hsw).
    cbn [encode] in Hf |- *. rewrite Esep in Hf |- *.
    cbn [app] in Hf |- *. rewrite <- !app_assoc in Hf |- *. cbn [app] in Hf |- *.
    destruct fuel as [|f]; [lia|].
    cbn [scan_once]. change (123 =? 34) with false. change (123 =? 123) with true.
    cbv iota.
    rewrite skip_ws_blank by apply newline_indent_blank.
    assert (Hall : Forall (fun kv =>
               text_ok (fst kv) = true
               /\ (exists c t, encode fr indent (S level) (snd kv) = c :: t
                               /\ value_head c)
               /\ scans_back (encode fr indent (S level)) (snd kv))
              ((k, v) :: more)).
    { apply Forall_forall. intros x Hx.
      rewrite forallb_forall in Hwf. specialize (Hwf x Hx).
      apply andb_true_iff in Hwf as [Hk Hv].
      split; [exact Hk|]. split; [now apply encode_head|].
      rewrite Forall_forall in IH. now apply IH. }
    remember (join (44 :: sw)
                (List.map (fun kv => encode_string (fst kv)
                                     ++ 58 :: 32
                                        :: encode fr indent (S level) (snd kv))
                          ((k, v) :: more))
              ++ newline_indent indent level ++ 125 :: tail) as y eqn:Ey.
    assert (Hy : exists inner, y = 34 :: inner).
    { subst y. cbn [List.map fst snd]. rewrite join_cons_app.
      unfold encode_string. cbn [app]. eexists. reflexivity. }
    destruct Hy as (inner & Hy). rewrite Hy.
    rewrite skip_ws_head by reflexivity.
    change (34 =? 125) with false. change (34 =? 34) with true. cbv iota.
    rewrite (object_members_encoded (encode fr indent (S level)) sw
               (newline_indent indent level) tail Hsw
               (newline_indent_blank indent level) ((k, v) :: more) Hall
               ltac:(discriminate) inner f).
    + cbn [scan_map]. now rewrite dict_distinct.
    + rewrite <- Hy, Ey. reflexivity.
    + assert (El : List.length y = S (List.length inner)) by now rewrite Hy.
      rewrite Hy in Hf. len_lia.
Qed.

(** * [json.loads] of [json.dumps] *)

Lemma json_loads_dumps (fr : text -> text) (indent : option nat) (v : json) :
  well_formed v = true ->
  json_loads (json_dumps fr indent v) = Scanned v [].
Proof.
  intro Hwf. unfold json_loads, json_dumps.
  destruct (encode_head fr indent 0 v Hwf) as (c & t & E & Hc).
  pose proof (encode_scans_back fr indent v Hwf 0%nat []
                (3 * List.length (encode fr indent 0 v) + 1)%nat eq_refl) as Hs.
  rewrite app_nil_r in Hs. specialize (Hs ltac:(lia)).
  rewrite (skip_ws_value (encode fr indent 0 v))
    by (exists c, t; now split).
  rewrite Hs. rewrite E. cbn [startswith].
  replace (65279 =? c) with false by (symmetry; apply N.eqb_neq; intro; now apply Hc).
  reflexivity.
Qed.

(** * The normaliser on serialised records *)

Lemma lstrip_head (c : N) (t : text) :
  is_space c = false -> lstrip (c :: t) = c :: t.
Proof. intro H. cbn [lstrip]. now rewrite H. Qed.

Lemma strip_bracketed (a b : N) (l : text) :
  is_space a = false -> is_space b = false ->
  strip (a :: l ++ [b]) = a :: l ++ [b].
Proof.
  intros Ha Hb. unfold strip, rstrip. rewrite lstrip_head by exact Ha.
  change (a :: l ++ [b]) with ((a :: l) ++ [b]).
  rewrite rev_app_distr. cbn [rev app]. rewrite lstrip_head by exact Hb.
  change (b :: rev l ++ [a]) with ([b] ++ rev (a :: l)).
  rewrite rev_app_distr, rev_involutive. reflexivity.
Qed.

Lemma strip_dumps_record (fr : text -> text) (indent : option nat) (d : pydict) :
  strip (json_dumps fr indent (JObj d)) = json_dumps fr indent (JObj d).
Proof.
  unfold json_dumps. destruct d as [|kv d].
  - reflexivity.
  - cbn [encode]. rewrite !app_assoc. now apply strip_bracketed.
Qed.

(** C4, as the code has it.  For every StructuredRecord whose serialised
    text (compact or indented) holds no fence marker, normalising that text
    returns the record. *)
Theorem normalize_serialized (fr : text -> text) (indent : option nat)
  (r : json) (w : world)
  (Hrecord : structured_record r = true)
  (Hclean : contains fence (json_dumps fr indent r) = false) :
  convert_llm_output_to_dict (Some (json_dumps fr indent r)) w
  = (Ret (Some r), w, []).
Proof.
  destruct r as [ | | | | | |d]; try discriminate Hrecord.
  rewrite convert_run, (remove_fences_clean _ Hclean), strip_dumps_record.
  now rewrite json_loads_dumps.
Qed.

Lemma normalize_serialized_witness :
  structured_record (JObj [(lit "name", JStr (lit "A"))]) = true
  /\ convert_llm_output_to_dict
       (Some (json_dumps (fun l => l) None (JObj [(lit "name", JStr (lit "A"))])))
       empty_world
     = (Ret (Some (JObj [(lit "name", JStr (lit "A"))])), empty_world, []).
Proof.
  split; [reflexivity|].
  exact (normalize_serialized (fun l => l) None
           (JObj [(lit "name", JStr (lit "A"))]) empty_world eq_refl eq_refl).
Defined.

(** C4 as stated fails: the record whose [name] is three backticks is a
    StructuredRecord; its serialised text normalises to the record whose
    [name] is the empty string. *)
Lemma backtick_name_not_restored :
  structured_record (JObj [(lit "name", JStr fence)]) = true
  /\ convert_llm_output_to_dict
       (Some (json_dumps (fun l => l) None (JObj [(lit "name", JStr fence)])))
       empty_world
     = (Ret (Some (JObj [(lit "name", JStr [])])), empty_world, []).
Proof. split; reflexivity. Qed.

(** * The archive of [app.py] *)

Lemma archive_items_dumped (fr : text -> text) (w : world) (items : list json) :
  forallb well_formed items = true ->
  archive_items (with_archive w (json_dumps fr (Some 4%nat) (JArr items)))
  = Some items.
Proof.
  intro H. unfold archive_items, with_archive. cbn [archive].
  now rewrite (json_loads_dumps fr (Some 4%nat) (JArr items)).
Qed.

Lemma append_all_run (lib : libraries) (records : list json) :
  forallb well_formed records = true ->
  forall w items,
    archive_items w = Some items ->
    forallb well_formed items = true ->
    outcome_of (append_all lib records w) = Ret tt
    /\ archive_items (world_of (append_all lib records w))
       = Some (items ++ records)
    /\ match records with
       | [] => world_of (append_all lib records w) = w
       | _ :: _ =>
           archive (world_of (append_all lib records w))
           = Some (json_dumps (float_repr lib) (Some 4%nat)
                              (JArr (items ++ records)))
       end.
Proof.
  induction records as [|r rs IH]; intros Hwf w items Hitems Hwfi.
  - cbn. rewrite app_nil_r. repeat split; assumption || reflexivity.
  - cbn [forallb] in Hwf. apply andb_true_iff in Hwf as [Hr Hrs].
    cbn [append_all]. unfold bind. rewrite save_to_json_run, Hitems.
    assert (Hwf1 : forallb well_formed (items ++ [r]) = true).
    { rewrite forallb_app, Hwfi. cbn. now rewrite Hr. }
    specialize (IH Hrs (with_archive w (json_dumps (float_repr lib) (Some 4%nat)
                                                   (JArr (items ++ [r]))))
                   (items ++ [r])
                   (archive_items_dumped _ _ _ Hwf1) Hwf1).
    destruct IH as (Ho & Ha & Hm).
    unfold outcome_of, world_of in *.
    destruct (append_all lib rs _) as [[o w'] tr]. cbn [fst snd] in *.
    rewrite <- app_assoc in Ha. cbn [app] in Ha.
    split; [exact Ho|]. split; [exact Ha|].
    destruct rs as [|r2 rs].
    + rewrite Hm. reflexivity.
    + rewrite Hm, <- app_assoc. reflexivity.
Qed.

(** C6.  Appending the records one after the other, the archive file being
    absent at first: every call succeeds; what the sink reads back from the
    archive afterwards is the sequence of the records in insertion order;
    and after at least one call the file holds the serialisation of that
    whole sequence, which parses to the array of the records. *)
Theorem append_is_cumulative (lib : libraries) (records : list json)
  (w : world)
  (Habsent : archive w = None)
  (Hrecords : forallb well_formed records = true) :
  outcome_of (append_all lib records w) = Ret tt
  /\ archive_items (world_of (append_all lib records w)) = Some records
  /\ match records with
     | [] => archive (world_of (append_all lib records w)) = None
     | _ :: _ =>
         archive (world_of (append_all lib records w))
         = Some (json_dumps (float_repr lib) (Some 4%nat) (JArr records))
         /\ json_loads (json_dumps (float_repr lib) (Some 4%nat) (JArr records))
            = Scanned (JArr records) []
     end.
Proof.
  assert (Hitems : archive_items w = Some []).
  { unfold archive_items. now rewrite Habsent. }
  destruct (append_all_run lib records Hrecords w [] Hitems eq_refl)
    as (Ho & Ha & Hm).
  cbn [app] in *. split; [exact Ho|]. split; [exact Ha|].
  destruct records as [|r rs].
  - now rewrite Hm.
  - split; [exact Hm|]. now apply json_loads_dumps.
Qed.

Lemma append_is_cumulative_witness :
  archive empty_world = None
  /\ forallb well_formed [JObj [(lit "name", JStr (lit "A"))];
                          JObj [(lit "name", JStr (lit "B"))]] = true
  /\ archive_items
       (world_of (append_all (sample_lib one_page (Ret None) false)
                             [JObj [(lit "name", JStr (lit "A"))];
                              JObj [(lit "name", JStr (lit "B"))]]
                             empty_world))
     = Some [JObj [(lit "name", JStr (lit "A"))];
             JObj [(lit "name", JStr (lit "B"))]].
Proof.
  split; [reflexivity|]. split; [reflexivity|].
  exact (proj1 (proj2 (append_is_cumulative
                         (sample_lib one_page (Ret None) false)
                         [JObj [(lit "name", JStr (lit "A"))];
                          JObj [(lit "name", JStr (lit "B"))]]
                         empty_world eq_refl eq_refl))).
Defined.

(** * The scenarios of the specification *)

(** A PDF without pages: both strategies fail, the run reports that no text
    was extracted, the model is not called and the staged file is removed. *)
Example empty_pdf_run :
  app_script (sample_lib [] (Ret None) false) (Some sample_pdf) empty_world
  = (Ret tt, empty_world,
     [St Info FileUploaded; CallPdfplumber; St Warning TryingFitz; CallFitz;
      St Error NoTextExtracted]).
Proof. reflexivity. Qed.

(** The fenced answer for John Doe: [app.py] writes the archive with that
    one record and removes the staged file. *)
Example john_doe_archived :
  let answer :=
    lit "```json" ++ nl
    ++ json_lit "{'name':'John Doe','skills':['Go','Rust'],'education':'BS CS'}"
    ++ nl ++ lit "```" in
  let r := app_script (sample_lib one_page (Ret (Some answer)) false)
                      (Some sample_pdf) empty_world in
  outcome_of r = Ret tt
  /\ temp_resume (world_of r) = None
  /\ archive_items (world_of r)
     = Some [JObj [(lit "name", JStr (lit "John Doe"));
                   (lit "skills", JArr [JStr (lit "Go"); JStr (lit "Rust")]);
                   (lit "education", JStr (lit "BS CS"))]].
Proof. repeat split; vm_compute; reflexivity. Qed.

(** Prose instead of JSON: neither script stores anything. *)
Example prose_answer_stores_nothing :
  let lib := sample_lib one_page (Ret (Some (lit "I cannot process this"))) false in
  world_of (app_script lib (Some sample_pdf) empty_world) = empty_world
  /\ world_of (app2_script lib (Some sample_pdf) empty_world) = empty_world.
Proof. split; vm_compute; reflexivity. Qed.

(** * More on the normaliser *)

Lemma contains_tail (p : text) (c : N) (s : text) :
  contains p (c :: s) = false -> contains p s = false.
Proof. cbn [contains]. intro H. now apply orb_false_iff in H. Qed.

Lemma contains_lstrip (p s : text) :
  contains p s = false -> contains p (lstrip s) = false.
Proof.
  induction s as [|c s IH]; intro H; [exact H|].
  cbn [lstrip]. destruct (is_space c); [|exact H].
  apply IH. now apply contains_tail in H.
Qed.

Lemma startswith_app_l (p x y : text) :
  startswith p x = true -> startswith p (x ++ y) = true.
Proof.
  intro H. destruct (startswith_split _ _ H) as [x' ->].
  rewrite <- app_assoc. apply startswith_app.
Qed.

Lemma contains_fence_app_l (x y : text) :
  contains fence (x ++ y) = false -> contains fence x = false.
Proof.
  induction x as [|c x IH]; intro H; [reflexivity|].
  cbn [app contains] in H |- *. apply orb_false_iff in H as [H1 H2].
  rewrite (IH H2), orb_false_r.
  destruct (startswith fence (c :: x)) eqn:E; [|reflexivity].
  apply (startswith_app_l _ _ y) in E. cbn [app] in E. congruence.
Qed.

Lemma lstrip_suffix (s : text) : exists a, s = a ++ lstrip s.
Proof.
  induction s as [|c s (a & IH)]; [now exists []|].
  cbn [lstrip]. destruct (is_space c).
  - exists (c :: a). cbn [app]. now rewrite <- IH.
  - now exists [].
Qed.

Lemma rstrip_prefix (s : text) : exists b, s = rstrip s ++ b.
Proof.
  unfold rstrip. destruct (lstrip_suffix (rev s)) as (a & E).
  exists (rev a). rewrite <- rev_app_distr, <- E. now rewrite rev_involutive.
Qed.

Lemma contains_fence_strip (s : text) :
  contains fence s = false -> contains fence (strip s) = false.
Proof.
  intro H. unfold strip. apply contains_lstrip in H.
  destruct (rstrip_prefix (lstrip s)) as (b & E).
  rewrite E in H. now apply contains_fence_app_l in H.
Qed.

Lemma lstrip_idempotent (s : text) : lstrip (lstrip s) = lstrip s.
Proof.
  induction s as [|c s IH]; [reflexivity|].
  cbn [lstrip]. destruct (is_space c) eqn:E; [exact IH|].
  cbn [lstrip]. now rewrite E.
Qed.

Lemma lstrip_snoc (x : text) (c : N) :
  is_space c = false -> lstrip (x ++ [c]) = lstrip x ++ [c].
Proof.
  intro H. induction x as [|a x IH]; cbn [app lstrip]; [now rewrite H|].
  destruct (is_space a); [exact IH|reflexivity].
Qed.

Lemma rstrip_cons (c : N) (s : text) :
  is_space c = false -> rstrip (c :: s) = c :: rstrip s.
Proof.
  intro H. unfold rstrip. cbn [rev]. rewrite lstrip_snoc by exact H.
  now rewrite rev_app_distr.
Qed.

Lemma strip_idempotent (s : text) : strip (strip s) = strip s.
Proof.
  unfold strip.
  assert (Hl : lstrip (rstrip (lstrip s)) = rstrip (lstrip s)).
  { pose proof (lstrip_idempotent s) as Hi.
    destruct (lstrip s) as [|c y]; [reflexivity|].
    cbn [lstrip] in Hi. destruct (is_space c) eqn:E.
    - exfalso. clear -Hi. destruct (lstrip_suffix y) as (a & Ea).
      rewrite Hi in Ea. apply (f_equal (@List.length N)) in Ea.
      rewrite length_app in Ea. cbn in Ea. lia.
    - rewrite rstrip_cons by exact E. cbn [lstrip]. now rewrite E. }
  rewrite Hl. unfold rstrip. now rewrite rev_involutive, lstrip_idempotent.
Qed.

Lemma remove_fences_idempotent (s : text) :
  remove_fences (remove_fences s) = remove_fences s.
Proof.
  apply remove_fences_clean, (erases_no_fence s), remove_fences_erases.
Qed.

(** X1.  The normaliser's cleaning is idempotent: the text it hands to the
    decoder holds no fence marker and no surrounding whitespace any more, so
    normalising that cleaned text gives the result of normalising the
    answer itself. *)
Theorem cleaning_is_idempotent (s : text) (w : world) :
  contains fence (strip (remove_fences s)) = false
  /\ strip (remove_fences (strip (remove_fences s))) = strip (remove_fences s)
  /\ convert_llm_output_to_dict (Some (strip (remove_fences s))) w
     = convert_llm_output_to_dict (Some s) w.
Proof.
  assert (Hc : contains fence (strip (remove_fences s)) = false).
  { apply contains_fence_strip, (erases_no_fence s), remove_fences_erases. }
  assert (He : strip (remove_fences (strip (remove_fences s)))
               = strip (remove_fences s)).
  { rewrite (remove_fences_clean _ Hc). apply strip_idempotent. }
  split; [exact Hc|]. split; [exact He|].
  now rewrite !convert_run, He.
Qed.

Lemma startswith_fence_snoc_app (y : text) (c : N) (z : text) :
  c <> 96 ->
  startswith fence ((y ++ [c]) ++ z) = startswith fence (y ++ [c]).
Proof.
  intro Hc. assert (E : (96 =? c) = false) by (apply N.eqb_neq; lia).
  unfold fence. destruct y as [|a [|b [|b2 y]]]; cbn [app startswith].
  - now rewrite E.
  - rewrite E. now rewrite !andb_false_r.
  - rewrite E. now rewrite !andb_false_r.
  - reflexivity.
Qed.

Lemma remove_fences_before (y : text) (c : N) (z : text) :
  c <> 96 -> contains fence (y ++ [c]) = false ->
  remove_fences ((y ++ [c]) ++ z) = (y ++ [c]) ++ remove_fences z.
Proof.
  intros Hc. induction y as [|a y IH]; intro H.
  - cbn [app] in *. rewrite remove_fences_keep; [reflexivity|].
    unfold fence. cbn [startswith].
    replace (96 =? c) with false by (symmetry; apply N.eqb_neq; lia).
    reflexivity.
  - pose proof H as H'. cbn [app contains] in H'.
    apply orb_false_iff in H' as [H1 H2].
    change ((a :: y) ++ [c]) with (a :: (y ++ [c])) in *.
    change ((a :: (y ++ [c])) ++ z) with (a :: ((y ++ [c]) ++ z)).
    rewrite remove_fences_keep.
    + now rewrite IH.
    + change (a :: ((y ++ [c]) ++ z)) with (((a :: y) ++ [c]) ++ z).
      rewrite startswith_fence_snoc_app by exact Hc. exact H1.
Qed.

Lemma contains_fence_snoc (b : text) (c : N) :
  c <> 96 -> contains fence b = false -> contains fence (b ++ [c]) = false.
Proof.
  intros Hc. induction b as [|a b IH]; intro H.
  - unfold fence. cbn [app contains startswith].
    replace (96 =? c) with false by (symmetry; apply N.eqb_neq; lia).
    reflexivity.
  - cbn [contains] in H. apply orb_false_iff in H as [H1 H2].
    cbn [app contains]. rewrite (IH H2), orb_false_r.
    change (a :: b ++ [c]) with ((a :: b) ++ [c]).
    destruct (startswith fence ((a :: b) ++ [c])) eqn:E; [|reflexivity].
    exfalso. unfold fence in *.
    destruct b as [|b1 [|b2 b]]; cbn [app startswith] in E, H1.
    + replace (96 =? c) with false in E by (symmetry; apply N.eqb_neq; lia).
      now rewrite andb_false_r in E.
    + replace (96 =? c) with false in E by (symmetry; apply N.eqb_neq; lia).
      now rewrite !andb_false_r in E.
    + congruence.
Qed.

Lemma strip_lines (a : N) (l : text) :
  is_space a = false -> strip (nl ++ (a :: l) ++ nl) = strip (a :: l).
Proof.
  intro Ha. unfold strip, nl. cbn [app].
  change (lstrip (10 :: a :: l ++ [10])) with (lstrip (a :: l ++ [10])).
  cbn [lstrip]. rewrite Ha.
  unfold rstrip. change (a :: l ++ [10]) with ((a :: l) ++ [10]).
  rewrite rev_app_distr. cbn [rev app].
  change (lstrip (10 :: rev l ++ [a])) with (lstrip (rev l ++ [a])).
  reflexivity.
Qed.

(** The cleaned text of a fenced body. *)
Lemma clean_fenced (tagged : bool) (a : N) (l : text) :
  is_space a = false ->
  contains fence (a :: l) = false ->
  strip (remove_fences (fenced tagged (a :: l))) = strip (a :: l).
Proof.
  intros Ha Hc. unfold fenced.
  assert (E : remove_fences (nl ++ (a :: l) ++ nl ++ fence)
              = nl ++ (a :: l) ++ nl).
  { replace (nl ++ (a :: l) ++ nl ++ fence)
      with (((10 :: a :: l) ++ [10]) ++ fence)
      by (unfold nl; cbn [app]; now rewrite <- app_assoc).
    rewrite remove_fences_before.
    - change (remove_fences fence) with (@nil N). now rewrite app_nil_r.
    - discriminate.
    - apply contains_fence_snoc; [discriminate|].
      change (contains fence (10 :: a :: l))
        with (startswith fence (10 :: a :: l) || contains fence (a :: l)).
      rewrite Hc. reflexivity. }
  destruct tagged.
  - rewrite remove_fences_tagged, E. now apply strip_lines.
  - rewrite remove_fences_plain by reflexivity. rewrite E.
    now apply strip_lines.
Qed.

Lemma json_dumps_record_head (fr : text -> text) (indent : option nat)
  (d : pydict) :
  exists l, json_dumps fr indent (JObj d) = 123 :: l.
Proof. unfold json_dumps. destruct d; eexists; reflexivity. Qed.

(** X2.  A record in a fence comes back: for every StructuredRecord whose
    serialised text (compact or indented) holds no three backticks, the
    answer made of that text between an opening fence, tagged [json] or
    not, and a closing fence, each on a line of its own, normalises to the
    record. *)
Theorem fenced_record_normalizes (fr : text -> text) (indent : option nat)
  (r : json) (tagged : bool) (w : world)
  (Hrecord : structured_record r = true)
  (Hclean : contains fence (json_dumps fr indent r) = false) :
  convert_llm_output_to_dict (Some (fenced tagged (json_dumps fr indent r))) w
  = (Ret (Some r), w, []).
Proof.
  destruct r as [ | | | | | |d]; try discriminate Hrecord.
  destruct (json_dumps_record_head fr indent d) as (l & E).
  rewrite convert_run, E, clean_fenced; [|reflexivity|now rewrite <- E].
  rewrite <- E, strip_dumps_record. now rewrite json_loads_dumps.
Qed.

Lemma fenced_record_normalizes_witness :
  structured_record (JObj [(lit "name", JStr (lit "A"))]) = true
  /\ convert_llm_output_to_dict
       (Some (fenced false (json_dumps (fun l => l) (Some 4%nat)
                                       (JObj [(lit "name", JStr (lit "A"))]))))
       empty_world
     = (Ret (Some (JObj [(lit "name", JStr (lit "A"))])), empty_world, []).
Proof.
  split; [reflexivity|].
  exact (fenced_record_normalizes (fun l => l) (Some 4%nat)
           (JObj [(lit "name", JStr (lit "A"))]) false empty_world
           eq_refl eq_refl).
Defined.

(** * More on the archive of [app.py] *)

Lemma archive_items_of (w : world) (content : text) (items : list json) :
  archive w = Some content ->
  json_loads content = Scanned (JArr items) [] ->
  archive_items w = Some items.
Proof. intros Ha Hl. unfold archive_items. now rewrite Ha, Hl. Qed.

(** X3.  Appending to an archive that holds a JSON array, however it was
    written: the call succeeds, reports the save, and the file then parses
    to the old items, in their order, followed by the new record; the
    staged upload and the collection are as before. *)
Theorem append_keeps_old_items (lib : libraries) (w : world) (content : text)
  (items : list json) (data : json)
  (Harchive : archive w = Some content)
  (Hcontent : json_loads content = Scanned (JArr items) [])
  (Hitems : forallb well_formed items = true)
  (Hdata : well_formed data = true) :
  exists content',
    save_to_json lib data w
    = (Ret tt, with_archive w content', [St Success SavedToFile])
    /\ json_loads content' = Scanned (JArr (items ++ [data])) [].
Proof.
  exists (json_dumps (float_repr lib) (Some 4%nat) (JArr (items ++ [data]))).
  split.
  - now rewrite save_to_json_run, (archive_items_of w content items).
  - apply json_loads_dumps. cbn [well_formed].
    rewrite forallb_app, Hitems. cbn [forallb]. now rewrite Hdata.
Qed.

Lemma append_keeps_old_items_witness :
  exists content',
    save_to_json (sample_lib one_page (Ret None) false) (JInt 2)
      {| temp_resume := None; archive := Some (lit "[1]"); collection := [] |}
    = (Ret tt,
       with_archive
         {| temp_resume := None; archive := Some (lit "[1]"); collection := [] |}
         content',
       [St Success SavedToFile])
    /\ json_loads content' = Scanned (JArr ([JInt 1] ++ [JInt 2])) [].
Proof.
  exact (append_keeps_old_items (sample_lib one_page (Ret None) false)
           {| temp_resume := None; archive := Some (lit "[1]");
              collection := [] |}
           (lit "[1]") [JInt 1] (JInt 2) eq_refl eq_refl eq_refl eq_refl).
Defined.

(** X4.  An archive that does not decode is taken for an empty one: the
    call succeeds with no warning, and the file then holds the new record
    alone; what the file held before is gone. *)
Theorem corrupt_archive_is_replaced (lib : libraries) (w : world)
  (content : text) (d : decode_error) (data : json)
  (Harchive : archive w = Some content)
  (Hcorrupt : json_loads content = Malformed d)
  (Hdata : well_formed data = true) :
  save_to_json lib data w
  = (Ret tt,
     with_archive w (json_dumps (float_repr lib) (Some 4%nat) (JArr [data])),
     [St Success SavedToFile])
  /\ json_loads (json_dumps (float_repr lib) (Some 4%nat) (JArr [data]))
     = Scanned (JArr [data]) [].
Proof.
  split.
  - rewrite save_to_json_run. unfold archive_items.
    now rewrite Harchive, Hcorrupt.
  - apply json_loads_dumps. cbn [well_formed forallb]. now rewrite Hdata.
Qed.

Lemma corrupt_archive_is_replaced_witness :
  json_loads (lit "[1, 2") = Malformed ExpectingCommaDelimiter
  /\ save_to_json (sample_lib one_page (Ret None) false) (JInt 3)
       {| temp_resume := None; archive := Some (lit "[1, 2");
          collection := [] |}
     = (Ret tt,
        {| temp_resume := None;
           archive := Some [91; 10; 32; 32; 32; 32; 51; 10; 93];
           collection := [] |},
        [St Success SavedToFile]).
Proof.
  split; [reflexivity|].
  exact (proj1 (corrupt_archive_is_replaced
                  (sample_lib one_page (Ret None) false)
                  {| temp_resume := None; archive := Some (lit "[1, 2");
                     collection := [] |}
                  (lit "[1, 2") ExpectingCommaDelimiter (JInt 3)
                  eq_refl eq_refl eq_refl)).
Defined.

(** What a decoded text holds when it is no array. *)
Lemma archive_items_none (w : world) (content : text) (v : json) :
  archive w = Some content ->
  json_loads content = Scanned v [] ->
  (forall items, v <> JArr items) ->
  archive_items w = None.
Proof.
  intros Ha Hl Hv. unfold archive_items. rewrite Ha, Hl.
  destruct v as [ | | | | |items| ]; try reflexivity. now destruct (Hv items).
Qed.

(** X5.  An archive that holds valid JSON which is no array (an object, a
    string, a number, [null]): the call raises [AttributeError] at
    [append]; nothing is written and no save is reported. *)
Theorem non_array_archive_raises (lib : libraries) (w : world)
  (content : text) (v data : json)
  (Harchive : archive w = Some content)
  (Hcontent : json_loads content = Scanned v [])
  (Hvalue : forall items, v <> JArr items) :
  save_to_json lib data w = (Raise AttributeError, w, []).
Proof.
  now rewrite save_to_json_run, (archive_items_none w content v).
Qed.

Lemma non_array_archive_raises_witness :
  save_to_json (sample_lib one_page (Ret None) false) (JInt 3)
    {| temp_resume := None; archive := Some (lit "{}"); collection := [] |}
  = (Raise AttributeError,
     {| temp_resume := None; archive := Some (lit "{}"); collection := [] |},
     []).
Proof.
  refine (non_array_archive_raises (sample_lib one_page (Ret None) false)
            {| temp_resume := None; archive := Some (lit "{}");
               collection := [] |}
            (lit "{}") (JObj []) (JInt 3) eq_refl eq_refl _).
  intros items H. discriminate H.
Defined.

(** * More on the sink of [app2.py] *)

(** A call of the sink either leaves the state as it is or appends one
    entry whose id is new. *)
Lemma sink_cases (lib : libraries) (data : text) (w : world) :
  (exists tr,
      save_to_chromadb lib data w = (Ret tt, w, tr)
      /\ (forall p, ~ In (CallGroq p) tr)
      /\ (forall k, tr = [St Write (SavedToChromaDB k)] ->
          str_in k (peek_ids (collection w)) = false
          /\ str_in k (List.map entry_id (collection w)) = true))
  \/ (exists d s,
         json_loads (strip (remove_fences data)) = Scanned (JObj d) []
         /\ is_nil data = false
         /\ d <> []
         /\ name_or_unknown d = JStr s
         /\ str_in (candidate_key (unicode_lower lib) s)
                   (peek_ids (collection w)) = false
         /\ str_in (candidate_key (unicode_lower lib) s)
                   (List.map entry_id (collection w)) = false
         /\ validate_id lib (candidate_key (unicode_lower lib) s) = Ret tt
         /\ save_to_chromadb lib data w
            = (Ret tt,
               with_collection w
                 (collection w ++
                  [{| entry_id := candidate_key (unicode_lower lib) s;
                      entry_document :=
                        json_dumps (float_repr lib) None (JObj d);
                      entry_name := s |}]),
               [St Write
                  (SavedToChromaDB (candidate_key (unicode_lower lib) s))])).
Proof.
  rewrite save_to_chromadb_run.
  destruct (is_nil data) eqn:En.
  { left. eexists. split; [reflexivity|]. split.
    - intros p [H|[]]; discriminate H.
    - intros k H; discriminate H. }
  destruct (json_loads (strip (remove_fences data))) as [v rest|e|] eqn:El.
  - apply json_loads_rest in El as Hr. subst rest.
    destruct (truthy v) eqn:Et.
    + destruct v as [ | | | | | |d];
        try (left; eexists; split; [reflexivity|]; split;
             [intros p [H|[]]; discriminate H|intros k H; discriminate H]).
      destruct (name_or_unknown d) as [ | | | |s| | ] eqn:Ename;
        try (left; eexists; split; [reflexivity|]; split;
             [intros p [H|[]]; discriminate H|intros k H; discriminate H]).
      destruct (str_in (candidate_key (unicode_lower lib) s)
                       (peek_ids (collection w))) eqn:Ep.
      { left; eexists; split; [reflexivity|]; split;
          [intros p [H|[]]; discriminate H|intros k H; discriminate H]. }
      destruct (validate_id lib (candidate_key (unicode_lower lib) s))
        as [[]|err] eqn:Ev.
      2: { left; eexists; split; [reflexivity|]; split;
             [intros p [H|[]]; discriminate H|intros k H; discriminate H]. }
      destruct (str_in (candidate_key (unicode_lower lib) s)
                       (List.map entry_id (collection w))) eqn:Ei.
      * left. destruct (add_raises_on_duplicate lib);
          (eexists; split; [reflexivity|]; split;
           [intros p [H|[]]; discriminate H|]).
        -- intros k H; discriminate H.
        -- intros k H. injection H as <-. now split.
      * right. exists d, s. repeat (split; [first [reflexivity|assumption]|]).
        split; [now destruct d|]. 
        repeat (split; [first [reflexivity|assumption]|]). reflexivity.
    + left; eexists; split; [reflexivity|]; split;
        [intros p [H|[]]; discriminate H|intros k H; discriminate H].
  - left; eexists; split; [reflexivity|]; split;
      [intros p [H|[H|[]]]; discriminate H|intros k H; discriminate H].
  - left; eexists; split; [reflexivity|]; split;
      [intros p [H|[]]; discriminate H|intros k H; discriminate H].
Qed.

Lemma outcome_of_run {A : Type} (o : outcome A) (w : world)
  (t : list event) : outcome_of (o, w, t) = o.
Proof. reflexivity. Qed.

Lemma world_of_run {A : Type} (o : outcome A) (w : world) (t : list event) :
  world_of (o, w, t) = w.
Proof. reflexivity. Qed.

Lemma trace_of_run {A : Type} (o : outcome A) (w : world) (t : list event) :
  trace_of (o, w, t) = t.
Proof. reflexivity. Qed.

Lemma upsert_all_cons (lib : libraries) (a : text) (rest : list text)
  (w : world) :
  upsert_all lib (a :: rest) w
  = (outcome_of (upsert_all lib rest (world_of (save_to_chromadb lib a w))),
     world_of (upsert_all lib rest (world_of (save_to_chromadb lib a w))),
     trace_of (save_to_chromadb lib a w)
     ++ trace_of (upsert_all lib rest (world_of (save_to_chromadb lib a w)))).
Proof.
  cbn [upsert_all]. unfold bind.
  destruct (save_to_chromadb_returns lib a w) as (Ho & _).
  destruct (save_to_chromadb lib a w) as [[o w1] t1].
  unfold outcome_of, world_of, trace_of in *. cbn [fst snd] in *. subst o.
  now destruct (upsert_all lib rest w1) as [[o2 w2] t2].
Qed.

(** An invariant of the sink is an invariant of every sequence of calls. *)
Lemma upsert_all_invariant (lib : libraries) (P : world -> Prop) :
  (forall data w, P w -> P (world_of (save_to_chromadb lib data w))) ->
  forall answers w, P w -> P (world_of (upsert_all lib answers w)).
Proof.
  intros Hstep answers. induction answers as [|a rest IH]; intros w Hw.
  - exact Hw.
  - rewrite upsert_all_cons, world_of_run. apply IH, Hstep, Hw.
Qed.

(** X6.  The sink never raises and only ever appends: after any sequence of
    model answers, each given to [save_to_chromadb] in turn, the run has
    returned, the staged upload and the archive are untouched, the entries
    the collection had are still there in their order, and at most one
    entry per answer came after them. *)
Theorem sink_only_appends (lib : libraries) (answers : list text) (w : world) :
  outcome_of (upsert_all lib answers w) = Ret tt
  /\ temp_resume (world_of (upsert_all lib answers w)) = temp_resume w
  /\ archive (world_of (upsert_all lib answers w)) = archive w
  /\ exists added,
       collection (world_of (upsert_all lib answers w))
       = collection w ++ added
       /\ (List.length added <= List.length answers)%nat.
Proof.
  revert w. induction answers as [|a rest IH]; intro w.
  - repeat split. exists []. now rewrite app_nil_r.
  - rewrite upsert_all_cons, outcome_of_run, !world_of_run.
    destruct (IH (world_of (save_to_chromadb lib a w)))
      as (Ho & Ht & Ha & added & Hc & Hl).
    destruct (save_to_chromadb_returns lib a w) as (_ & Ht1 & Ha1).
    split; [exact Ho|]. split; [congruence|]. split; [congruence|].
    destruct (sink_cases lib a w) as [(tr & E & _)|(d & s & _ & _ & _ & _ & _ & _ & _ & E)];
      rewrite E, world_of_run in Hc |- *.
    + exists added. split; [exact Hc|]. cbn [List.length]. lia.
    + cbn [with_collection collection] in Hc. rewrite <- app_assoc in Hc.
      eexists. split; [exact Hc|]. cbn [List.length app]. lia.
Qed.

(** X7.  The ids of the collection stay pairwise distinct over any sequence
    of calls of the sink, also once the collection is longer than what
    [peek] returns. *)
Theorem ids_stay_distinct (lib : libraries) (answers : list text) (w : world)
  (Hdistinct : keys_distinct (List.map entry_id (collection w)) = true) :
  keys_distinct
    (List.map entry_id (collection (world_of (upsert_all lib answers w))))
  = true.
Proof.
  revert w Hdistinct.
  apply (upsert_all_invariant lib
           (fun w => keys_distinct (List.map entry_id (collection w)) = true)).
  intros data w. apply upsert_keeps_ids_distinct.
Qed.

Lemma ids_stay_distinct_witness :
  keys_distinct
    (List.map entry_id
       (collection
          (world_of
             (upsert_all (sample_lib one_page (Ret None) false)
                [answer_named (lit "A B"); answer_named (lit "a_b")]
                empty_world))))
  = true.
Proof.
  exact (ids_stay_distinct (sample_lib one_page (Ret None) false)
           [answer_named (lit "A B"); answer_named (lit "a_b")]
           empty_world eq_refl).
Defined.

(** X8.  Every id is the key of the entry's own name: if each entry of the
    collection has as id the key derived from the name in its metadata,
    this is still so after any sequence of calls of the sink. *)
Theorem ids_stay_keys (lib : libraries) (answers : list text) (w : world)
  (Hkeys : ids_are_keys lib (collection w)) :
  ids_are_keys lib (collection (world_of (upsert_all lib answers w))).
Proof.
  revert w Hkeys.
  apply (upsert_all_invariant lib (fun w => ids_are_keys lib (collection w))).
  intros data w Hw.
  destruct (sink_cases lib data w)
    as [(tr & E & _)|(d & s & _ & _ & _ & _ & _ & _ & _ & E)];
    rewrite E, world_of_run; [exact Hw|].
  cbn [with_collection collection]. unfold ids_are_keys.
  apply Forall_app. split; [exact Hw|].
  constructor; [reflexivity|constructor].
Qed.

Lemma ids_stay_keys_witness :
  ids_are_keys (sample_lib one_page (Ret None) false)
    (collection
       (world_of
          (upsert_all (sample_lib one_page (Ret None) false)
             [answer_named (lit "John Doe")] empty_world))).
Proof.
  refine (ids_stay_keys (sample_lib one_page (Ret None) false)
            [answer_named (lit "John Doe")] empty_world _).
  constructor.
Defined.

Lemma str_in_snoc (k : text) (ks : list text) : str_in k (ks ++ [k]) = true.
Proof.
  unfold str_in. rewrite existsb_app. cbn [existsb].
  now rewrite text_eqb_refl, orb_true_r.
Qed.

(** X9.  While the collection has fewer than ten entries, giving the sink
    the same answer a second time changes nothing: the state after the
    second call is the state after the first, and when the first call
    reported a save the second reports the duplicate. *)
Theorem second_upsert_changes_nothing (lib : libraries) (data : text)
  (w : world)
  (Hsmall : (List.length (collection w) < peek_limit)%nat) :
  world_of (save_to_chromadb lib data (world_of (save_to_chromadb lib data w)))
  = world_of (save_to_chromadb lib data w)
  /\ forall k,
       trace_of (save_to_chromadb lib data w) = [St Write (SavedToChromaDB k)] ->
       trace_of (save_to_chromadb lib data
                   (world_of (save_to_chromadb lib data w)))
       = [St Warning (AlreadyExists k)].
Proof.
  destruct (sink_cases lib data w)
    as [(tr & E & _ & Hw)|(d & s & Hl & Hn & Hd & Hname & _ & _ & Hv & E)].
  - rewrite E, !world_of_run, trace_of_run, E. split; [reflexivity|].
    intros k Hk. destruct (Hw k Hk) as (Hp & Hi).
    rewrite peek_ids_all in Hp by lia. congruence.
  - rewrite E, !world_of_run, trace_of_run.
    assert (E2 : save_to_chromadb lib data
                   (with_collection w
                      (collection w ++
                       [{| entry_id := candidate_key (unicode_lower lib) s;
                           entry_document :=
                             json_dumps (float_repr lib) None (JObj d);
                           entry_name := s |}]))
                 = (Ret tt,
                    with_collection w
                      (collection w ++
                       [{| entry_id := candidate_key (unicode_lower lib) s;
                           entry_document :=
                             json_dumps (float_repr lib) None (JObj d);
                           entry_name := s |}]),
                    [St Warning
                       (AlreadyExists (candidate_key (unicode_lower lib) s))])).
    { rewrite save_to_chromadb_run, Hn, Hl, Hname.
      replace (truthy (JObj d)) with true by now destruct d.
      cbn [with_collection collection].
      rewrite peek_ids_all.
      - rewrite map_app. cbn [List.map entry_id]. now rewrite str_in_snoc.
      - rewrite length_app. cbn [List.length]. lia. }
    rewrite E2. split; [reflexivity|].
    intros k Hk. now injection Hk as <-.
Qed.

Lemma second_upsert_changes_nothing_witness :
  world_of (save_to_chromadb (sample_lib one_page (Ret None) false)
              (answer_named (lit "John Doe"))
              (world_of (save_to_chromadb (sample_lib one_page (Ret None) false)
                           (answer_named (lit "John Doe")) empty_world)))
  = world_of (save_to_chromadb (sample_lib one_page (Ret None) false)
                (answer_named (lit "John Doe")) empty_world).
Proof.
  refine (proj1 (second_upsert_changes_nothing
                   (sample_lib one_page (Ret None) false)
                   (answer_named (lit "John Doe")) empty_world _)).
  unfold peek_limit. cbn. lia.
Defined.

Lemma lower_cp_cases (c : N) :
  (lower_cp c = c + 32
   /\ (65 <= c <= 90 \/ (192 <= c <= 222 /\ c <> 215)))
  \/ (lower_cp c = c
      /\ ~ (65 <= c <= 90) /\ ~ (192 <= c <= 222 /\ c <> 215)).
Proof.
  unfold lower_cp.
  destruct (N.leb_spec 65 c), (N.leb_spec c 90), (N.leb_spec 192 c),
    (N.leb_spec c 222), (N.eqb_spec c 215); cbn [andb orb negb]; lia.
Qed.

Lemma key_cp_normal (c : N) :
  let k := if c =? 32 then 95 else lower_cp c in
  k <> 32 /\ ~ (65 <= k <= 90)
  /\ (if k =? 32 then 95 else lower_cp k) = k
  /\ (c <= 255 -> k <= 255).
Proof.
  cbv zeta. destruct (N.eqb_spec c 32) as [->|Hc].
  - split; [lia|]. split; [lia|]. split; [reflexivity|lia].
  - assert (Hk : lower_cp c <> 32).
    { intro E. apply (proj1 (lower_cp_space c)) in E. contradiction. }
    destruct (N.eqb_spec (lower_cp c) 32) as [E|_]; [contradiction|].
    split; [exact Hk|].
    destruct (lower_cp_cases c) as [(E & H)|(E & H)]; rewrite E.
    + destruct (lower_cp_cases (c + 32)) as [(E2 & H2)|(E2 & H2)];
        (split; [lia|split; lia]).
    + split; [lia|]. split; [now rewrite E|lia].
Qed.

Lemma candidate_key_stays_latin1 (ul : text -> text) (name : text) :
  latin1 name = true -> latin1 (candidate_key ul name) = true.
Proof.
  intro H. rewrite (candidate_key_latin1 ul name H).
  unfold latin1 in *. rewrite forallb_forall in *.
  intros k Hk. apply in_map_iff in Hk as (c & <- & Hc).
  apply N.leb_le. apply (key_cp_normal c). apply N.leb_le. now apply H.
Qed.

(** X10.  The key of a name of code points up to U+00FF is a normal form:
    it holds no space and no capital A-Z, and deriving a key from it gives
    the same key again; so such a name and its own key (as [John Doe] and
    [john_doe]) always share one id. *)
Theorem key_is_normal_form (lib : libraries) (name : text)
  (Hlatin : latin1 name = true) :
  candidate_key (unicode_lower lib) (candidate_key (unicode_lower lib) name)
  = candidate_key (unicode_lower lib) name
  /\ ~ In 32 (candidate_key (unicode_lower lib) name)
  /\ forall c, In c (candidate_key (unicode_lower lib) name) ->
               ~ (65 <= c <= 90).
Proof.
  rewrite (candidate_key_latin1 _ _
             (candidate_key_stays_latin1 (unicode_lower lib) name Hlatin)).
  rewrite (candidate_key_latin1 _ name Hlatin), map_map.
  split; [|split].
  - apply map_ext. intro c. apply (key_cp_normal c).
  - intro H. apply in_map_iff in H as (c & E & _).
    now apply (proj1 (key_cp_normal c)).
  - intros k H. apply in_map_iff in H as (c & <- & _).
    apply (proj1 (proj2 (key_cp_normal c))).
Qed.

Lemma key_is_normal_form_witness :
  candidate_key (unicode_lower (sample_lib one_page (Ret None) false))
    (lit "john_doe")
  = lit "john_doe"
  /\ ~ In 32 (lit "john_doe").
Proof.
  pose proof (key_is_normal_form (sample_lib one_page (Ret None) false)
                (lit "John Doe") eq_refl) as (H1 & H2 & _).
  split; [exact H1|exact H2].
Defined.

(** X11.  What the sink stores can be read back: when the answer is a
    StructuredRecord whose key is not empty and no id of the collection,
    the sink adds one entry, the last of the collection; its id is the key
    of the record's name, and its document decodes to the record. *)
Theorem stored_document_decodes (lib : libraries) (data : text) (w : world)
  (d : pydict) (name : text)
  (Hparsed : json_loads (strip (remove_fences data)) = Scanned (JObj d) [])
  (Hrecord : structured_record (JObj d) = true)
  (Hnonempty : d <> [])
  (Hname : name_or_unknown d = JStr name)
  (Hkey : candidate_key (unicode_lower lib) name <> [])
  (Hnew : str_in (candidate_key (unicode_lower lib) name)
                 (List.map entry_id (collection w))
          = false) :
  exists e,
    collection (world_of (save_to_chromadb lib data w)) = collection w ++ [e]
    /\ entry_id e = candidate_key (unicode_lower lib) name
    /\ entry_name e = name
    /\ json_loads (entry_document e) = Scanned (JObj d) [].
Proof.
  assert (Hd : is_nil data = false).
  { destruct data; [discriminate Hparsed|reflexivity]. }
  assert (Ht : truthy (JObj d) = true) by now destruct d.
  rewrite save_to_chromadb_run, Hd, Hparsed, Ht, Hname.
  destruct (str_in (candidate_key (unicode_lower lib) name)
                   (peek_ids (collection w))) eqn:Hp.
  { apply peek_ids_in in Hp. congruence. }
  rewrite (validate_id_nonempty lib _ Hkey), Hnew, world_of_run.
  cbn [with_collection collection].
  eexists. split; [reflexivity|]. cbn [entry_id entry_name entry_document].
  split; [reflexivity|]. split; [reflexivity|].
  now apply json_loads_dumps.
Qed.

Lemma stored_document_decodes_witness :
  exists e,
    collection
      (world_of (save_to_chromadb (sample_lib one_page (Ret None) false)
                   (answer_named (lit "John Doe")) empty_world))
    = collection empty_world ++ [e]
    /\ entry_id e = lit "john_doe"
    /\ entry_name e = lit "John Doe"
    /\ json_loads (entry_document e)
       = Scanned (JObj [(lit "name", JStr (lit "John Doe"))]) [].
Proof.
  refine (stored_document_decodes (sample_lib one_page (Ret None) false)
            (answer_named (lit "John Doe")) empty_world
            [(lit "name", JStr (lit "John Doe"))] (lit "John Doe")
            eq_refl eq_refl _ eq_refl _ eq_refl); discriminate.
Defined.

(** * More on the text extraction *)

Lemma is_nil_false {A : Type} (l : list A) : is_nil l = false -> l <> [].
Proof. destruct l; [discriminate|intros _ H; discriminate H]. Qed.

Lemma extract_text_with_pdfplumber_returns (lib : libraries) :
  returns_text_or_nothing (extract_text_with_pdfplumber lib).
Proof.
  intro w. destruct (temp_resume w) as [data|] eqn:Et.
  - rewrite (extract_text_with_pdfplumber_run lib w data Et).
    destruct (pdfplumber_open lib data) as [pages|e];
      [destruct (join_pdfplumber_pages pages) as [t|e]|];
      try (do 2 eexists; split; [reflexivity|exact I]).
    destruct (is_nil (strip t)) eqn:E;
      do 2 eexists; (split; [reflexivity|]); [exact I|].
    now apply is_nil_false.
  - unfold extract_text_with_pdfplumber. run. rewrite Et. cbn.
    do 2 eexists. split; [reflexivity|exact I].
Qed.

Lemma extract_text_with_fitz_returns (lib : libraries) :
  returns_text_or_nothing (extract_text_with_fitz lib).
Proof.
  intro w. destruct (temp_resume w) as [data|] eqn:Et.
  - rewrite (extract_text_with_fitz_run lib w data Et).
    destruct (fitz_open lib data) as [pages|e];
      [destruct (join_fitz_pages pages) as [t|e]|];
      try (do 2 eexists; split; [reflexivity|exact I]).
    destruct (is_nil (strip t)) eqn:E;
      do 2 eexists; (split; [reflexivity|]); [exact I|].
    now apply is_nil_false.
  - unfold extract_text_with_fitz. run. rewrite Et. cbn.
    do 2 eexists. split; [reflexivity|exact I].
Qed.

(** X12.  The text extraction cannot fail and has no effect on the files:
    each strategy, and the two in sequence, return in every state (also
    when the staged file is missing, or the library raises on the file or on
    a page), leave the state as it is, and return either nothing or a text
    that is not blank. *)
Theorem extraction_never_raises (lib : libraries) :
  returns_text_or_nothing (extract_text_with_pdfplumber lib)
  /\ returns_text_or_nothing (extract_text_with_fitz lib)
  /\ returns_text_or_nothing (extract_text lib).
Proof.
  split; [apply extract_text_with_pdfplumber_returns|].
  split; [apply extract_text_with_fitz_returns|].
  intro w. unfold extract_text, bind.
  destruct (extract_text_with_pdfplumber_returns lib w) as (r & tr & E & Hr).
  rewrite E.
  destruct r as [[|c t]|]; cbn [truthy_str is_nil negb].
  - now destruct Hr.
  - cbn. rewrite app_nil_r. do 2 eexists. split; [reflexivity|exact Hr].
  - cbn.
    destruct (extract_text_with_fitz_returns lib w) as (r2 & tr2 & E2 & Hr2).
    rewrite E2. do 2 eexists. split; [reflexivity|exact Hr2].
Qed.

(** * More on the two scripts *)



(** X14.  The second way [app.py] leaves the staged file behind: the
    archive holds JSON that is no array and the model's answer normalises
    to a truthy value.  The run announces the extraction, then stops with
    [AttributeError] at [append]; the staged file stays and the archive is
    as it was. *)
Theorem non_array_archive_stops_app (lib : libraries) (data : list N)
  (w : world) (t s content : text) (v a : json)
  (Htext : extracted_text lib data = Some t)
  (Hanswer : groq_create lib (user_content t) = Ret (Some s))
  (Hparsed : json_loads (strip (remove_fences s)) = Scanned v [])
  (Htruthy : truthy v = true)
  (Harchive : archive w = Some content)
  (Hcontent : json_loads content = Scanned a [])
  (Hvalue : forall items, a <> JArr items) :
  outcome_of (app_script lib (Some data) w) = Raise AttributeError
  /\ world_of (app_script lib (Some data) w) = staged w data
  /\ In (St Success ExtractedSuccessfully)
        (trace_of (app_script lib (Some data) w)).
Proof.
  destruct (script_run lib data w app_process (app_script lib (Some data))
              eq_refl) as (tr & _ & _ & _ & _ & Hr).
  rewrite Hr, Htext, app_process_run, Hanswer, Hparsed, Htruthy. clear Hr.
  change (archive_items (staged w data)) with (archive_items w).
  rewrite (archive_items_none w content a Harchive Hcontent Hvalue).
  split; [reflexivity|]. split; [reflexivity|].
  rewrite trace_of_run. right. right. apply in_or_app. right.
  right. left. reflexivity.
Qed.

Lemma non_array_archive_stops_app_witness :
  outcome_of
    (app_script (sample_lib one_page (Ret (Some fenced_answer)) false)
       (Some sample_pdf)
       {| temp_resume := None; archive := Some (lit "{}"); collection := [] |})
  = Raise AttributeError
  /\ world_of
       (app_script (sample_lib one_page (Ret (Some fenced_answer)) false)
          (Some sample_pdf)
          {| temp_resume := None; archive := Some (lit "{}");
             collection := [] |})
     = {| temp_resume := Some sample_pdf; archive := Some (lit "{}");
          collection := [] |}.
Proof.
  assert (H : forall items, JObj [] <> JArr items)
    by (intros items E; discriminate E).
  pose proof (non_array_archive_stops_app
                (sample_lib one_page (Ret (Some fenced_answer)) false)
                sample_pdf
                {| temp_resume := None; archive := Some (lit "{}");
                   collection := [] |}
                (lit "John Doe") fenced_answer (lit "{}")
                (JObj [(lit "name", JStr (lit "A"))]) (JObj [])
                eq_refl eq_refl eq_refl eq_refl eq_refl eq_refl H)
    as (Ho & Hw & _).
  split; [exact Ho|exact Hw].
Defined.

(** X15.  A run of [app2.py] on an upload always returns and always removes
    the staged file; it never touches the archive, keeps the entries of the
    collection in their order and adds at most one after them.  (The query
    of line 140 is taken to return, as in the model of the script.) *)
Theorem app2_script_always_cleans_up (lib : libraries) (data : list N)
  (w : world) :
  outcome_of (app2_script lib (Some data) w) = Ret tt
  /\ temp_resume (world_of (app2_script lib (Some data) w)) = None
  /\ archive (world_of (app2_script lib (Some data) w)) = archive w
  /\ exists added,
       collection (world_of (app2_script lib (Some data) w))
       = collection w ++ added
       /\ (List.length added <= 1)%nat.
Proof.
  destruct (script_run lib data w app2_process (app2_script lib (Some data))
              eq_refl) as (tr & _ & _ & _ & _ & Hr).
  rewrite Hr. clear Hr.
  assert (Hnone : forall o t0,
             o = Ret tt ->
             outcome_of (o, unstaged (staged w data), t0) = Ret tt
             /\ temp_resume (world_of (o, unstaged (staged w data), t0)) = None
             /\ archive (world_of (o, unstaged (staged w data), t0)) = archive w
             /\ exists added,
                  collection (world_of (o, unstaged (staged w data), t0))
                  = collection w ++ added
                  /\ (List.length added <= 1)%nat).
  { intros o t0 ->. repeat split. exists []. rewrite app_nil_r.
    split; [reflexivity|cbn; lia]. }
  destruct (extracted_text lib data) as [t|]; [|now apply Hnone].
  rewrite app2_process_run.
  destruct (groq_create lib (user_content t)) as [[[|c s]|]|e];
    try (now apply Hnone).
  destruct (sink_cases lib (c :: s) (staged w data))
    as [(tr1 & E & _)|(d & n & _ & _ & _ & _ & _ & _ & _ & E)];
    rewrite E, world_of_run, trace_of_run.
  - now apply Hnone.
  - repeat split. eexists. split; [reflexivity|]. cbn. lia.
Qed.

Lemma groq_calls_app (a b : list event) :
  groq_calls (a ++ b) = groq_calls a ++ groq_calls b.
Proof. unfold groq_calls. apply flat_map_app. Qed.

Lemma groq_calls_none (tr : list event) :
  (forall p, ~ In (CallGroq p) tr) -> groq_calls tr = [].
Proof.
  induction tr as [|e tr IH]; intro H; [reflexivity|].
  cbn [groq_calls flat_map]. fold (groq_calls tr).
  rewrite IH by (intros p Hp; apply (H p); now right).
  destruct e as [| | | | | |p]; try reflexivity.
  exfalso. apply (H p). now left.
Qed.

(** X16.  Either script calls the model at most once in a run, exactly when
    a text was extracted, and with the prompt built from that text; without
    extracted text the model is not called at all. *)
Theorem model_called_once_with_text (lib : libraries) (data : list N)
  (w : world) :
  groq_calls (trace_of (app_script lib (Some data) w))
  = match extracted_text lib data with
    | Some t => [user_content t]
    | None => []
    end
  /\ groq_calls (trace_of (app2_script lib (Some data) w))
     = match extracted_text lib data with
       | Some t => [user_content t]
       | None => []
       end.
Proof.
  split.
  - destruct (script_run lib data w app_process (app_script lib (Some data))
                eq_refl) as (tr & _ & Hg & _ & _ & Hr).
    rewrite Hr. clear Hr. apply groq_calls_none in Hg.
    destruct (extracted_text lib data) as [t|].
    + rewrite app_process_run.
      destruct (groq_create lib (user_content t)) as [[s|]|e];
        [destruct (json_loads (strip (remove_fences s))) as [v rest|d|];
         [destruct (truthy v);
          [destruct (archive_items (staged w data))|]| |]| |];
        rewrite trace_of_run;
        change (?a :: ?b :: tr ++ ?c) with ([a; b] ++ tr ++ c);
        rewrite !groq_calls_app, Hg; reflexivity.
    + rewrite trace_of_run.
      change (?a :: ?b :: tr ++ ?c) with ([a; b] ++ tr ++ c).
      rewrite !groq_calls_app, Hg. reflexivity.
  - destruct (script_run lib data w app2_process (app2_script lib (Some data))
                eq_refl) as (tr & _ & Hg & _ & _ & Hr).
    rewrite Hr. clear Hr. apply groq_calls_none in Hg.
    destruct (extracted_text lib data) as [t|].
    + rewrite app2_process_run.
      destruct (groq_create lib (user_content t)) as [[[|c s]|]|e].
      4: { rewrite trace_of_run.
           change (?a :: ?b :: tr ++ ?c) with ([a; b] ++ tr ++ c).
           rewrite !groq_calls_app, Hg. reflexivity. }
      3: { rewrite trace_of_run.
           change (?a :: ?b :: tr ++ ?c) with ([a; b] ++ tr ++ c).
           rewrite !groq_calls_app, Hg. reflexivity. }
      1: { rewrite trace_of_run.
           change (?a :: ?b :: tr ++ ?c) with ([a; b] ++ tr ++ c).
           rewrite !groq_calls_app, Hg. reflexivity. }
      assert (Hs : groq_calls
                     (trace_of (save_to_chromadb lib (c :: s) (staged w data)))
                   = []).
      { destruct (sink_cases lib (c :: s) (staged w data))
          as [(tr1 & E & Hn & _)|(d & n & _ & _ & _ & _ & _ & _ & _ & E)];
          rewrite E, trace_of_run; [now apply groq_calls_none|reflexivity]. }
      destruct (sink_cases lib (c :: s) (staged w data))
        as [(tr1 & E & _)|(d & n & _ & _ & _ & _ & _ & _ & _ & E)];
        rewrite E in Hs |- *; rewrite world_of_run, trace_of_run in *;
        cbn [temp_resume staged with_collection];
        rewrite trace_of_run;
        change (?a :: ?b :: tr ++ ?c) with ([a; b] ++ tr ++ c);
        rewrite !groq_calls_app, Hg, Hs; reflexivity.
    + rewrite trace_of_run.
      change (?a :: ?b :: tr ++ ?c) with ([a; b] ++ tr ++ c).
      rewrite !groq_calls_app, Hg. reflexivity.
Qed.

(** * From the upload to the stores *)

(** X17.  A whole run of [app.py]: a text is extracted, the model's answer
    normalises to a truthy value without floats, and the archive is absent
    or holds an array.  Then the run returns, the staged file is gone, the
    archive parses to the old items followed by the value, and the download
    button carries a text that parses to the value. *)
Theorem app_archives_answer (lib : libraries) (data : list N) (w : world)
  (t s : text) (r : json) (items : list json)
  (Htext : extracted_text lib data = Some t)
  (Hanswer : groq_create lib (user_content t) = Ret (Some s))
  (Hparsed : json_loads (strip (remove_fences s)) = Scanned r [])
  (Hvalue : well_formed r = true)
  (Htruthy : truthy r = true)
  (Harchive : archive_items w = Some items)
  (Hitems : forallb well_formed items = true) :
  outcome_of (app_script lib (Some data) w) = Ret tt
  /\ temp_resume (world_of (app_script lib (Some data) w)) = None
  /\ (exists content,
         archive (world_of (app_script lib (Some data) w)) = Some content
         /\ json_loads content = Scanned (JArr (items ++ [r])) [])
  /\ (exists download,
         In (StDownloadButton download)
            (trace_of (app_script lib (Some data) w))
         /\ json_loads download = Scanned r []).
Proof.
  destruct (script_run lib data w app_process (app_script lib (Some data))
              eq_refl) as (tr & _ & _ & _ & _ & Hr).
  rewrite Hr, Htext, app_process_run, Hanswer, Hparsed, Htruthy. clear Hr.
  change (archive_items (staged w data)) with (archive_items w).
  rewrite Harchive. cbn [with_archive staged temp_resume].
  rewrite outcome_of_run, world_of_run, trace_of_run.
  cbn [unstaged temp_resume archive].
  split; [reflexivity|]. split; [reflexivity|]. split.
  - eexists. split; [reflexivity|]. apply json_loads_dumps.
    cbn [well_formed]. rewrite forallb_app, Hitems. cbn [forallb].
    now rewrite Hvalue.
  - eexists. split.
    + right. right. apply in_or_app. right. cbn. tauto.
    + now apply json_loads_dumps.
Qed.

Lemma app_archives_answer_witness :
  outcome_of
    (app_script (sample_lib one_page (Ret (Some fenced_answer)) false)
       (Some sample_pdf) empty_world)
  = Ret tt
  /\ exists content,
       archive
         (world_of
            (app_script (sample_lib one_page (Ret (Some fenced_answer)) false)
               (Some sample_pdf) empty_world))
       = Some content
       /\ json_loads content
          = Scanned (JArr ([] ++ [JObj [(lit "name", JStr (lit "A"))]])) [].
Proof.
  pose proof (app_archives_answer
                (sample_lib one_page (Ret (Some fenced_answer)) false)
                sample_pdf empty_world (lit "John Doe") fenced_answer
                (JObj [(lit "name", JStr (lit "A"))]) []
                eq_refl eq_refl eq_refl eq_refl eq_refl eq_refl eq_refl)
    as (Ho & _ & Ha & _).
  split; [exact Ho|exact Ha].
Defined.

(** X18.  A whole run of [app2.py]: a text is extracted and the model's
    answer normalises to a non-empty record whose name is a string (or is
    missing) and whose key is not empty and no id of the collection.  Then
    the run returns, the staged file is gone, the collection has one more
    entry, at its end, with the key as id, the compact serialisation of the
    record as document and the name as metadata; and the download button
    carries the answer as one JSON string, which parses to the raw answer
    text, not to the record.  (The key is the one the interpreter's
    lower-casing gives; the query of line 140 is taken to return, as in the
    model of the script.) *)
Theorem app2_stores_answer (lib : libraries) (data : list N) (w : world)
  (t s : text) (d : pydict) (name : text)
  (Htext : extracted_text lib data = Some t)
  (Hanswer : groq_create lib (user_content t) = Ret (Some s))
  (Hparsed : json_loads (strip (remove_fences s)) = Scanned (JObj d) [])
  (Hnonempty : d <> [])
  (Hname : name_or_unknown d = JStr name)
  (Hkey : candidate_key (unicode_lower lib) name <> [])
  (Hnew : str_in (candidate_key (unicode_lower lib) name)
                 (List.map entry_id (collection w))
          = false)
  (Hanswer_text : text_ok s = true) :
  outcome_of (app2_script lib (Some data) w) = Ret tt
  /\ world_of (app2_script lib (Some data) w)
     = unstaged
         (with_collection w
            (collection w ++
             [{| entry_id := candidate_key (unicode_lower lib) name;
                 entry_document := json_dumps (float_repr lib) None (JObj d);
                 entry_name := name |}]))
  /\ (exists download,
         In (StDownloadButton download)
            (trace_of (app2_script lib (Some data) w))
         /\ json_loads download = Scanned (JStr s) []).
Proof.
  destruct (script_run lib data w app2_process (app2_script lib (Some data))
              eq_refl) as (tr & _ & _ & _ & _ & Hr).
  rewrite Hr, Htext, app2_process_run, Hanswer. clear Hr.
  assert (Hs : is_nil s = false).
  { destruct s; [discriminate Hparsed|reflexivity]. }
  destruct s as [|c s']; [discriminate Hs|].
  assert (Ht : truthy (JObj d) = true) by now destruct d.
  assert (E : save_to_chromadb lib (c :: s') (staged w data)
              = (Ret tt,
                 with_collection (staged w data)
                   (collection w ++
                    [{| entry_id := candidate_key (unicode_lower lib) name;
                        entry_document :=
                          json_dumps (float_repr lib) None (JObj d);
                        entry_name := name |}]),
                 [St Write
                    (SavedToChromaDB
                       (candidate_key (unicode_lower lib) name))])).
  { rewrite save_to_chromadb_run, Hs, Hparsed, Ht, Hname.
    cbn [staged collection].
    destruct (str_in (candidate_key (unicode_lower lib) name)
                     (peek_ids (collection w))) eqn:Hp.
    { apply peek_ids_in in Hp. congruence. }
    now rewrite (validate_id_nonempty lib _ Hkey), Hnew. }
  rewrite E, world_of_run, trace_of_run.
  cbn [with_collection staged temp_resume].
  rewrite outcome_of_run, world_of_run, trace_of_run.
  split; [reflexivity|]. split; [reflexivity|].
  eexists. split.
  - right. right. apply in_or_app. right. cbn. tauto.
  - now apply json_loads_dumps.
Qed.

Lemma app2_stores_answer_witness :
  world_of
    (app2_script
       (sample_lib one_page (Ret (Some (answer_named (lit "John Doe")))) false)
       (Some sample_pdf) empty_world)
  = {| temp_resume := None; archive := None;
       collection :=
         [{| entry_id := lit "john_doe";
             entry_document := json_lit "{'name': 'John Doe'}";
             entry_name := lit "John Doe" |}] |}.
Proof.
  refine (proj1 (proj2 (app2_stores_answer
            (sample_lib one_page (Ret (Some (answer_named (lit "John Doe"))))
               false)
            sample_pdf empty_world (lit "John Doe")
            (answer_named (lit "John Doe"))
            [(lit "name", JStr (lit "John Doe"))] (lit "John Doe")
            eq_refl eq_refl eq_refl _ eq_refl _ eq_refl eq_refl)));
    discriminate.
Defined.

(** * What the encoder writes *)

Lemma ascii_text_app (a b : text) :
  ascii_text a -> ascii_text b -> ascii_text (a ++ b).
Proof. intros Ha Hb. apply Forall_app. now split. Qed.

Lemma hex_digit_ascii (d : N) : d < 16 -> hex_digit d < 128.
Proof. intro H. unfold hex_digit. destruct (d <? 10); lia. Qed.

Lemma escape_u_ascii (n : N) : ascii_text (escape_u n).
Proof.
  unfold escape_u, ascii_text.
  repeat constructor; try lia; apply hex_digit_ascii;
    try apply nibble_lt.
  rewrite nibble0. now apply N.mod_lt.
Qed.

Lemma escape_cp_ascii (c : N) : ascii_text (escape_cp c).
Proof.
  unfold escape_cp.
  repeat match goal with
         | |- context [if ?a =? ?b then _ else _] => destruct (a =? b)
         end; try (repeat constructor; lia).
  destruct (N.leb_spec 32 c), (N.leb_spec c 126); cbn [andb].
  1: repeat constructor; lia.
  all: destruct (c <? 65536);
    [apply escape_u_ascii|apply ascii_text_app; apply escape_u_ascii].
Qed.

Lemma encode_string_ascii (s : text) : ascii_text (encode_string s).
Proof.
  unfold encode_string. constructor; [lia|].
  apply ascii_text_app; [|repeat constructor; lia].
  induction s as [|c s IH]; [constructor|].
  cbn [flat_map]. apply ascii_text_app; [apply escape_cp_ascii|exact IH].
Qed.

Lemma digits_of_ascii (fuel : nat) (n : N) : ascii_text (digits_of fuel n).
Proof.
  revert n. induction fuel as [|fuel IH]; intro n; [constructor|].
  cbn [digits_of]. destruct (N.ltb_spec n 10).
  - repeat constructor. lia.
  - apply ascii_text_app; [apply IH|]. repeat constructor.
    assert (n mod 10 < 10) by now apply N.mod_lt. lia.
Qed.

Lemma int_repr_ascii (z : Z) : ascii_text (int_repr z).
Proof.
  unfold int_repr. cbv zeta. destruct (z <? 0)%Z.
  - constructor; [lia|apply digits_of_ascii].
  - apply digits_of_ascii.
Qed.

Lemma newline_indent_ascii (indent : option nat) (level : nat) :
  ascii_text (newline_indent indent level).
Proof.
  destruct indent as [n|]; [|constructor]. cbn [newline_indent].
  constructor; [lia|]. apply Forall_forall. intros c H.
  apply repeat_spec in H. subst c. lia.
Qed.

Lemma item_separator_ascii (indent : option nat) (level : nat) :
  ascii_text (item_separator indent level).
Proof.
  unfold item_separator. destruct indent as [n|].
  - constructor; [lia|apply newline_indent_ascii].
  - repeat constructor; lia.
Qed.

Lemma join_ascii (sep : text) (parts : list text) :
  ascii_text sep -> Forall ascii_text parts -> ascii_text (join sep parts).
Proof.
  intros Hs. induction 1 as [|p ps Hp Hps IH]; [constructor|].
  cbn [join]. destruct ps as [|q ps]; [exact Hp|].
  apply ascii_text_app; [exact Hp|]. apply ascii_text_app; [exact Hs|exact IH].
Qed.

Lemma encode_ascii (fr : text -> text) (indent : option nat) (v : json) :
  (forall l, ascii_text (fr l)) ->
  forall level, ascii_text (encode fr indent level v).
Proof.
  intro Hfr. induction v as [ |b|z|f|s|items IH|members IH]
    using json_induction; intro level.
  - repeat constructor; lia.
  - destruct b; repeat constructor; lia.
  - apply int_repr_ascii.
  - destruct f as [ |[|]|i fc e]; cbn [encode encode_float];
      try (repeat constructor; lia). apply Hfr.
  - apply encode_string_ascii.
  - destruct items as [|x items]; [repeat constructor; lia|].
    cbn [encode]. constructor; [lia|].
    apply ascii_text_app; [apply newline_indent_ascii|].
    apply ascii_text_app;
      [|apply ascii_text_app;
        [apply newline_indent_ascii|repeat constructor; lia]].
    apply join_ascii; [apply item_separator_ascii|].
    apply Forall_map. revert IH. apply Forall_impl. intros a Ha. apply Ha.
  - destruct members as [|x members]; [repeat constructor; lia|].
    cbn [encode]. constructor; [lia|].
    apply ascii_text_app; [apply newline_indent_ascii|].
    apply ascii_text_app;
      [|apply ascii_text_app;
        [apply newline_indent_ascii|repeat constructor; lia]].
    apply join_ascii; [apply item_separator_ascii|].
    apply Forall_map. revert IH. apply Forall_impl. intros a Ha.
    apply ascii_text_app; [apply encode_string_ascii|].
    apply ascii_text_app; [repeat constructor; lia|apply Ha].
Qed.

(** X19.  What the scripts store is plain ASCII, whatever the model
    answered: the archive text after a save and the document of every entry
    the sink adds hold no character above U+007F, the encoder writing any
    other character as an escape; floats are taken to print in ASCII. *)
Theorem written_text_is_ascii (lib : libraries)
  (Hfloat : forall l, ascii_text (float_repr lib l)) :
  (forall data w content,
      outcome_of (save_to_json lib data w) = Ret tt ->
      archive (world_of (save_to_json lib data w)) = Some content ->
      ascii_text content)
  /\ (forall data w,
         Forall (fun e => ascii_text (entry_document e)) (collection w) ->
         Forall (fun e => ascii_text (entry_document e))
                (collection (world_of (save_to_chromadb lib data w)))).
Proof.
  split.
  - intros data w content. rewrite save_to_json_run.
    destruct (archive_items w) as [items|]; [|discriminate].
    rewrite world_of_run. cbn [with_archive archive].
    intros _ H. injection H as <-. now apply encode_ascii.
  - intros data w Hw.
    destruct (sink_cases lib data w)
      as [(tr & E & _)|(d & s & _ & _ & _ & _ & _ & _ & _ & E)];
      rewrite E, world_of_run; [exact Hw|].
    cbn [with_collection collection]. apply Forall_app. split; [exact Hw|].
    constructor; [|constructor]. cbn [entry_document]. now apply encode_ascii.
Qed.

Lemma written_text_is_ascii_witness :
  Forall (fun e => ascii_text (entry_document e))
    (collection
       (world_of
          (save_to_chromadb
             {| pdfplumber_open := fun _ => Ret one_page;
                fitz_open := fun _ => Ret [];
                groq_create := fun _ => Ret None;
                float_repr := fun _ => lit "0.0";
                add_raises_on_duplicate := false;
                add_empty_id := Raise (LibraryError 400);
                unicode_lower := fun s => s |}
             (answer_named [233; 8364]) empty_world))).
Proof.
  refine (proj2 (written_text_is_ascii
                   {| pdfplumber_open := fun _ => Ret one_page;
                      fitz_open := fun _ => Ret [];
                      groq_create := fun _ => Ret None;
                      float_repr := fun _ => lit "0.0";
                      add_raises_on_duplicate := false;
                      add_empty_id := Raise (LibraryError 400);
                      unicode_lower := fun s => s |} _)
            (answer_named [233; 8364]) empty_world (Forall_nil _)).
  intro l. repeat (constructor; [reflexivity|]). constructor.
Defined.

(** * What the stores never take *)

(** X20.  The sink adds nothing but named records: whenever a call changes
    the collection, the answer had normalised to a non-empty object whose
    name is a string (or is missing, and then [Unknown]), and the key of
    that name was no id of the collection. *)
Theorem sink_stores_only_named_records (lib : libraries) (data : text)
  (w : world)
  (Hchanged : collection (world_of (save_to_chromadb lib data w))
              <> collection w) :
  exists d name,
    json_loads (strip (remove_fences data)) = Scanned (JObj d) []
    /\ d <> []
    /\ name_or_unknown d = JStr name
    /\ str_in (candidate_key (unicode_lower lib) name)
              (List.map entry_id (collection w)) = false.
Proof.
  destruct (sink_cases lib data w)
    as [(tr & E & _)|(d & s & Hl & _ & Hd & Hn & _ & Hi & _ & _)].
  - rewrite E, world_of_run in Hchanged. now destruct Hchanged.
  - exists d, s. repeat split; assumption.
Qed.

Lemma sink_stores_only_named_records_witness :
  exists d name,
    json_loads (strip (remove_fences (answer_named (lit "John Doe"))))
    = Scanned (JObj d) []
    /\ d <> []
    /\ name_or_unknown d = JStr name
    /\ str_in (candidate_key
                 (unicode_lower (sample_lib one_page (Ret None) false)) name)
              (List.map entry_id (collection empty_world))
       = false.
Proof.
  refine (sink_stores_only_named_records
            (sample_lib one_page (Ret None) false)
            (answer_named (lit "John Doe")) empty_world _).
  vm_compute. discriminate.
Defined.

(** X21.  [app.py] archives nothing but parsed, truthy answers: whenever a
    run on an upload changes the archive, a text had been extracted, the
    model had answered, the answer had normalised to a truthy value, and
    the archive then holds the serialisation of the old items followed by
    that value. *)
Theorem app_archives_only_truthy_answers (lib : libraries) (data : list N)
  (w : world)
  (Hchanged : archive (world_of (app_script lib (Some data) w)) <> archive w) :
  exists t s v items,
    extracted_text lib data = Some t
    /\ groq_create lib (user_content t) = Ret (Some s)
    /\ json_loads (strip (remove_fences s)) = Scanned v []
    /\ truthy v = true
    /\ archive_items w = Some items
    /\ archive (world_of (app_script lib (Some data) w))
       = Some (json_dumps (float_repr lib) (Some 4%nat) (JArr (items ++ [v]))).
Proof.
  destruct (script_run lib data w app_process (app_script lib (Some data))
              eq_refl) as (tr & _ & _ & _ & _ & Hr).
  rewrite Hr in Hchanged |- *. clear Hr.
  destruct (extracted_text lib data) as [t|];
    [|now destruct Hchanged].
  rewrite app_process_run in Hchanged |- *.
  destruct (groq_create lib (user_content t)) as [[s|]|e] eqn:Eg;
    [| now destruct Hchanged | now destruct Hchanged].
  destruct (json_loads (strip (remove_fences s))) as [v rest|d|] eqn:El;
    [| now destruct Hchanged | now destruct Hchanged].
  apply json_loads_rest in El as Hrest. subst rest.
  destruct (truthy v) eqn:Et; [|now destruct Hchanged].
  change (archive_items (staged w data)) with (archive_items w) in *.
  destruct (archive_items w) as [items|] eqn:Ea; [|now destruct Hchanged].
  exists t, s, v, items. repeat (split; [first [reflexivity|assumption]|]).
  reflexivity.
Qed.

Lemma app_archives_only_truthy_answers_witness :
  exists t s v items,
    extracted_text (sample_lib one_page (Ret (Some fenced_answer)) false)
      sample_pdf = Some t
    /\ groq_create (sample_lib one_page (Ret (Some fenced_answer)) false)
         (user_content t) = Ret (Some s)
    /\ json_loads (strip (remove_fences s)) = Scanned v []
    /\ truthy v = true
    /\ archive_items empty_world = Some items
    /\ archive
         (world_of
            (app_script (sample_lib one_page (Ret (Some fenced_answer)) false)
               (Some sample_pdf) empty_world))
       = Some (json_dumps
                 (float_repr
                    (sample_lib one_page (Ret (Some fenced_answer)) false))
                 (Some 4%nat) (JArr (items ++ [v]))).
Proof.
  refine (app_archives_only_truthy_answers
            (sample_lib one_page (Ret (Some fenced_answer)) false)
            sample_pdf empty_world _).
  vm_compute. discriminate.
Defined.
